(** * PZ Emporium: the shopping cart (cart.js) and the content loader
      (js/data-loader.js), embedded over a small model of the JavaScript
      values, numbers, JSON text and browser storage they run on. *)

From Stdlib Require Import ZArith NArith List String Ascii Bool Lia.
From Stdlib Require Import Floats.SpecFloat.
From stdpp Require Import base option list gmap strings.

Local Open Scope Z_scope.
Set Warnings "-register-all".

(** ** Numbers

    A JavaScript Number is an IEEE 754 binary64 value.  [spec_float] is the
    Standard Library's inductive description of such values; arithmetic on
    it rounds to nearest, ties to even. *)
Module Num.

Definition prec : Z := 53.
Definition emax : Z := 1024.

Definition number : Type := spec_float.

Definition nan : number := S754_nan.
Definition zero : number := S754_zero false.
Definition neg_zero : number := S754_zero true.
Definition infinity (neg : bool) : number := S754_infinity neg.

Definition add (x y : number) : number := SFadd prec emax x y.

Definition is_finite (x : number) : bool :=
  match x with
  | S754_zero _ | S754_finite _ _ _ => true
  | _ => false
  end.

Definition is_negative (x : number) : bool := SFltb x zero.

#[global] Instance number_eq_dec : EqDecision number.
Proof. solve_decision. Defined.

(** The Number nearest to [m * 10 ^ e10], with the sign [neg]: an integer
    is rounded directly, a proper fraction through one long division. *)
Definition of_decimal (neg : bool) (m : N) (e10 : Z) : number :=
  match m with
  | N0 => S754_zero neg
  | Npos p =>
      if 0 <=? e10
      then binary_round prec emax neg (p * Z.to_pos (10 ^ e10)) 0
      else
        let '(q, e, l) :=
          SFdiv_core_binary prec emax (Zpos p) 0 (10 ^ (- e10)) 0 in
        binary_round_aux prec emax neg q e l
  end.

Definition of_Z (z : Z) : number :=
  of_decimal (z <? 0) (Z.to_N (Z.abs z)) 0.

End Num.
Export Num(number).

(** ** Decimal digit strings *)
Module Digits.

Definition digit_char (d : N) : ascii := ascii_of_N (48 + d).

Definition is_digit (c : ascii) : bool :=
  let n := N_of_ascii c in ((48 <=? n) && (n <=? 57))%N.

Definition digit_val (c : ascii) : N := (N_of_ascii c - 48)%N.

(** Most significant digit first; [fuel] bounds the number of digits. *)
Fixpoint digits_aux (fuel : nat) (n : N) (acc : list ascii) : list ascii :=
  match fuel with
  | O => acc
  | S fuel' =>
      let acc' := digit_char (n mod 10) :: acc in
      if (n <? 10)%N then acc' else digits_aux fuel' (n / 10)%N acc'
  end.

Definition digits_of_N (n : N) : list ascii :=
  digits_aux (S (N.to_nat (N.log2 n))) n [].

Definition N_of_digits (l : list ascii) : N :=
  fold_left (fun acc c => (10 * acc + digit_val c)%N) l 0%N.

End Digits.

(** ** Decimal literals

    The shape shared by the text of a Number ([StrDecimalLiteral], which
    [parseFloat] reads) and by a JSON number. *)
Module Literal.

Fixpoint span (p : ascii -> bool) (l : list ascii)
  : list ascii * list ascii :=
  match l with
  | c :: l' =>
      if p c then let '(a, b) := span p l' in (c :: a, b) else ([], l)
  | [] => ([], [])
  end.

Record decimal := {
  int_part : list ascii;
  has_point : bool;
  frac_part : list ascii;
  exp_neg : bool;
  exp_part : list ascii   (* empty when there is no exponent part *)
}.

Definition is_e (c : ascii) : bool :=
  if decide (c = "e"%char) then true
  else if decide (c = "E"%char) then true else false.

(** [ExponentPart], taken only when at least one digit follows. *)
Definition lex_exponent (l : list ascii)
  : bool * list ascii * list ascii :=
  match l with
  | c :: l1 =>
      if is_e c then
        let '(neg, l2) :=
          match l1 with
          | s :: l2 =>
              if decide (s = "-"%char) then (true, l2)
              else if decide (s = "+"%char) then (false, l2)
              else (false, l1)
          | [] => (false, l1)
          end in
        match span Digits.is_digit l2 with
        | ([], _) => (false, [], l)
        | (ds, rest) => (neg, ds, rest)
        end
      else (false, [], l)
  | [] => (false, [], l)
  end.

(** The longest prefix of [l] that is an unsigned decimal literal:
    [digits], [digits.], [digits.digits] or [.digits], then an optional
    exponent part. *)
Definition lex (l : list ascii) : option (decimal * list ascii) :=
  let '(ip, l1) := span Digits.is_digit l in
  let '(pt, fp, l2) :=
    match l1 with
    | c :: l1' =>
        if decide (c = "."%char) then
          let '(fp, l2) := span Digits.is_digit l1' in
          match ip, fp with
          | [], [] => (false, [], l1)
          | _, _ => (true, fp, l2)
          end
        else (false, [], l1)
    | [] => (false, [], l1)
    end in
  match ip, fp with
  | [], [] => None
  | _, _ =>
      let '(en, ep, l3) := lex_exponent l2 in
      Some ({| int_part := ip; has_point := pt; frac_part := fp;
               exp_neg := en; exp_part := ep |}, l3)
  end.

Definition exponent_of (d : decimal) : Z :=
  let e := Z.of_N (Digits.N_of_digits (exp_part d)) in
  if exp_neg d then - e else e.

(** The mathematical value of the literal, rounded to a Number. *)
Definition value (neg : bool) (d : decimal) : number :=
  Num.of_decimal neg
    (Digits.N_of_digits (int_part d ++ frac_part d))
    (exponent_of d - Z.of_nat (length (frac_part d))).

End Literal.

(** ** The text of a Number ([Number::toString], radix 10) *)
Module NumText.

Definition chars (s : string) : list ascii := list_ascii_of_string s.

(** Steps 6 to 10 of [Number::toString]: the digits [ds] of [s] and the
    position [n] of the decimal point, so that the value is
    [s * 10 ^ (n - length ds)]. *)
Definition render (ds : list ascii) (n : Z) : list ascii :=
  let k := Z.of_nat (length ds) in
  if (k <=? n) && (n <=? 21) then
    ds ++ repeat "0"%char (Z.to_nat (n - k))
  else if (0 <? n) && (n <=? 21) then
    take (Z.to_nat n) ds ++ "."%char :: drop (Z.to_nat n) ds
  else if (-6 <? n) && (n <=? 0) then
    "0"%char :: "."%char :: repeat "0"%char (Z.to_nat (- n)) ++ ds
  else
    let ex := n - 1 in
    let tail_ :=
      "e"%char :: (if ex <? 0 then "-"%char else "+"%char)
               :: Digits.digits_of_N (Z.to_N (Z.abs ex)) in
    match ds with
    | [d] => d :: tail_
    | d :: ds' => d :: "."%char :: ds' ++ tail_
    | [] => tail_
    end.

(** The Number a rendered text denotes under the sign [neg]. *)
Definition read_back (neg : bool) (t : list ascii) : option number :=
  match Literal.lex t with
  | Some (d, []) => Some (Literal.value neg d)
  | _ => None
  end.

(** [x = p / q >= 10 ^ n] for the positive rational [p / q]. *)
Definition ge_pow10 (p q : Z) (n : Z) : bool :=
  if 0 <=? n then q * 10 ^ n <=? p else q <=? p * 10 ^ (- n).

(** The [n] with [10 ^ (n - 1) <= p / q < 10 ^ n]. *)
Definition decimal_exponent (p q : Z) : Z :=
  let est := (Z.log2 p - Z.log2 q) * 30103 / 100000 in
  let fix go (fuel : nat) (n : Z) : Z :=
    match fuel with
    | O => n + 1
    | S fuel' => if ge_pow10 p q n then n + 1 else go fuel' (n - 1)
    end in
  go 5%nat (est + 2).

(** The integers [s] next to [(p / q) / 10 ^ (n0 - k)], the nearer one
    first (on a tie the even one), each with its point position. *)
Definition candidates (p q n0 : Z) (k : Z) : list (N * Z) :=
  let sc := n0 - k in
  let num := if sc <? 0 then p * 10 ^ (- sc) else p in
  let den := if sc <? 0 then q else q * 10 ^ sc in
  let lo := num / den in
  let r := num mod den in
  let norm (s : Z) : N * Z :=
    if s =? 10 ^ k then (1%N, n0 + 1) else (Z.to_N s, n0) in
  if r =? 0 then [norm lo]
  else
    match 2 * r ?= den with
    | Lt => [norm lo; norm (lo + 1)]
    | Gt => [norm (lo + 1); norm lo]
    | Eq => if Z.even lo then [norm lo; norm (lo + 1)]
            else [norm (lo + 1); norm lo]
    end.

Definition reads_as (neg : bool) (x : number) (c : N * Z) : bool :=
  bool_decide
    (read_back neg (render (Digits.digits_of_N c.1) c.2) = Some x).

(** The least number of digits [k] (at most 17) for which some [s] of [k]
    digits reads back as [x]; with 17 digits the nearest [s] is taken. *)
Fixpoint shortest (fuel : nat) (k : Z) (neg : bool) (x : number)
    (p q n0 : Z) : N * Z :=
  let cs := candidates p q n0 k in
  match fuel with
  | O => default (0%N, 1) (head cs)
  | S fuel' =>
      match List.find (reads_as neg x) cs with
      | Some c => c
      | None => shortest fuel' (k + 1) neg x p q n0
      end
  end.

(** The digits of the magnitude of the finite Number with sign [neg],
    mantissa [m] and binary exponent [e]. *)
Definition of_finite (neg : bool) (m : positive) (e : Z) : list ascii :=
  let p := if e <? 0 then Zpos m else Zpos m * 2 ^ e in
  let q := if e <? 0 then 2 ^ (- e) else 1 in
  let '(s, n) :=
    shortest 16 1 neg (S754_finite neg m e) p q (decimal_exponent p q) in
  render (Digits.digits_of_N s) n.

Definition to_chars (x : number) : list ascii :=
  match x with
  | S754_nan => chars "NaN"
  | S754_zero _ => chars "0"
  | S754_infinity neg =>
      (if neg then ["-"%char] else []) ++ chars "Infinity"
  | S754_finite neg m e =>
      (if neg then ["-"%char] else []) ++ of_finite neg m e
  end.

Definition to_string (x : number) : string :=
  string_of_list_ascii (to_chars x).

(** [x.toFixed(2)]: the integer [n] nearest to [100 * |x|], the larger
    one on a tie, written with a point before its last two digits. *)
Definition fixed2_digits (m : positive) (e : Z) : list ascii :=
  let n :=
    if e <? 0 then (2 * (Zpos m * 100) + 2 ^ (- e)) / (2 * 2 ^ (- e))
    else Zpos m * 2 ^ e * 100 in
  let ds := Digits.digits_of_N (Z.to_N n) in
  let ds := repeat "0"%char (3 - length ds) ++ ds in
  let k := (length ds - 2)%nat in
  take k ds ++ "."%char :: drop k ds.

Definition to_fixed2 (x : number) : string :=
  match x with
  | S754_nan => "NaN"
  | S754_zero _ => "0.00"
  | S754_infinity _ => to_string x
  | S754_finite neg m e =>
      if SFleb (Num.of_decimal false 1 21) (S754_finite false m e)
      then to_string x
      else string_of_list_ascii
             ((if neg then ["-"%char] else []) ++ fixed2_digits m e)
  end.

End NumText.

(** ** Values and the coercions the two scripts rely on *)
Module JS.

Inductive error :=
| TypeError
| SyntaxError
| QuotaExceededError
| Error (message : string).

Inductive result (A : Type) :=
| Ok (a : A)
| Throw (e : error).
Arguments Ok {A} a.
Arguments Throw {A} e.

Definition bind {A B} (r : result A) (k : A -> result B) : result B :=
  match r with
  | Ok a => k a
  | Throw e => Throw e
  end.

(** Data values: what JSON text, object and array literals and the
    primitive types can hold.  An object is its own properties in
    enumeration order; no value is a function. *)
Inductive value :=
| VUndefined
| VNull
| VBool (b : bool)
| VNum (n : number)
| VStr (s : string)
| VArr (elems : list value)
| VObj (props : list (string * value)).

Fixpoint lookup_prop (key : string) (props : list (string * value))
  : option value :=
  match props with
  | [] => None
  | (k, v) :: props' =>
      if String.eqb k key then Some v else lookup_prop key props'
  end.

Definition has_own (key : string) (props : list (string * value)) : bool :=
  match lookup_prop key props with Some _ => true | None => false end.

(** [v.key] for a property name that is neither an index, nor [length],
    nor inherited from a built-in prototype (the scripts read [id],
    [name], [price], [description] and [type]). *)
Definition get (v : value) (key : string) : result value :=
  match v with
  | VUndefined | VNull => Throw TypeError
  | VObj props => Ok (default VUndefined (lookup_prop key props))
  | _ => Ok VUndefined
  end.

(** [ToBoolean] *)
Definition truthy (v : value) : bool :=
  match v with
  | VUndefined | VNull => false
  | VBool b => b
  | VNum n =>
      match n with
      | S754_zero _ | S754_nan => false
      | _ => true
      end
  | VStr s => negb (String.eqb s EmptyString)
  | VArr _ | VObj _ => true
  end.

(** [a || b] on values already evaluated ([b] has no effect here). *)
Definition or_else (a b : value) : value := if truthy a then a else b.

Fixpoint join (sep : string) (l : list string) : string :=
  match l with
  | [] => EmptyString
  | [s] => s
  | s :: l' => s ++ sep ++ join sep l'
  end.

(** [ToString].  An array joins its elements with commas, [null] and
    [undefined] elements giving the empty string; a plain object gives
    ["[object Object]"] unless an own data property hides
    [Object.prototype.toString], in which case no method yields a
    primitive. *)
Fixpoint to_string (v : value) : result string :=
  match v with
  | VUndefined => Ok "undefined"
  | VNull => Ok "null"
  | VBool b => Ok (if b then "true" else "false")
  | VNum n => Ok (NumText.to_string n)
  | VStr s => Ok s
  | VArr elems =>
      let fix go (l : list value) : result (list string) :=
        match l with
        | [] => Ok []
        | x :: l' =>
            bind (match x with
                  | VUndefined | VNull => Ok EmptyString
                  | _ => to_string x
                  end)
              (fun s => bind (go l') (fun ss => Ok (s :: ss)))
        end in
      bind (go elems) (fun ss => Ok (join "," ss))
  | VObj props =>
      if has_own "toString" props then Throw TypeError
      else Ok "[object Object]"
  end.

(** [ToPrimitive] with no preferred type: objects and arrays end up at
    their [toString]. *)
Definition to_primitive (v : value) : result value :=
  match v with
  | VArr _ | VObj _ => bind (to_string v) (fun s => Ok (VStr s))
  | _ => Ok v
  end.

(** [ToNumber] of a primitive that is not a string. *)
Definition prim_to_number (v : value) : number :=
  match v with
  | VNum n => n
  | VNull => Num.zero
  | VBool b => if b then Num.of_Z 1 else Num.zero
  | _ => Num.nan
  end.

(** The [+] operator. *)
Definition plus (a b : value) : result value :=
  bind (to_primitive a) (fun pa =>
  bind (to_primitive b) (fun pb =>
    match pa, pb with
    | VStr _, _ | _, VStr _ =>
        bind (to_string pa) (fun sa =>
        bind (to_string pb) (fun sb => Ok (VStr (sa ++ sb))))
    | _, _ => Ok (VNum (Num.add (prim_to_number pa) (prim_to_number pb)))
    end)).

Definition is_white_space (c : ascii) : bool :=
  let n := N_of_ascii c in
  (((9 <=? n) && (n <=? 13)) || (n =? 32) || (n =? 160))%N.

Fixpoint skip_white_space (l : list ascii) : list ascii :=
  match l with
  | c :: l' => if is_white_space c then skip_white_space l' else l
  | [] => []
  end.

Fixpoint is_prefix (p l : list ascii) : bool :=
  match p, l with
  | [], _ => true
  | a :: p', b :: l' => if decide (a = b) then is_prefix p' l' else false
  | _ :: _, [] => false
  end.

(** [parseFloat] on a string: leading white space is dropped, then the
    longest prefix that is a signed decimal literal is read; there is
    none when the result is [NaN]. *)
Definition parse_float_string (s : string) : number :=
  let l := skip_white_space (list_ascii_of_string s) in
  let '(neg, l') :=
    match l with
    | s :: l' =>
        if decide (s = "-"%char) then (true, l')
        else if decide (s = "+"%char) then (false, l')
        else (false, l)
    | [] => (false, l)
    end in
  if is_prefix (list_ascii_of_string "Infinity") l' then Num.infinity neg
  else
    match Literal.lex l' with
    | Some (d, _) => Literal.value neg d
    | None => Num.nan
    end.

Definition parseFloat (v : value) : result number :=
  bind (to_string v) (fun s => Ok (parse_float_string s)).

End JS.
Export JS(value, VUndefined, VNull, VBool, VNum, VStr, VArr, VObj,
          result, Ok, Throw).

(** ** JSON text: [JSON.stringify] and [JSON.parse]

    A string value is a byte string; a byte of 128 or more is part of the
    UTF-8 form of a character and is copied through by both directions. *)
Module JSON.
Import JS.

Definition dquote : ascii := ascii_of_N 34.
Definition backslash : ascii := ascii_of_N 92.

Definition hex_char (d : N) : ascii :=
  if (d <? 10)%N then ascii_of_N (48 + d) else ascii_of_N (87 + d).

(** [QuoteJSONString], one character. *)
Definition quote_char (c : ascii) : list ascii :=
  let n := N_of_ascii c in
  if (n =? 34)%N then [backslash; dquote]
  else if (n =? 92)%N then [backslash; backslash]
  else if (n =? 8)%N then [backslash; "b"%char]
  else if (n =? 12)%N then [backslash; "f"%char]
  else if (n =? 10)%N then [backslash; "n"%char]
  else if (n =? 13)%N then [backslash; "r"%char]
  else if (n =? 9)%N then [backslash; "t"%char]
  else if (n <? 32)%N then
    [backslash; "u"%char; "0"%char; "0"%char;
     hex_char (n / 16); hex_char (n mod 16)]
  else [c].

Definition quote (s : string) : list ascii :=
  dquote :: flat_map quote_char (list_ascii_of_string s) ++ [dquote].

Definition number_text (n : number) : list ascii :=
  if Num.is_finite n then NumText.to_chars n
  else list_ascii_of_string "null".

Fixpoint sep_by (sep : ascii) (l : list (list ascii)) : list ascii :=
  match l with
  | [] => []
  | [x] => x
  | x :: l' => x ++ sep :: sep_by sep l'
  end.

(** The members of an object, each as [key:text]; a member whose value
    has no text is left out. *)
Fixpoint members (ser : value -> option (list ascii))
    (l : list (string * value)) : list (list ascii) :=
  match l with
  | [] => []
  | (k, x) :: l' =>
      match ser x with
      | Some t => (quote k ++ ":"%char :: t) :: members ser l'
      | None => members ser l'
      end
  end.

(** [SerializeJSONProperty]: [None] is the [undefined] result, which an
    array writes as [null] and an object leaves out with its key. *)
Fixpoint serialize (v : value) : option (list ascii) :=
  match v with
  | VUndefined => None
  | VNull => Some (list_ascii_of_string "null")
  | VBool b => Some (list_ascii_of_string (if b then "true" else "false"))
  | VNum n => Some (number_text n)
  | VStr s => Some (quote s)
  | VArr elems =>
      Some ("["%char
            :: sep_by ","%char
                 (map (fun x =>
                         default (list_ascii_of_string "null") (serialize x))
                    elems)
            ++ ["]"%char])
  | VObj props =>
      Some ("{"%char :: sep_by ","%char (members serialize props)
            ++ ["}"%char])
  end.

(** [JSON.stringify(v)], [None] standing for [undefined]. *)
Definition stringify (v : value) : option string :=
  option_map string_of_list_ascii (serialize v).

Definition hex_val (c : ascii) : option N :=
  let n := N_of_ascii c in
  if ((48 <=? n) && (n <=? 57))%N then Some (n - 48)%N
  else if ((97 <=? n) && (n <=? 102))%N then Some (n - 87)%N
  else if ((65 <=? n) && (n <=? 70))%N then Some (n - 55)%N
  else None.

(** The bytes of the code unit [u] of a [\uXXXX] escape; half of a
    surrogate pair is written as three bytes on its own. *)
Definition unit_bytes (u : N) : list ascii :=
  if (u <? 128)%N then [ascii_of_N u]
  else if (u <? 2048)%N then
    [ascii_of_N (192 + u / 64); ascii_of_N (128 + u mod 64)]
  else
    [ascii_of_N (224 + u / 4096); ascii_of_N (128 + (u / 64) mod 64);
     ascii_of_N (128 + u mod 64)].

Definition unescape (e : ascii) : option ascii :=
  if decide (e = dquote) then Some dquote
  else if decide (e = backslash) then Some backslash
  else if decide (e = "/"%char) then Some "/"%char
  else if decide (e = "b"%char) then Some (ascii_of_N 8)
  else if decide (e = "f"%char) then Some (ascii_of_N 12)
  else if decide (e = "n"%char) then Some (ascii_of_N 10)
  else if decide (e = "r"%char) then Some (ascii_of_N 13)
  else if decide (e = "t"%char) then Some (ascii_of_N 9)
  else None.

(** The characters of a string literal after its opening quote, up to
    and without the closing one. *)
Fixpoint unquote (l : list ascii) : option (list ascii * list ascii) :=
  match l with
  | [] => None
  | c :: l1 =>
      if decide (c = dquote) then Some ([], l1)
      else if decide (c = backslash) then
        match l1 with
        | [] => None
        | e :: l2 =>
            if decide (e = "u"%char) then
              match l2 with
              | h1 :: h2 :: h3 :: h4 :: l3 =>
                  match hex_val h1, hex_val h2, hex_val h3, hex_val h4 with
                  | Some a, Some b, Some c', Some d =>
                      match unquote l3 with
                      | Some (s, rest) =>
                          Some (unit_bytes
                                  (((a * 16 + b) * 16 + c') * 16 + d)%N
                                  ++ s, rest)
                      | None => None
                      end
                  | _, _, _, _ => None
                  end
              | _ => None
              end
            else
              match unescape e, unquote l2 with
              | Some c', Some (s, rest) => Some (c' :: s, rest)
              | _, _ => None
              end
        end
      else if (N_of_ascii c <? 32)%N then None
      else
        match unquote l1 with
        | Some (s, rest) => Some (c :: s, rest)
        | None => None
        end
  end.

Definition is_ws (c : ascii) : bool :=
  let n := N_of_ascii c in
  ((n =? 32) || (n =? 9) || (n =? 10) || (n =? 13))%N.

Fixpoint skip_ws (l : list ascii) : list ascii :=
  match l with
  | c :: l' => if is_ws c then skip_ws l' else l
  | [] => []
  end.

(** A JSON number: no leading zero, and digits on both sides of a
    decimal point. *)
Definition json_shape (d : Literal.decimal) : bool :=
  match Literal.int_part d with
  | [] => false
  | [_] => true
  | c :: _ => negb (bool_decide (c = "0"%char))
  end
  && (negb (Literal.has_point d)
      || match Literal.frac_part d with [] => false | _ => true end).

Definition parse_number (l : list ascii) : option (value * list ascii) :=
  let '(neg, l') :=
    match l with
    | s :: l' => if decide (s = "-"%char) then (true, l') else (false, l)
    | [] => (false, l)
    end in
  match Literal.lex l' with
  | Some (d, rest) =>
      if json_shape d then Some (VNum (Literal.value neg d), rest)
      else None
  | None => None
  end.

(** An array index as a property name: the canonical decimal text of an
    integer below [2 ^ 32 - 1]. *)
Definition index_of (key : string) : option N :=
  let cs := list_ascii_of_string key in
  let n := Digits.N_of_digits cs in
  if bool_decide (cs = Digits.digits_of_N n) && (n <? 4294967295)%N
  then Some n else None.

Fixpoint insert_index (i : N) (key : string) (v : value)
    (props : list (string * value)) : list (string * value) :=
  match props with
  | [] => [(key, v)]
  | (k, x) :: props' =>
      match index_of k with
      | Some j =>
          if (j <? i)%N then (k, x) :: insert_index i key v props'
          else (key, v) :: props
      | None => (key, v) :: props
      end
  end.

Fixpoint replace_prop (key : string) (v : value)
    (props : list (string * value)) : list (string * value) :=
  match props with
  | [] => []
  | (k, x) :: props' =>
      if String.eqb k key then (k, v) :: props'
      else (k, x) :: replace_prop key v props'
  end.

(** [CreateDataProperty] on an ordinary object: a known key keeps its
    place, a new index goes among the indices in ascending order, any
    other new key goes last. *)
Definition define_prop (key : string) (v : value)
    (props : list (string * value)) : list (string * value) :=
  if has_own key props then replace_prop key v props
  else
    match index_of key with
    | Some i => insert_index i key v props
    | None => props ++ [(key, v)]
    end.

(** [JSON.parse], by recursive descent.  Every call consumes a character
    before it calls again, so a fuel above the length of the text never
    runs out; [None] is a syntax error. *)
Fixpoint parse_value (fuel : nat) (l : list ascii)
  : option (value * list ascii) :=
  match fuel with
  | O => None
  | S fuel' =>
      match skip_ws l with
      | [] => None
      | c :: l1 =>
          if decide (c = "["%char) then
            match skip_ws l1 with
            | c' :: rest =>
                if decide (c' = "]"%char) then Some (VArr [], rest)
                else parse_elements fuel' l1 []
            | [] => None
            end
          else if decide (c = "{"%char) then
            match skip_ws l1 with
            | c' :: rest =>
                if decide (c' = "}"%char) then Some (VObj [], rest)
                else parse_members fuel' l1 []
            | [] => None
            end
          else if decide (c = dquote) then
            match unquote l1 with
            | Some (s, rest) => Some (VStr (string_of_list_ascii s), rest)
            | None => None
            end
          else if is_prefix (list_ascii_of_string "null") (c :: l1) then
            Some (VNull, drop 4 (c :: l1))
          else if is_prefix (list_ascii_of_string "true") (c :: l1) then
            Some (VBool true, drop 4 (c :: l1))
          else if is_prefix (list_ascii_of_string "false") (c :: l1) then
            Some (VBool false, drop 5 (c :: l1))
          else parse_number (c :: l1)
      end
  end
with parse_elements (fuel : nat) (l : list ascii) (acc : list value)
  : option (value * list ascii) :=
  match fuel with
  | O => None
  | S fuel' =>
      match parse_value fuel' l with
      | Some (v, l1) =>
          match skip_ws l1 with
          | c :: l2 =>
              if decide (c = ","%char)
              then parse_elements fuel' l2 (acc ++ [v])
              else if decide (c = "]"%char)
              then Some (VArr (acc ++ [v]), l2)
              else None
          | [] => None
          end
      | None => None
      end
  end
with parse_members (fuel : nat) (l : list ascii)
    (acc : list (string * value)) : option (value * list ascii) :=
  match fuel with
  | O => None
  | S fuel' =>
      match skip_ws l with
      | c :: l1 =>
          if decide (c = dquote) then
            match unquote l1 with
            | Some (k, l2) =>
                match skip_ws l2 with
                | c2 :: l3 =>
                    if decide (c2 = ":"%char) then
                      match parse_value fuel' l3 with
                      | Some (v, l4) =>
                          let acc' :=
                            define_prop (string_of_list_ascii k) v acc in
                          match skip_ws l4 with
                          | c4 :: l5 =>
                              if decide (c4 = ","%char)
                              then parse_members fuel' l5 acc'
                              else if decide (c4 = "}"%char)
                              then Some (VObj acc', l5)
                              else None
                          | [] => None
                          end
                      | None => None
                      end
                    else None
                | [] => None
                end
            | None => None
            end
          else None
      | [] => None
      end
  end.

Definition parse_chars (l : list ascii) : result value :=
  match parse_value (2 * length l + 2) l with
  | Some (v, rest) =>
      match skip_ws rest with
      | [] => Ok v
      | _ => Throw SyntaxError
      end
  | None => Throw SyntaxError
  end.

Definition parse (s : string) : result value :=
  parse_chars (list_ascii_of_string s).

End JSON.

(** ** Sequencing: state threaded through calls that may throw *)
Module Eff.
Import JS.

(** A call runs on a state [S]; a thrown error stops it and leaves the
    state as it was at that point. *)
Definition M (S A : Type) : Type := S -> result A * S.

Definition ret {S A} (a : A) : M S A := fun st => (Ok a, st).

Definition mbind {S A B} (m : M S A) (k : A -> M S B) : M S B :=
  fun st =>
    match m st with
    | (Ok a, st') => k a st'
    | (Throw e, st') => (Throw e, st')
    end.

Definition lift {S A} (r : result A) : M S A := fun st => (r, st).

Definition modify {S} (f : S -> S) : M S unit :=
  fun st => (Ok tt, f st).

Definition gets {S A} (f : S -> A) : M S A := fun st => (Ok (f st), st).

(** [try { m } catch (error) { h }] *)
Definition catch {S A} (m : M S A) (h : error -> M S A) : M S A :=
  fun st =>
    match m st with
    | (Ok a, st') => (Ok a, st')
    | (Throw e, st') => h e st'
    end.

Declare Scope eff_scope.
Delimit Scope eff_scope with eff.
Notation "'do' x <- m ; k" := (mbind m (fun x => k))
  (at level 10, x name, m at level 100, k at level 200) : eff_scope.
Notation "'run' m ; k" := (mbind m (fun _ => k))
  (at level 10, m at level 100, k at level 200) : eff_scope.

End Eff.

(** ** The browser: local storage and the parts of the page the scripts
    touch *)
Module Browser.
Import JS.

(** [localStorage]: string keys to string values, with the room the
    browser grants ([None]: no limit), counted in characters of keys and
    values. *)
Record storage := {
  entries : gmap string string;
  quota : option nat
}.

Definition used (m : gmap string string) : nat :=
  map_fold (fun k v acc => (String.length k + String.length v + acc)%nat)
    0%nat m.

(** [localStorage.getItem(key)]; [None] is [null]. *)
Definition getItem (key : string) (s : storage) : option string :=
  entries s !! key.

(** [localStorage.setItem(key, text)] *)
Definition setItem (key text : string) (s : storage) : result storage :=
  let m := <[key := text]> (entries s) in
  match quota s with
  | Some q =>
      if (used m <=? q)%nat then Ok {| entries := m; quota := quota s |}
      else Throw QuotaExceededError
  | None => Ok {| entries := m; quota := quota s |}
  end.

Record badge := { text : string; hidden : bool }.

Record page := {
  cart_badge : option badge;      (* the element #cart-badge, if any *)
  cart_modal : option bool;       (* #cart-modal: is it hidden *)
  body_overflow : string;         (* document.body.style.overflow *)
  notification : option string;   (* the .notification element's text *)
  alerts : list string;           (* messages shown by alert(), oldest first *)
  console : list string           (* console.error labels, oldest first *)
}.

End Browser.

(** ** cart.js *)
Module Cart.
Import JS Eff Browser.

(** The [ShoppingCart] instance together with the browser it acts on.
    [cart] is the array held in [this.cart]. *)
Record state := {
  cart : list value;
  store : storage;
  view : page
}.

Definition storageKey : string := "pz-emporium-cart".

Local Open Scope eff_scope.

Definition set_cart (c : list value) (st : state) : state :=
  {| cart := c; store := store st; view := view st |}.
Definition set_store (s : storage) (st : state) : state :=
  {| cart := cart st; store := s; view := view st |}.
Definition set_view (p : page) (st : state) : state :=
  {| cart := cart st; store := store st; view := p |}.

Definition log_error (label : string) (p : page) : page :=
  {| cart_badge := cart_badge p; cart_modal := cart_modal p;
     body_overflow := body_overflow p; notification := notification p;
     alerts := alerts p; console := console p ++ [label] |}.

Definition console_error (label : string) : M state unit :=
  modify (fun st => set_view (log_error label (view st)) st).

(** [loadCart()] *)
Definition loadCart : M state value :=
  catch
    (do cartData <- gets (fun st => getItem storageKey (store st));
     match cartData with
     | Some text =>
         if truthy (VStr text) then lift (JSON.parse text)
         else ret (VArr [])
     | None => ret (VArr [])
     end)
    (fun _ => run console_error "Error loading cart:"; ret (VArr [])).

(** [saveCart()]; the text of an array is never [undefined]. *)
Definition saveCart : M state unit :=
  catch
    (do text <-
       gets (fun st =>
               default "undefined" (JSON.stringify (VArr (cart st))));
     do s <- (fun st => (setItem storageKey text (store st), st));
     modify (set_store s))
    (fun _ => console_error "Error saving cart:").

Definition set_badge (b : option badge) (p : page) : page :=
  {| cart_badge := b; cart_modal := cart_modal p;
     body_overflow := body_overflow p; notification := notification p;
     alerts := alerts p; console := console p |}.

Definition set_notification (msg : string) (p : page) : page :=
  {| cart_badge := cart_badge p; cart_modal := cart_modal p;
     body_overflow := body_overflow p; notification := Some msg;
     alerts := alerts p; console := console p |}.

Definition add_alert (msg : string) (p : page) : page :=
  {| cart_badge := cart_badge p; cart_modal := cart_modal p;
     body_overflow := body_overflow p; notification := notification p;
     alerts := alerts p ++ [msg]; console := console p |}.

(** [getItemCount()] *)
Definition getItemCount : M state nat := gets (fun st => length (cart st)).

(** [getTotal()]: [reduce] from the left, starting at the Number 0. *)
Definition total_of (items : list value) : result value :=
  fold_left
    (fun sum item =>
       bind sum (fun s => bind (get item "price") (fun p => plus s p)))
    items (Ok (VNum Num.zero)).

Definition getTotal : M state value := fun st => (total_of (cart st), st).

(** [updateCartDisplay()] *)
Definition updateCartDisplay : M state unit :=
  do count <- getItemCount;
  modify (fun st =>
    match cart_badge (view st) with
    | Some b =>
        let b' :=
          if (0 <? count)%nat
          then {| text := NumText.to_string (Num.of_Z (Z.of_nat count));
                  hidden := false |}
          else {| text := text b; hidden := true |} in
        set_view (set_badge (Some b') (view st)) st
    | None => st
    end).

(** [showNotification(message)]: whatever notification was showing is
    replaced.  The timers that later fade it out are not modelled. *)
Definition showNotification (message : string) : M state unit :=
  modify (fun st => set_view (set_notification message (view st)) st).

(** [addItem(item)]; [now] is what [Date.now()] returns if it is asked. *)
Definition addItem (now : Z) (item : value) : M state unit :=
  do id <- lift (get item "id");
  do name <- lift (get item "name");
  do price0 <- lift (get item "price");
  do price <- lift (parseFloat price0);
  do description <- lift (get item "description");
  do type <- lift (get item "type");
  run modify (fun st =>
    set_cart
      (cart st ++
       [VObj
          [("id",
            or_else id
              (VStr ("item-" ++ NumText.to_string (Num.of_Z now))));
           ("name", name);
           ("price", VNum price);
           ("description", or_else description (VStr EmptyString));
           ("type", or_else type (VStr "product"))]])
      st);
  run saveCart;
  run updateCartDisplay;
  do name' <- lift (bind (get item "name") to_string);
  showNotification (name' ++ " added to cart!").

(** [removeItem(index)] for an integer [index]. *)
Definition removeItem (index : Z) : M state unit :=
  do len <- gets (fun st => length (cart st));
  if (0 <=? index) && (index <? Z.of_nat len) then
    do removedItem <-
      gets (fun st => default VUndefined (cart st !! Z.to_nat index));
    run modify (fun st => set_cart (delete (Z.to_nat index) (cart st)) st);
    run saveCart;
    run updateCartDisplay;
    do name <- lift (bind (get removedItem "name") to_string);
    showNotification (name ++ " removed from cart")
  else ret tt.

(** [clearCart()] *)
Definition clearCart : M state unit :=
  run modify (set_cart []);
  run saveCart;
  run updateCartDisplay;
  showNotification "Cart cleared".

(** [closeCart()] *)
Definition closeCart : M state unit :=
  modify (fun st =>
    match cart_modal (view st) with
    | Some _ =>
        set_view
          {| cart_badge := cart_badge (view st); cart_modal := Some true;
             body_overflow := EmptyString;
             notification := notification (view st);
             alerts := alerts (view st); console := console (view st) |}
          st
    | None => st
    end).

Definition alert (msg : string) : M state unit :=
  modify (fun st => set_view (add_alert msg (view st)) st).

Definition nl : string := String (ascii_of_N 10) EmptyString.

(** [n.toFixed(2)] on the result of [getTotal()]: a string has no such
    method. *)
Definition toFixed2 (v : value) : result string :=
  match v with
  | VNum n => Ok (NumText.to_fixed2 n)
  | _ => Throw TypeError
  end.

Definition order_message (total : string) : string :=
  "Thank you for your order!" ++ nl ++ nl ++ "Total: $" ++ total ++ nl
  ++ nl ++ "This is a demo - no actual payment will be processed.".

(** [checkout()] *)
Definition checkout : M state unit :=
  do count <- getItemCount;
  if (count =? 0)%nat then alert "Your cart is empty!"
  else
    do total <- getTotal;
    do shown <- lift (toFixed2 total);
    run alert (order_message shown);
    run clearCart;
    closeCart.

(** [addToCart(name, price, description)] *)
Definition addToCart (now : Z) (name price description : value)
  : M state unit :=
  addItem now
    (VObj [("name", name); ("price", price); ("description", description)]).

(** [new ShoppingCart()] on a page whose store holds an array under the
    cart key, or nothing usable. *)
Definition construct (s : storage) (p : page) : option state :=
  let st0 := {| cart := []; store := s; view := p |} in
  match loadCart st0 with
  | (Ok (VArr items), st1) =>
      Some (snd (updateCartDisplay (set_cart items st1)))
  | _ => None
  end.

End Cart.

(** ** js/data-loader.js *)
Module Loader.
Import JS Eff.

(** What [fetch] resolves to. *)
Record response := { ok : bool; body : string }.

(** The [DataLoader] instance and its surroundings: the network (a URL
    that cannot be fetched maps to [None]), the clock, the requests made
    so far, the console and [window]. *)
Record state := {
  cache : gmap string value;
  content : value;
  network : string -> option response;
  now : Z;
  requests : list string;
  console : list string;
  window : option value      (* [window.siteContent], if there is a window *)
}.

Local Open Scope eff_scope.

Definition set_cache (c : gmap string value) (st : state) : state :=
  {| cache := c; content := content st; network := network st;
     now := now st; requests := requests st; console := console st;
     window := window st |}.
Definition set_content (v : value) (st : state) : state :=
  {| cache := cache st; content := v; network := network st;
     now := now st; requests := requests st; console := console st;
     window := window st |}.
Definition set_window (w : option value) (st : state) : state :=
  {| cache := cache st; content := content st; network := network st;
     now := now st; requests := requests st; console := console st;
     window := w |}.

(** [new DataLoader()] *)
Definition construct (net : string -> option response) (t : Z)
    (w : option value) : state :=
  {| cache := ∅; content := VNull; network := net; now := t;
     requests := []; console := []; window := w |}.

(** [await fetch(url, { cache: 'no-store' })]: the request is recorded;
    an unreachable resource rejects. *)
Definition fetch (url : string) : M state response :=
  fun st =>
    let st' :=
      {| cache := cache st; content := content st; network := network st;
         now := now st; requests := requests st ++ [url];
         console := console st; window := window st |} in
    match network st url with
    | Some r => (Ok r, st')
    | None => (Throw TypeError, st')
    end.

Definition console_error (label : string) : M state unit :=
  modify (fun st =>
    {| cache := cache st; content := content st; network := network st;
       now := now st; requests := requests st;
       console := console st ++ [label]; window := window st |}).

Definition useCache : bool := false.

Definition base : string := "../CrazeeIvan's PZ Emporium/shared-data/".

(** [loadJSON(filename)] *)
Definition loadJSON (filename : string) : M state value :=
  do cached <- gets (fun st => cache st !! filename);
  if useCache && truthy (default VUndefined cached)
  then ret (default VUndefined cached)
  else
    catch
      (do t <- gets now;
       let timestamp :=
         if useCache then EmptyString
         else ("?t=" ++ NumText.to_string (Num.of_Z t))%string in
       do response <- fetch (base ++ filename ++ timestamp)%string;
       run (if ok response then ret tt
            else lift (Throw (Error ("Failed to load " ++ filename)%string)));
       do data <- lift (JSON.parse (body response));
       run (if useCache
            then modify (fun st =>
                           set_cache (<[filename := data]> (cache st)) st)
            else ret tt);
       ret data)
      (fun _ =>
         run console_error ("Error loading " ++ filename ++ ":")%string;
         ret (if String.eqb filename "content.json"
              then VObj [] else VArr [])).

(** [loadContent()] *)
Definition loadContent : M state value :=
  do current <- gets content;
  run (if negb (truthy current)
       then do v <- loadJSON "content.json"; modify (set_content v)
       else ret tt);
  run modify (fun st =>
        match window st with
        | Some _ => set_window (Some (content st)) st
        | None => st
        end);
  gets content.

(** [loadMods()], [loadTools()], [loadTips()] *)
Definition loadMods : M state value := loadJSON "mods.json".
Definition loadTools : M state value := loadJSON "tools.json".
Definition loadTips : M state value := loadJSON "tips.json".

End Loader.

(** ** Strings cut at a separator *)
Module Str.

(** [s.split(sep)] for a separator of one character: the pieces between
    its occurrences, at least one. *)
Fixpoint split (sep : ascii) (s : string) : list string :=
  match s with
  | EmptyString => [EmptyString]
  | String c s' =>
      if decide (c = sep) then EmptyString :: split sep s'
      else
        match split sep s' with
        | piece :: pieces => String c piece :: pieces
        | [] => [String c EmptyString]
        end
  end.

End Str.

(** ** cart.js: the cart modal *)
Module CartView.
Import JS Eff Browser Cart.
Local Open Scope eff_scope.
Local Open Scope string_scope.

(** An element made by [document.createElement]: its class and the markup
    assigned to it. *)
Record element := { className : string; innerHTML : string }.

(** [#cart-total]: whether it carries the class [hidden], and the markup
    last assigned to it. *)
Record total_box := { total_hidden : bool; total_markup : string }.

(** The elements [renderCartModal] looks up, each one absent ([None]) or
    present: the children of [#cart-items], the box [#cart-total], and
    whether [#empty-cart] carries the class [hidden]. *)
Record modal := {
  cart_items : option (list element);
  cart_total : option total_box;
  empty_cart : option bool
}.

(** The cart with the modal of its page. *)
Record shop := { this : state; dialog : modal }.

Definition set_dialog (d : modal) (s : shop) : shop :=
  {| this := this s; dialog := d |}.

Definition with_items (l : list element) (d : modal) : modal :=
  {| cart_items := Some l; cart_total := cart_total d;
     empty_cart := empty_cart d |}.
Definition with_total (b : total_box) (d : modal) : modal :=
  {| cart_items := cart_items d; cart_total := Some b;
     empty_cart := empty_cart d |}.
Definition with_empty (h : bool) (d : modal) : modal :=
  {| cart_items := cart_items d; cart_total := cart_total d;
     empty_cart := Some h |}.

Definition q : string := String JSON.dquote EmptyString.

(** The template of a row, between its back quotes. *)
Definition row_markup (name description price index : string) : string :=
  nl ++ "        <div class=" ++ q ++ "cart-item-info" ++ q ++ ">" ++ nl ++
  "          <h3>" ++ name ++ "</h3>" ++ nl ++ "          <p>" ++
  description ++ "</p>" ++ nl ++ "        </div>" ++ nl ++
  "        <div style=" ++ q ++
  "display: flex; align-items: center; gap: 1rem;" ++ q ++ ">" ++ nl ++
  "          <span class=" ++ q ++ "cart-item-price" ++ q ++ ">$" ++ price ++
  "</span>" ++ nl ++ "          <button class=" ++ q ++ "cart-remove" ++ q ++
  " onclick=" ++ q ++ "cart.removeItem(" ++ index ++ ")" ++ q ++
  ">Remove</button>" ++ nl ++ "        </div>" ++ nl ++ "      ".

(** The template of the total line. *)
Definition total_line (total : string) : string :=
  nl ++ "        <span>Total:</span>" ++ nl ++ "        <span class=" ++ q ++
  "price" ++ q ++ ">$" ++ total ++ "</span>" ++ nl ++ "      ".

(** [if (emptyCart) emptyCart.classList.add('hidden')], or [remove] for
    [h = false]. *)
Definition hide_empty (h : bool) : M shop unit :=
  modify (fun s =>
    match empty_cart (dialog s) with
    | Some _ => set_dialog (with_empty h (dialog s)) s
    | None => s
    end).

(** [if (cartTotal) cartTotal.classList.add('hidden')], or [remove]. *)
Definition hide_total (h : bool) : M shop unit :=
  modify (fun s =>
    match cart_total (dialog s) with
    | Some b =>
        set_dialog
          (with_total
             {| total_hidden := h; total_markup := total_markup b |}
             (dialog s)) s
    | None => s
    end).

(** [cartItemsContainer.appendChild(el)] *)
Definition appendChild (el : element) : M shop unit :=
  modify (fun s =>
    match cart_items (dialog s) with
    | Some l => set_dialog (with_items (l ++ [el]) (dialog s)) s
    | None => s
    end).

(** The element the [forEach] callback builds for [item] at [index]; the
    template reads the name, the description and the price in this
    order. *)
Definition cart_row (item : value) (index : nat) : result element :=
  bind (bind (get item "name") to_string) (fun name =>
  bind (bind (get item "description") to_string) (fun description =>
  bind (bind (get item "price") toFixed2) (fun price =>
    Ok {| className := "cart-item";
          innerHTML :=
            row_markup name description price
              (NumText.to_string (Num.of_Z (Z.of_nat index))) |}))).

(** [l.forEach(f)], counting from [index], on an array without holes that
    [f] leaves alone. *)
Fixpoint forEach {St A} (f : A -> nat -> M St unit) (l : list A)
    (index : nat) : M St unit :=
  match l with
  | [] => ret tt
  | x :: l' => run f x index; forEach f l' (S index)
  end.

(** [renderCartModal()] *)
Definition renderCartModal : M shop unit :=
  do cartItemsContainer <- gets (fun s => cart_items (dialog s));
  match cartItemsContainer with
  | None => ret tt
  | Some _ =>
      run modify (fun s => set_dialog (with_items [] (dialog s)) s);
      do items <- gets (fun s => cart (this s));
      if (length items =? 0)%nat then
        run hide_empty false;
        hide_total true
      else
        run hide_empty true;
        run hide_total false;
        run forEach
          (fun item index =>
             do itemElement <- lift (cart_row item index);
             appendChild itemElement)
          items 0;
        do cartTotal <- gets (fun s => cart_total (dialog s));
        match cartTotal with
        | Some b =>
            do total <- lift (total_of items);
            do shown <- lift (toFixed2 total);
            modify (fun s =>
              set_dialog
                (with_total
                   {| total_hidden := total_hidden b;
                      total_markup := total_line shown |}
                   (dialog s)) s)
        | None => ret tt
        end
  end.

(** [openCart()] *)
Definition openCart : M shop unit :=
  run renderCartModal;
  modify (fun s =>
    match cart_modal (view (this s)) with
    | Some _ =>
        {| this :=
             set_view
               {| cart_badge := cart_badge (view (this s));
                  cart_modal := Some false;
                  body_overflow := "hidden";
                  notification := notification (view (this s));
                  alerts := alerts (view (this s));
                  console := console (view (this s)) |}
               (this s);
           dialog := dialog s |}
    | None => s
    end).

End CartView.

(** ** cart.js: the navigation links *)
Module Nav.
Import JS.
Local Open Scope string_scope.

(** A [.nav-link] element: its [href] attribute, if it has one, and
    whether it carries the class [active]. *)
Record link := { href : option string; active : bool }.

(** [window.location.pathname.split('/').pop() || 'index.html'] *)
Definition currentPage (pathname : string) : string :=
  let popped := default EmptyString (last (Str.split "/" pathname)) in
  if truthy (VStr popped) then popped else "index.html".

Definition equals (s : string) (attribute : option string) : bool :=
  match attribute with
  | Some text => String.eqb text s
  | None => false
  end.

(** [setActiveNav()] on a page at [pathname] *)
Definition setActiveNav (pathname : string) (navLinks : list link)
  : list link :=
  let currentPage := currentPage pathname in
  map
    (fun link =>
       if equals currentPage (href link)
          || String.eqb currentPage EmptyString
             && equals "index.html" (href link)
       then {| href := href link; active := true |}
       else {| href := href link; active := false |})
    navLinks.

End Nav.

(** ** data-loader.js: the content applied to the page *)
Module Site.
Import JS Eff Loader.
Local Open Scope eff_scope.
Local Open Scope string_scope.

Definition ascii_only (s : string) : bool :=
  forallb (fun c => (N_of_ascii c <? 128)%N) (list_ascii_of_string s).

(** An element that carries [data-content]: the path it names, its
    [data-content-attr] if it has one, and the assignments made to it so
    far, oldest first. *)
Inductive write :=
| SetText (text : string)                  (* element.textContent = text *)
| SetHtml (markup : string)                (* element.innerHTML = markup *)
| SetAttribute (name text : string).       (* element.setAttribute(name, text) *)

Record element := {
  data_content : string;
  data_content_attr : option string;
  writes : list write
}.

(** The loader with the parts of the page its script touches: the
    elements that carry [data-content], in document order, and the markup
    of the three containers, each absent ([None]) or present. *)
Record site := {
  loader : Loader.state;
  marked : list element;
  mods_container : option string;
  tools_container : option string;
  tips_container : option string
}.

Definition set_loader (l : Loader.state) (s : site) : site :=
  {| loader := l; marked := marked s; mods_container := mods_container s;
     tools_container := tools_container s;
     tips_container := tips_container s |}.
Definition set_marked (es : list element) (s : site) : site :=
  {| loader := loader s; marked := es; mods_container := mods_container s;
     tools_container := tools_container s;
     tips_container := tips_container s |}.
Definition set_mods (c : option string) (s : site) : site :=
  {| loader := loader s; marked := marked s; mods_container := c;
     tools_container := tools_container s;
     tips_container := tips_container s |}.
Definition set_tools (c : option string) (s : site) : site :=
  {| loader := loader s; marked := marked s;
     mods_container := mods_container s; tools_container := c;
     tips_container := tips_container s |}.
Definition set_tips (c : option string) (s : site) : site :=
  {| loader := loader s; marked := marked s;
     mods_container := mods_container s;
     tools_container := tools_container s; tips_container := c |}.

(** A call of the loader, made from the page. *)
Definition on_loader {A} (m : M Loader.state A) : M site A :=
  fun s => let '(r, l) := m (loader s) in (r, set_loader l s).

Section Engine.

(** What the scripts leave to the browser: [builtin v key] tells whether
    the prototype chain of [v] has a member named [key] ([toString],
    [constructor], [map], ...), and [valid_name] which attribute names
    [setAttribute] takes. *)
Variable builtin : value -> string -> bool.
Variable valid_name : string -> bool.

(** [key] is no own property of [v]: the value is [undefined] unless a
    prototype supplies a member, which is no data value ([None]). *)
Definition inherited (v : value) (key : string) : option value :=
  if builtin v key then None else Some VUndefined.

(** [current?.[key]].  [None]: the result is outside the values described
    here, a built-in member or a property of a string that is not plain
    ASCII. *)
Definition member (current : value) (key : string) : option value :=
  match current with
  | VUndefined | VNull => Some VUndefined
  | VBool _ | VNum _ => inherited current key
  | VStr s =>
      match JSON.index_of key with
      | Some i =>
          if ascii_only s then
            Some (match list_ascii_of_string s !! N.to_nat i with
                  | Some c => VStr (String c EmptyString)
                  | None => VUndefined
                  end)
          else None
      | None =>
          if String.eqb key "length" then
            if ascii_only s
            then Some (VNum (Num.of_Z (Z.of_nat (String.length s))))
            else None
          else inherited current key
      end
  | VArr elems =>
      match JSON.index_of key with
      | Some i => Some (default VUndefined (elems !! N.to_nat i))
      | None =>
          if String.eqb key "length"
          then Some (VNum (Num.of_Z (Z.of_nat (length elems))))
          else inherited current key
      end
  | VObj props =>
      match lookup_prop key props with
      | Some v => Some v
      | None => inherited current key
      end
  end.

(** [getNestedValue(obj, path)] *)
Definition getNestedValue (obj : value) (path : string) : option value :=
  fold_left (fun current key => current ≫= (fun c => member c key))
    (Str.split "." path) (Some obj).

(** The callback of [applyContent] on one element: [None] where the value
    found is outside the values described here. *)
Definition apply_to (content : value) (e : element)
  : option (result element) :=
  match getNestedValue content (data_content e) with
  | None => None
  | Some VUndefined | Some VNull => Some (Ok e)
  | Some value =>
      Some
        (bind (to_string value) (fun text =>
           let wrote w :=
             {| data_content := data_content e;
                data_content_attr := data_content_attr e;
                writes := writes e ++ [w] |} in
           match data_content_attr e with
           | Some attr =>
               if truthy (VStr attr) then
                 if String.eqb attr "text" then Ok (wrote (SetText text))
                 else if String.eqb attr "html"
                 then Ok (wrote (SetHtml text))
                 else if valid_name attr
                 then Ok (wrote (SetAttribute attr text))
                 else Throw (Error "InvalidCharacterError")
               else Ok (wrote (SetText text))
           | None => Ok (wrote (SetText text))
           end))
  end.

(** The [forEach] of [applyContent]: it stops at the first element whose
    callback throws. *)
Fixpoint apply_all (content : value) (es : list element)
  : option (result unit * list element) :=
  match es with
  | [] => Some (Ok tt, [])
  | e :: es' =>
      match apply_to content e with
      | None => None
      | Some (Throw err) => Some (Throw err, e :: es')
      | Some (Ok e') =>
          match apply_all content es' with
          | None => None
          | Some (r, es'') => Some (r, e' :: es'')
          end
      end
  end.

(** [applyContent()] *)
Definition applyContent (s : site) : option (result unit * site) :=
  match on_loader loadContent s with
  | (Throw err, s') => Some (Throw err, s')
  | (Ok content, s') =>
      match apply_all content (marked s') with
      | None => None
      | Some (r, es) => Some (r, set_marked es s')
      end
  end.

End Engine.

(** [l.map(f)] on the values an array holds, up to the first call that
    throws. *)
Fixpoint map_result {A B} (f : A -> result B) (l : list A)
  : result (list B) :=
  match l with
  | [] => Ok []
  | x :: l' =>
      bind (f x) (fun y => bind (map_result f l') (fun ys => Ok (y :: ys)))
  end.

(** [v.map(f).join('')]: only an array has a [map] to call. *)
Definition map_join (f : value -> result string) (v : value)
  : result string :=
  match v with
  | VArr elems =>
      bind (map_result f elems) (fun cards => Ok (join EmptyString cards))
  | _ => Throw TypeError
  end.

Definition q : string := String JSON.dquote EmptyString.
Definition nl : string := String (ascii_of_N 10) EmptyString.

(** The template of [renderMods]. *)
Definition mod_markup (name description downloads rating : string)
  : string :=
  nl ++ "    <article class=" ++ q ++ "card" ++ q ++ ">" ++ nl ++
  "      <h2 class=" ++ q ++ "card-title" ++ q ++ ">" ++ name ++ "</h2>" ++
  nl ++ "      <p class=" ++ q ++ "card-description" ++ q ++ ">" ++
  description ++ "</p>" ++ nl ++ "      <div class=" ++ q ++ "card-footer" ++
  q ++ ">" ++ nl ++ "        <span class=" ++ q ++ "card-meta" ++ q ++
  ">Downloads: " ++ downloads ++ "</span>" ++ nl ++ "        <span class=" ++
  q ++ "card-meta" ++ q ++ ">Rating: " ++ rating ++ "/5</span>" ++ nl ++
  "      </div>" ++ nl ++ "    </article>" ++ nl ++ "  ".

Definition mod_card (entry : value) : result string :=
  bind (bind (get entry "name") to_string) (fun name =>
  bind (bind (get entry "description") to_string) (fun description =>
  bind (bind (get entry "downloads") to_string) (fun downloads =>
  bind (bind (get entry "rating") to_string) (fun rating =>
    Ok (mod_markup name description downloads rating))))).

(** [renderMods()] *)
Definition renderMods : M site unit :=
  do container <- gets mods_container;
  match container with
  | None => ret tt
  | Some _ =>
      do mods <- on_loader loadMods;
      do markup <- lift (map_join mod_card mods);
      modify (set_mods (Some markup))
  end.

(** The template of [renderTools]. *)
Definition tool_markup (name type description : string) : string :=
  nl ++ "    <article class=" ++ q ++ "card" ++ q ++ ">" ++ nl ++
  "      <div style=" ++ q ++
  "display: flex; justify-content: space-between; align-items: " ++
  "start; margin-bottom: 1rem;" ++ q ++ ">" ++ nl ++ "        <h2 class=" ++
  q ++ "card-title" ++ q ++ " style=" ++ q ++ "margin: 0;" ++ q ++ ">" ++
  name ++ "</h2>" ++ nl ++ "        <span class=" ++ q ++ "badge" ++ q ++
  ">" ++ type ++ "</span>" ++ nl ++ "      </div>" ++ nl ++
  "      <p class=" ++ q ++ "card-description" ++ q ++ ">" ++ description ++
  "</p>" ++ nl ++ "    </article>" ++ nl ++ "  ".

Definition tool_card (tool : value) : result string :=
  bind (bind (get tool "name") to_string) (fun name =>
  bind (bind (get tool "type") to_string) (fun type =>
  bind (bind (get tool "description") to_string) (fun description =>
    Ok (tool_markup name type description)))).

(** [renderTools()] *)
Definition renderTools : M site unit :=
  do container <- gets tools_container;
  match container with
  | None => ret tt
  | Some _ =>
      do tools <- on_loader loadTools;
      do markup <- lift (map_join tool_card tools);
      modify (set_tools (Some markup))
  end.

(** The template of [renderTips]; it reads the price twice. *)
Definition tip_markup
    (name description pricePrefix price safeName price2 safeDescription
       addButtonText : string) : string :=
  nl ++ "    <article class=" ++ q ++ "card" ++ q ++ ">" ++ nl ++
  "      <h3 class=" ++ q ++ "card-title" ++ q ++ ">" ++ name ++ "</h3>" ++
  nl ++ "      <p class=" ++ q ++ "card-description" ++ q ++ ">" ++
  description ++ "</p>" ++ nl ++ "      <div class=" ++ q ++ "card-footer" ++
  q ++ ">" ++ nl ++ "        <span class=" ++ q ++ "price" ++ q ++ ">" ++
  pricePrefix ++ price ++ "</span>" ++ nl ++ "        <button" ++ nl ++
  "          class=" ++ q ++ "btn btn-primary" ++ q ++ nl ++
  "          onclick=" ++ q ++ "addToCart(" ++ safeName ++ ", " ++ price2 ++
  ", " ++ safeDescription ++ ")" ++ q ++ nl ++ "        >" ++ nl ++
  "          " ++ addButtonText ++ nl ++ "        </button>" ++ nl ++
  "      </div>" ++ nl ++ "    </article>" ++ nl ++ "  ".

(** [JSON.stringify(v)] as a template prints it: [undefined], when there
    is no text, reads so. *)
Definition stringified (v : value) : string :=
  default "undefined" (JSON.stringify v).

Definition tip_card (pricePrefix addButtonText tip : value)
  : result string :=
  bind (get tip "name") (fun name0 =>
  let safeName := stringified name0 in
  bind (get tip "description") (fun description0 =>
  let safeDescription := stringified description0 in
  bind (bind (get tip "name") to_string) (fun name =>
  bind (bind (get tip "description") to_string) (fun description =>
  bind (to_string pricePrefix) (fun prefix =>
  bind (bind (get tip "price") to_string) (fun price =>
  bind (bind (get tip "price") to_string) (fun price2 =>
  bind (to_string addButtonText) (fun button =>
    Ok (tip_markup name description prefix price safeName price2
          safeDescription button))))))))).

(** [renderTips()] *)
Definition renderTips : M site unit :=
  do container <- gets tips_container;
  match container with
  | None => ret tt
  | Some _ =>
      do content <- on_loader loadContent;
      do tips <- on_loader loadTips;
      do section <- lift (get content "cart");
      let cart := or_else section (VObj []) in
      do prefix <- lift (get cart "pricePrefix");
      let pricePrefix := or_else prefix (VStr "$") in
      do button <- lift (get cart "addButton");
      let addButtonText := or_else button (VStr "Add to Cart") in
      do markup <- lift (map_join (tip_card pricePrefix addButtonText) tips);
      modify (set_tips (Some markup))
  end.

(** The [DOMContentLoaded] handler: the four steps in turn, each awaited,
    so that one that throws ends it. *)
Definition and_then (m : site -> option (result unit * site))
    (k : M site unit) : site -> option (result unit * site) :=
  fun s =>
    match m s with
    | Some (Ok _, s') => Some (k s')
    | other => other
    end.

Definition loaded (builtin : value -> string -> bool)
    (valid_name : string -> bool) : site -> option (result unit * site) :=
  and_then
    (and_then (and_then (applyContent builtin valid_name) renderMods)
       renderTools)
    renderTips.

End Site.

(** * The vocabulary of the properties *)

(** ** What a call leaves alone *)
Section FrameTerms.
Import JS Eff.
Context {S B : Type} (f : S -> B).

(** A call that leaves the part [f] of the state as it was, whether it
    returns or throws. *)
Definition keeps {A} (m : M S A) : Prop :=
  forall st, f (snd (m st)) = f st.

End FrameTerms.

(** ** Terms for the cart: frames, runs of operations, totals, fixtures,
    stored text *)
Section CartTerms.
Import JS Eff Browser Cart.

Definition shown (st : state) : list string := alerts (view st).

Definition in_range (index : Z) (items : list value) : bool :=
  (0 <=? index) && (index <? Z.of_nat (length items)).

(** The five reads and the one conversion that [addItem] makes before it
    touches the list. *)
Definition entry_of (now : Z) (item : value) : result value :=
  bind (get item "id") (fun id =>
  bind (get item "name") (fun name =>
  bind (get item "price") (fun price0 =>
  bind (parseFloat price0) (fun price =>
  bind (get item "description") (fun description =>
  bind (get item "type") (fun type =>
    Ok (VObj
          [("id",
            or_else id (VStr ("item-" ++ NumText.to_string (Num.of_Z now))));
           ("name", name);
           ("price", VNum price);
           ("description", or_else description (VStr EmptyString));
           ("type", or_else type (VStr "product"))]))))))).

Inductive op :=
| Add (now : Z) (item : value)
| Remove (index : Z)
| Clear.

Definition step (st : state) (o : op) : state :=
  match o with
  | Add now item => snd (addItem now item st)
  | Remove index => snd (removeItem index st)
  | Clear => snd (clearCart st)
  end.

Definition run_ops (ops : list op) (st : state) : state :=
  fold_left step ops st.

(** An [addItem] call gets as far as its [push]: the item is neither
    [null] nor [undefined] and its price has a string form. *)
Definition accepted (item : value) : bool :=
  match item with
  | VUndefined | VNull => false
  | _ =>
      match bind (get item "price") parseFloat with
      | Ok _ => true
      | Throw _ => false
      end
  end.

(** The bookkeeping of the claim: adds performed, entries taken out by
    in-range removes, entries dropped by clears, and the running count. *)
Record tally := {
  adds : nat;
  removed : nat;
  cleared : nat;
  count : nat
}.

Definition tally_step (t : tally) (o : op) : tally :=
  match o with
  | Add _ item =>
      if accepted item
      then {| adds := S (adds t); removed := removed t;
              cleared := cleared t; count := S (count t) |}
      else t
  | Remove index =>
      if (0 <=? index) && (index <? Z.of_nat (count t))
      then {| adds := adds t; removed := S (removed t);
              cleared := cleared t; count := (count t - 1)%nat |}
      else t
  | Clear =>
      {| adds := adds t; removed := removed t;
         cleared := (cleared t + count t)%nat; count := 0%nat |}
  end.

Definition tally_of (ops : list op) (start : nat) : tally :=
  fold_left tally_step ops
    {| adds := 0; removed := 0; cleared := 0; count := start |}.

(** A primitive that [+] reads as a Number: anything but a string. *)
Definition numeric (v : value) : bool :=
  match v with
  | VNum _ | VNull | VBool _ | VUndefined => true
  | _ => false
  end.

(** The item's [price] field, read as a Number, is [p].  An entry written
    by [addItem] holds a Number there; one that was stored with a [NaN]
    price comes back holding [null], which counts as [0]. *)
Definition has_price (item : value) (p : number) : Prop :=
  exists v,
    get item "price" = Ok v /\ numeric v = true /\ prim_to_number v = p.

(** The sum of a list of Numbers, taken from the left from [0]. *)
Definition sum_of (prices : list number) : number :=
  fold_left Num.add prices Num.zero.

(** Fixtures: a page, an empty store and two catalogue items. *)
Definition blank_page : page :=
  {| cart_badge := Some {| text := EmptyString; hidden := true |};
     cart_modal := Some true;
     body_overflow := EmptyString;
     notification := None;
     alerts := [];
     console := [] |}.

Definition empty_store : storage := {| entries := ∅; quota := None |}.

Definition fresh : state :=
  {| cart := []; store := empty_store; view := blank_page |}.

(** [{name: "Skill Recovery", price: 4.99, description: "x"}] *)
Definition skill_recovery : value :=
  VObj [("name", VStr "Skill Recovery");
        ("price", VNum (Num.of_decimal false 499 (-2)));
        ("description", VStr "x")].

(** [{name: "Map Pack", price: "3.25"}] *)
Definition map_pack : value :=
  VObj [("name", VStr "Map Pack"); ("price", VStr "3.25")].

Definition two_items : state :=
  run_ops [Add 1730000000000 skill_recovery; Add 1730000000001 map_pack]
    fresh.

(** [{name: "Refund", price: -5}] *)
Definition refund : value :=
  VObj [("name", VStr "Refund"); ("price", VNum (Num.of_Z (-5)))].

(** A store that holds [text] under the cart key and nothing else. *)
Definition store_with (text : string) : storage :=
  {| entries := {[ storageKey := text ]}; quota := None |}.

End CartTerms.

(** ** Terms for decimal literals *)
Section LiteralTerms.
Import Literal.

(** A character that could carry a decimal literal on. *)
Definition continues (c : ascii) : bool :=
  Digits.is_digit c || bool_decide (c = "."%char) || is_e c.

(** Text after which a literal cannot go on: the end, or a character
    that is no digit, point or exponent mark. *)
Definition closed (rest : list ascii) : Prop :=
  match rest with
  | [] => True
  | c :: _ => continues c = false
  end.

End LiteralTerms.

(** ** Terms for JSON text read back *)
Section TextTerms.
Import JS JSON.

(** A finite Number whose text JSON reads back as the same Number. *)
Definition number_reads_back (n : number) : bool :=
  Num.is_finite n
  && match parse_number (NumText.to_chars n) with
     | Some (VNum m, []) => bool_decide (m = n)
     | _ => false
     end.

(** Property names that keep their place when an object is rebuilt:
    no name twice, none an array index. *)
Fixpoint plain_keys (ks : list string) : bool :=
  match ks with
  | [] => true
  | k :: ks' =>
      negb (existsb (String.eqb k) ks')
      && negb (bool_decide (is_Some (index_of k)))
      && plain_keys ks'
  end.

(** Values that JSON text holds as they are. *)
Fixpoint storable (v : value) : bool :=
  match v with
  | VUndefined => false
  | VNull | VBool _ | VStr _ => true
  | VNum n => number_reads_back n
  | VArr elems => forallb storable elems
  | VObj props =>
      forallb (fun kv => let '(_, x) := kv in storable x) props
      && plain_keys (map fst props)
  end.

(** The calls [parse_value] makes on the text of a value. *)
Fixpoint cost (v : value) : nat :=
  match v with
  | VArr elems => S (list_sum (map (fun x => S (cost x)) elems))
  | VObj props =>
      S (list_sum (map (fun kv => let '(_, x) := kv in S (cost x)) props))
  | _ => 1
  end.

Definition text_of (v : value) : list ascii :=
  default (list_ascii_of_string "null") (serialize v).

Definition member_text (kv : string * value) : list ascii :=
  quote kv.1 ++ ":"%char :: text_of kv.2.

(** The character a value's text starts with. *)
Definition opens_value (c : ascii) : bool :=
  Digits.is_digit c
  || bool_decide (c = "-"%char) || bool_decide (c = "n"%char)
  || bool_decide (c = "t"%char) || bool_decide (c = "f"%char)
  || bool_decide (c = dquote) || bool_decide (c = "["%char)
  || bool_decide (c = "{"%char).

(** What may follow a value inside JSON text. *)
Definition delimited (rest : list ascii) : Prop :=
  match rest with
  | [] => True
  | c :: _ => c = ","%char \/ c = "]"%char \/ c = "}"%char
  end.

(** The text of a storable value, read with enough fuel, gives the value
    back and stops where the text stops. *)
Definition reads_back (v : value) : Prop :=
  storable v = true ->
  forall fuel rest,
    (cost v <= fuel)%nat ->
    delimited rest ->
    parse_value fuel (text_of v ++ rest) = Some (v, rest).

(** A parse that succeeds with some fuel consumes text, and succeeds
    with any fuel of at least twice the length consumed. *)
Definition steady {A} (parser : nat -> list ascii -> option (A * list ascii))
    (f : nat) : Prop :=
  forall l v r,
    parser f l = Some (v, r) ->
    (length r < length l)%nat
    /\ forall g, (2 * (length l - length r) <= g)%nat ->
                 parser g l = Some (v, r).

End TextTerms.

(** ** Terms for saving and loading *)
Section RoundTripTerms.
Import JS Eff Browser Cart.

(** The text [saveCart] writes for a list of items. *)
Definition cart_text (items : list value) : string :=
  default "undefined" (JSON.stringify (VArr items)).

(** The store has room for [text] under the cart key. *)
Definition fits (text : string) (s : storage) : Prop :=
  match quota s with
  | Some q => (used (<[storageKey := text]> (entries s)) <= q)%nat
  | None => True
  end.

(** [{name: "Mystery", price: "free"}] *)
Definition mystery : value :=
  VObj [("name", VStr "Mystery"); ("price", VStr "free")].

End RoundTripTerms.

(** ** Terms for the content loader *)
Section LoaderTerms.
Import JS Eff Loader.

(** The address [loadJSON] asks for when the clock reads [t]. *)
Definition url_for (t : Z) (filename : string) : string :=
  (base ++ filename ++ "?t=" ++ NumText.to_string (Num.of_Z t))%string.

(** The value [loadJSON] falls back to. *)
Definition fallback (filename : string) : value :=
  if String.eqb filename "content.json" then VObj [] else VArr [].

(** A fetch that does not yield a document: the resource is unreachable,
    the response is not [ok], or its body is not JSON. *)
Definition fails (st : state) (filename : string) : Prop :=
  match network st (url_for (now st) filename) with
  | None => True
  | Some r => ok r = false \/ exists e, JSON.parse (body r) = Throw e
  end.

Definition note_request (url : string) (st : state) : state :=
  {| cache := cache st; content := content st; network := network st;
     now := now st; requests := requests st ++ [url];
     console := console st; window := window st |}.

Definition note_error (label : string) (st : state) : state :=
  {| cache := cache st; content := content st; network := network st;
     now := now st; requests := requests st;
     console := console st ++ [label]; window := window st |}.

(** A network that serves nothing but a broken [mods.json] and a
    [content.json] holding a mapping. *)
Definition small_site (url : string) : option response :=
  if String.eqb url (url_for 17 "content.json")
  then Some {| ok := true; body := "{}" |}
  else if String.eqb url (url_for 17 "mods.json")
  then Some {| ok := true; body := "[1," |}
  else None.

Definition started : state := construct small_site 17 (Some VUndefined).

Inductive call := Content | Mods | Tools | Tips.

Definition perform (c : call) : M state value :=
  match c with
  | Content => loadContent
  | Mods => loadMods
  | Tools => loadTools
  | Tips => loadTips
  end.

Definition after_calls (cs : list call) (st : state) : state :=
  fold_left (fun st c => snd (perform c st)) cs st.

Definition fetches (c : call) : nat :=
  match c with Content => 0 | _ => 1 end.

End LoaderTerms.

(** ** Terms for what the cart keeps in step: store, badge, entries *)
Section KeptTerms.
Import JS Eff Browser Cart.

(** The store holds the text of the list in memory under the cart key. *)
Definition store_synced (st : state) : Prop :=
  getItem storageKey (store st) = Some (cart_text (cart st)).

(** The badge, when the page has one, is hidden exactly when the cart is
    empty and otherwise reads the number of items. *)
Definition badge_shows (st : state) : Prop :=
  match cart_badge (view st) with
  | Some b =>
      hidden b = (length (cart st) =? 0)%nat
      /\ ((0 < length (cart st))%nat ->
          text b
          = NumText.to_string (Num.of_Z (Z.of_nat (length (cart st)))))
  | None => True
  end.

(** An entry as [addItem] writes it: the five fields in order, a truthy
    id and type, a Number price, a description that is truthy or the empty
    string. *)
Definition written_entry (e : value) : Prop :=
  exists id name price description type,
    e = VObj [("id", id); ("name", name); ("price", VNum price);
              ("description", description); ("type", type)]
    /\ truthy id = true
    /\ truthy type = true
    /\ (truthy description = true \/ description = VStr EmptyString).

(** What [addItem] does after the [push]. *)
Definition added_notice (item : value) : M state unit :=
  mbind (lift (bind (get item "name") to_string))
    (fun name => showNotification (name ++ " added to cart!")).

(** What [removeItem] does after the [splice]. *)
Definition removed_notice (removedItem : value) : M state unit :=
  mbind (lift (bind (get removedItem "name") to_string))
    (fun name => showNotification (name ++ " removed from cart")).

(** The list is set, saved and the badge refreshed. *)
Definition committed (items : list value) (st : state) : state :=
  snd (updateCartDisplay (snd (saveCart (set_cart items st)))).


End KeptTerms.

(** ** Terms for the cart modal *)
Section ViewTerms.
Import JS Eff Browser Cart CartView.

(** The item can be drawn as a row: its name and its description have
    string forms and its price is a Number. *)
Definition showable (item : value) : Prop :=
  exists name description price,
    bind (get item "name") to_string = Ok name
    /\ bind (get item "description") to_string = Ok description
    /\ get item "price" = Ok (VNum price).

(** The same as a test. *)
Definition drawable (item : value) : bool :=
  match cart_row item 0 with Ok _ => true | Throw _ => false end.

(** The callback of the loop in [renderCartModal]. *)
Definition draw_row (item : value) (index : nat) : M shop unit :=
  mbind (lift (cart_row item index)) appendChild.

(** How the loop over [items] ends when it counts from [index], and the
    rows it has appended by then. *)
Fixpoint rows_until (items : list value) (index : nat)
  : result unit * list element :=
  match items with
  | [] => (Ok tt, [])
  | item :: items' =>
      match cart_row item index with
      | Ok row =>
          let '(r, rows) := rows_until items' (S index) in (r, row :: rows)
      | Throw e => (Throw e, [])
      end
  end.

(** [#empty-cart] and [#cart-total], where the page has them, with the
    class [hidden] set ([h = true]) or taken away. *)
Definition flag_empty (h : bool) (d : modal) : modal :=
  match empty_cart d with Some _ => with_empty h d | None => d end.

Definition flag_total (h : bool) (d : modal) : modal :=
  match cart_total d with
  | Some b =>
      with_total {| total_hidden := h; total_markup := total_markup b |} d
  | None => d
  end.

(** What [renderCartModal] makes of a modal that has its container, for
    the list [items]: how the call ends, and the modal it leaves. *)
Definition rendered (items : list value) (d : modal)
  : result unit * modal :=
  let d0 := with_items [] d in
  if (length items =? 0)%nat then
    (Ok tt, flag_total true (flag_empty false d0))
  else
    let d1 := flag_total false (flag_empty true d0) in
    let d2 := with_items (snd (rows_until items 0)) d1 in
    match fst (rows_until items 0) with
    | Throw e => (Throw e, d2)
    | Ok _ =>
        match cart_total d2 with
        | Some b =>
            match bind (total_of items) toFixed2 with
            | Ok shown =>
                (Ok tt,
                 with_total
                   {| total_hidden := total_hidden b;
                      total_markup := total_line shown |} d2)
            | Throw e => (Throw e, d2)
            end
        | None => (Ok tt, d2)
        end
    end.

(** The value has a string form. *)
Definition has_text (v : result value) : bool :=
  match bind v to_string with Ok _ => true | Throw _ => false end.

(** A call that leaves the cart drawable: an [addItem] that gets as far
    as its [push] is given a name and a description with string forms. *)
Definition presentable (o : op) : bool :=
  match o with
  | Add _ item =>
      negb (accepted item)
      || (has_text (get item "name") && has_text (get item "description"))
  | _ => true
  end.

(** A modal with its three elements, as the page loads it. *)
Definition closed_dialog : modal :=
  {| cart_items := Some [];
     cart_total :=
       Some {| total_hidden := true; total_markup := EmptyString |};
     empty_cart := Some false |}.

(** [{name: "Mystery Box", price: "TBA"}] *)
Definition mystery_box : value :=
  VObj [("name", VStr "Mystery Box"); ("price", VStr "TBA")].

(** The cart after a visit that added the mystery box to an empty cart,
    as the next page load finds it in the store. *)
Definition revisited : state :=
  default fresh
    (construct (store (step fresh (Add 1730000000000 mystery_box)))
       blank_page).

Definition at_modal (st : state) : shop :=
  {| this := st; dialog := closed_dialog |}.

End ViewTerms.

(** ** Terms for the navigation links *)
Section NavTerms.
Import JS Nav.

(** A name without a slash. *)
Definition segment (name : string) : Prop := Str.split "/" name = [name].

(** What [setActiveNav] makes of a link on a page named [page]. *)
Definition marked_for (page : string) (l l' : link) : Prop :=
  href l' = href l /\ (active l' = true <-> href l = Some page).

End NavTerms.

(** ** Terms for the content and the renderers *)
Section SiteTerms.
Import JS Eff Loader Site.

(** Nothing to show: the path led to [undefined] or [null]. *)
Definition nothing (found : option value) : Prop :=
  found = Some VUndefined \/ found = Some VNull.

(** The first key of a path. *)
Definition first_key (path : string) : string :=
  default EmptyString (head (Str.split "." path)).

(** The members every plain object inherits, for the examples. *)
Definition object_members (v : value) (key : string) : bool :=
  match v with
  | VObj _ =>
      bool_decide
        (key ∈ ["constructor"; "hasOwnProperty"; "isPrototypeOf";
                "propertyIsEnumerable"; "toLocaleString"; "toString";
                "valueOf"; "__proto__"; "__defineGetter__";
                "__defineSetter__"; "__lookupGetter__";
                "__lookupSetter__"]%string)
  | _ => false
  end.

(** Attribute names of letters, digits and hyphens, for the examples. *)
Definition simple_name (name : string) : bool :=
  forallb
    (fun c =>
       let n := N_of_ascii c in
       ((97 <=? n) && (n <=? 122) || (48 <=? n) && (n <=? 57)
        || (n =? 45))%N)
    (list_ascii_of_string name).

(** [{"site": {"name": "PZ Emporium", "tags": ["mods", "tools"]},
      "cart": null}] *)
Definition sample_content : value :=
  VObj [("site",
         VObj [("name", VStr "PZ Emporium");
               ("tags", VArr [VStr "mods"; VStr "tools"])]);
        ("cart", VNull)].


(** A network that serves the sample content and nothing else. *)
Definition content_only (url : string) : option response :=
  if String.eqb url (url_for 17 "content.json")
  then Some {| ok := true; body := stringified sample_content |}
  else None.

(** A page with three marked elements and the tips container. *)
Definition sample_page : site :=
  {| loader := construct content_only 17 (Some VUndefined);
     marked :=
       [{| data_content := "site.name"; data_content_attr := None;
           writes := [] |};
        {| data_content := "site.motto"; data_content_attr := Some "title";
           writes := [] |};
        {| data_content := "site.tags.1"; data_content_attr := Some "html";
           writes := [] |}];
     mods_container := None;
     tools_container := None;
     tips_container := Some "<p>Loading</p>" |}.

(** The same page when nothing can be fetched. *)
Definition offline_page : site :=
  set_loader (construct (fun _ => None) 17 (Some VUndefined)) sample_page.

(** The two values [renderTips] reads from the content. *)
Definition tip_words (content : value) : result (value * value) :=
  bind (get content "cart") (fun section =>
  bind (get (or_else section (VObj [])) "pricePrefix") (fun prefix =>
  bind (get (or_else section (VObj [])) "addButton") (fun button =>
    Ok (or_else prefix (VStr "$"), or_else button (VStr "Add to Cart"))))).




(** A page with the three containers whose content has been loaded, on a
    network that [serves]. *)
Definition shop_page (serves : string -> option response) : site :=
  {| loader := set_content (VObj []) (construct serves 17 (Some VUndefined));
     marked := [];
     mods_container := Some "<p>Loading</p>";
     tools_container := Some "<p>Loading</p>";
     tips_container := Some "<p>Loading</p>" |}.

(** A network on which every data file holds a mapping. *)
Definition odd_files (url : string) : option response :=
  if String.eqb url (url_for 17 "content.json") then None
  else Some {| ok := true; body := "{}" |}.

End SiteTerms.

(** * Properties *)

(** ** What a call leaves alone *)
Section Frame.
Import JS Eff.
Context {S B : Type} (f : S -> B).

Lemma keeps_ret A (a : A) : keeps f (ret a).
Proof. by intros st. Qed.

Lemma keeps_lift A (r : result A) : keeps f (lift r).
Proof. by intros st. Qed.

Lemma keeps_gets A (g : S -> A) : keeps f (gets g).
Proof. by intros st. Qed.

Lemma keeps_bind A C (m : M S A) (k : A -> M S C) :
  keeps f m -> (forall a, keeps f (k a)) -> keeps f (mbind m k).
Proof.
  intros Hm Hk st. unfold mbind. specialize (Hm st).
  destruct (m st) as [[a|e] st']; simpl in *; [|done].
  by rewrite Hk.
Qed.

Lemma keeps_catch A (m : M S A) (h : error -> M S A) :
  keeps f m -> (forall e, keeps f (h e)) -> keeps f (catch m h).
Proof.
  intros Hm Hh st. unfold catch. specialize (Hm st).
  destruct (m st) as [[a|e] st']; simpl in *; [done|].
  by rewrite Hh.
Qed.

Lemma keeps_modify (g : S -> S) :
  (forall st, f (g st) = f st) -> keeps f (modify g).
Proof. intros Hg st. apply Hg. Qed.

Lemma keeps_if A (b : bool) (m1 m2 : M S A) :
  keeps f m1 -> keeps f m2 -> keeps f (if b then m1 else m2).
Proof. by destruct b. Qed.

End Frame.

Ltac frame_step :=
  first
    [ apply keeps_bind | apply keeps_catch | apply keeps_ret
    | apply keeps_lift | apply keeps_gets | apply keeps_if
    | apply keeps_modify ].

(** ** How the cart's methods treat the item list and the alerts *)
Section CartFrame.
Import JS Eff Browser Cart.
Local Open Scope eff_scope.

Lemma keeps_cart_saveCart : keeps cart saveCart.
Proof.
  unfold saveCart, console_error.
  repeat (frame_step; intros); try done.
  all: intros st; simpl; by destruct (setItem _ _ _).
Qed.

Lemma keeps_cart_updateCartDisplay : keeps cart updateCartDisplay.
Proof.
  unfold updateCartDisplay, getItemCount.
  repeat (frame_step; intros). by destruct (cart_badge (view st)).
Qed.

Lemma keeps_cart_showNotification msg : keeps cart (showNotification msg).
Proof. by apply keeps_modify. Qed.

Lemma keeps_cart_closeCart : keeps cart closeCart.
Proof. apply keeps_modify. intros st. by destruct (cart_modal (view st)). Qed.

Lemma keeps_shown_saveCart : keeps shown saveCart.
Proof.
  unfold saveCart, console_error.
  repeat (frame_step; intros); try done.
  all: intros st; simpl; by destruct (setItem _ _ _).
Qed.

Lemma keeps_shown_updateCartDisplay : keeps shown updateCartDisplay.
Proof.
  unfold updateCartDisplay, getItemCount.
  repeat (frame_step; intros). by destruct (cart_badge (view st)).
Qed.

Lemma keeps_shown_showNotification msg : keeps shown (showNotification msg).
Proof. by apply keeps_modify. Qed.

Lemma keeps_shown_closeCart : keeps shown closeCart.
Proof. apply keeps_modify. intros st. by destruct (cart_modal (view st)). Qed.

Lemma saveCart_returns st : fst (saveCart st) = Ok tt.
Proof.
  unfold saveCart, catch, mbind, gets, modify, console_error. simpl.
  by destruct (setItem _ _ _).
Qed.

Lemma updateCartDisplay_returns st : fst (updateCartDisplay st) = Ok tt.
Proof. reflexivity. Qed.

(** What follows a change of the list in [addItem], [removeItem] and
    [clearCart]: save, refresh the badge, then the rest. *)
Lemma after_change A (m : M state A) st :
  (run saveCart; run updateCartDisplay; m) st
  = m (snd (updateCartDisplay (snd (saveCart st)))).
Proof.
  unfold mbind at 1. pose proof (saveCart_returns st) as Hs.
  destruct (saveCart st) as [[[]|e] st1]; simpl in Hs; [|done].
  reflexivity.
Qed.

End CartFrame.

(** ** The item list after each method *)
Section CartItems.
Import JS Eff Browser Cart.
Local Open Scope eff_scope.

Lemma removeItem_out_of_range index st :
  in_range index (cart st) = false -> removeItem index st = (Ok tt, st).
Proof.
  intros H. unfold removeItem, mbind, gets. simpl.
  unfold in_range in H. by rewrite H.
Qed.

Lemma removeItem_in_range index st :
  in_range index (cart st) = true ->
  cart (snd (removeItem index st)) = delete (Z.to_nat index) (cart st).
Proof.
  intros H. unfold removeItem. unfold mbind at 1, gets at 1. simpl.
  unfold in_range in H. rewrite H.
  unfold mbind at 1, gets at 1. simpl.
  unfold mbind at 1, modify at 1. simpl.
  rewrite after_change.
  rewrite (keeps_bind cart);
    [| apply keeps_lift | intros; apply keeps_cart_showNotification].
  by rewrite keeps_cart_updateCartDisplay, keeps_cart_saveCart.
Qed.

Lemma clearCart_cart st : cart (snd (clearCart st)) = [].
Proof.
  unfold clearCart. unfold mbind at 1, modify at 1. simpl.
  rewrite after_change.
  by rewrite keeps_cart_showNotification, keeps_cart_updateCartDisplay,
    keeps_cart_saveCart.
Qed.

Lemma addItem_cart now item st :
  cart (snd (addItem now item st))
  = match entry_of now item with
    | Ok entry => cart st ++ [entry]
    | Throw _ => cart st
    end.
Proof.
  unfold addItem, entry_of.
  repeat (unfold mbind at 1, lift at 1;
          match goal with
          | |- context [bind ?r _] => destruct r as [?|?]; simpl; [|done]
          end).
  unfold mbind at 1, modify at 1. simpl.
  rewrite after_change.
  rewrite (keeps_bind cart);
    [| apply keeps_lift | intros; apply keeps_cart_showNotification].
  by rewrite keeps_cart_updateCartDisplay, keeps_cart_saveCart.
Qed.

Lemma entry_of_inv now item entry :
  entry_of now item = Ok entry ->
  exists id name price0 price description type,
    get item "id" = Ok id
    /\ get item "name" = Ok name
    /\ get item "price" = Ok price0
    /\ parseFloat price0 = Ok price
    /\ get item "description" = Ok description
    /\ get item "type" = Ok type
    /\ entry
       = VObj
           [("id",
             or_else id (VStr ("item-" ++ NumText.to_string (Num.of_Z now))));
            ("name", name);
            ("price", VNum price);
            ("description", or_else description (VStr EmptyString));
            ("type", or_else type (VStr "product"))].
Proof.
  unfold entry_of. intros He.
  destruct (get item "id") as [id|] eqn:Hid; [simpl in He|done].
  destruct (get item "name") as [name|] eqn:Hname; [simpl in He|done].
  destruct (get item "price") as [price0|] eqn:Hp0; [simpl in He|done].
  destruct (parseFloat price0) as [price|] eqn:Hp; [simpl in He|done].
  destruct (get item "description") as [d|] eqn:Hd; [simpl in He|done].
  destruct (get item "type") as [t|] eqn:Ht; [simpl in He|done].
  injection He as <-. by eexists id, name, price0, price, d, t.
Qed.

End CartItems.

(** ** Sequences of cart operations *)
Section CartRuns.
Import JS Eff Browser Cart.

Lemma entry_of_accepted now item :
  accepted item = true <-> exists entry, entry_of now item = Ok entry.
Proof.
  unfold accepted, entry_of.
  destruct item as [| |b|n|s|elems|props]; simpl;
    try (split; [done|by intros [? ?]]);
    try (split; [eauto|done]).
  destruct (parseFloat _); simpl; split; eauto; try done.
  by intros [? ?].
Qed.

Lemma step_length st o t :
  count t = length (cart st) ->
  count (tally_step t o) = length (cart (step st o))
  /\ (Z.of_nat (adds (tally_step t o)) - Z.of_nat (removed (tally_step t o))
      - Z.of_nat (cleared (tally_step t o))
      - Z.of_nat (count (tally_step t o))
      = Z.of_nat (adds t) - Z.of_nat (removed t) - Z.of_nat (cleared t)
        - Z.of_nat (count t)).
Proof.
  intros Hc. destruct o as [now item|index|]; simpl.
  - rewrite addItem_cart.
    destruct (accepted item) eqn:Ha.
    + apply (entry_of_accepted now) in Ha as [entry ->]. simpl.
      rewrite length_app. simpl. lia.
    + destruct (entry_of now item) as [entry|e] eqn:He; [|done].
      assert (accepted item = true) by (apply (entry_of_accepted now); eauto).
      congruence.
  - rewrite Hc. fold (in_range index (cart st)).
    destruct (in_range index (cart st)) eqn:Hr.
    + rewrite removeItem_in_range by done. simpl.
      unfold in_range in Hr. rewrite length_delete.
      * lia.
      * apply lookup_lt_is_Some. lia.
    + rewrite removeItem_out_of_range by done. simpl. lia.
  - rewrite clearCart_cart. simpl. lia.
Qed.

Lemma run_ops_tally ops : forall st t,
  count t = length (cart st) ->
  count (fold_left tally_step ops t) = length (cart (run_ops ops st))
  /\ (Z.of_nat (adds (fold_left tally_step ops t))
      - Z.of_nat (removed (fold_left tally_step ops t))
      - Z.of_nat (cleared (fold_left tally_step ops t))
      - Z.of_nat (count (fold_left tally_step ops t))
      = Z.of_nat (adds t) - Z.of_nat (removed t) - Z.of_nat (cleared t)
        - Z.of_nat (count t)).
Proof.
  induction ops as [|o ops IH]; intros st t Hc; simpl; [done|].
  destruct (step_length st o t Hc) as [H1 H2].
  destruct (IH (step st o) (tally_step t o) H1) as [H3 H4].
  split; [done|lia].
Qed.

End CartRuns.

(** ** Totals and checkout *)
Section CartTotals.
Import JS Eff Browser Cart.
Local Open Scope eff_scope.

Lemma number_has_price item p :
  get item "price" = Ok (VNum p) -> has_price item p.
Proof. intros H. by exists (VNum p). Qed.

Lemma total_of_from items : forall prices acc,
  Forall2 has_price items prices ->
  fold_left
    (fun sum item =>
       bind sum (fun s => bind (get item "price") (fun p => plus s p)))
    items (Ok (VNum acc))
  = Ok (VNum (fold_left Num.add prices acc)).
Proof.
  induction items as [|item items IH]; intros prices acc Hp.
  - by inversion Hp.
  - inversion Hp as [|? p ? prices' (v & Hi & Hn & <-) Hrest]; subst.
    simpl. rewrite Hi.
    replace (bind (Ok v) (fun p => plus (VNum acc) p))
      with (Ok (VNum (Num.add acc (prim_to_number v)))
            : result value)
      by (by destruct v).
    by apply IH.
Qed.

Lemma total_of_priced items prices :
  Forall2 has_price items prices ->
  total_of items = Ok (VNum (sum_of prices)).
Proof. apply total_of_from. Qed.

(** Every entry [addItem] writes has a Number price, so a cart built by
    the class from priced entries stays priced. *)
Lemma step_priced st o :
  (exists prices, Forall2 has_price (cart st) prices) ->
  exists prices, Forall2 has_price (cart (step st o)) prices.
Proof.
  intros [prices Hp]. destruct o as [now item|index|]; simpl.
  - rewrite addItem_cart.
    destruct (entry_of now item) as [entry|e] eqn:He; [|eauto].
    apply entry_of_inv in He
      as (id & name & price0 & price & d & t & _ & _ & _ & _ & _ & _ & ->).
    exists (prices ++ [price]). apply Forall2_app; [done|].
    constructor; [by apply number_has_price|constructor].
  - destruct (in_range index (cart st)) eqn:Hr.
    + rewrite removeItem_in_range by done.
      exists (delete (Z.to_nat index) prices). by apply Forall2_delete.
    + rewrite removeItem_out_of_range by done. eauto.
  - rewrite clearCart_cart. exists []. constructor.
Qed.

Lemma run_ops_priced ops : forall st,
  (exists prices, Forall2 has_price (cart st) prices) ->
  exists prices, Forall2 has_price (cart (run_ops ops st)) prices.
Proof.
  induction ops as [|o ops IH]; intros st Hp; [done|].
  simpl. apply IH. by apply step_priced.
Qed.

Lemma clearCart_returns st : fst (clearCart st) = Ok tt.
Proof.
  unfold clearCart. unfold mbind at 1, modify at 1. simpl.
  by rewrite after_change.
Qed.

Lemma keeps_shown_clearCart : keeps shown clearCart.
Proof.
  intros st. unfold clearCart. unfold mbind at 1, modify at 1. simpl.
  rewrite after_change.
  by rewrite keeps_shown_showNotification, keeps_shown_updateCartDisplay,
    keeps_shown_saveCart.
Qed.

Lemma checkout_nonempty st prices :
  cart st <> [] ->
  Forall2 has_price (cart st) prices ->
  checkout st
  = closeCart
      (snd (clearCart
              (set_view
                 (add_alert
                    (order_message (NumText.to_fixed2 (sum_of prices)))
                    (view st))
                 st))).
Proof.
  intros Hne Hp.
  unfold checkout. unfold mbind at 1, getItemCount, gets.
  cbn [fst snd].
  destruct (length (cart st) =? 0)%nat eqn:Hlen.
  { apply Nat.eqb_eq in Hlen. by destruct (cart st). }
  unfold mbind at 1, getTotal. rewrite (total_of_priced _ _ Hp).
  unfold mbind at 1, lift, toFixed2.
  unfold mbind at 1, alert at 1, modify at 1.
  set (st1 := set_view _ st).
  unfold mbind. pose proof (clearCart_returns st1) as Hr.
  by destruct (clearCart st1) as [[[]|e] st2].
Qed.

End CartTotals.

(** ** Claims about the cart's item list *)
Section CartClaims.
Import JS Eff Browser Cart.

(** C5. [removeItem(index)] with [0 <= index < length] takes out exactly
    the entry at that position, the entries before and after it staying
    in order; with any other integer index the call returns without
    changing anything. *)
Theorem removeItem_by_index (st : state) (index : Z) :
  (0 <= index < Z.of_nat (length (cart st)) ->
   exists before gone after,
     cart st = before ++ gone :: after
     /\ length before = Z.to_nat index
     /\ cart (snd (removeItem index st)) = before ++ after)
  /\ (index < 0 \/ Z.of_nat (length (cart st)) <= index ->
      removeItem index st = (Ok tt, st)).
Proof.
  split.
  - intros Hi.
    assert (Hr : in_range index (cart st) = true) by (unfold in_range; lia).
    rewrite (removeItem_in_range _ _ Hr).
    destruct (lookup_lt_is_Some_2 (cart st) (Z.to_nat index)) as [gone Hg];
      [lia|].
    exists (take (Z.to_nat index) (cart st)), gone,
           (drop (S (Z.to_nat index)) (cart st)).
    split; [by rewrite take_drop_middle|].
    split; [rewrite length_take; lia|].
    by rewrite delete_take_drop.
  - intros Ho. apply removeItem_out_of_range. unfold in_range. lia.
Qed.

Lemma removeItem_by_index_witness :
  (0 <= 0 < Z.of_nat (length (cart two_items)) /\
   exists before gone after,
     cart two_items = before ++ gone :: after
     /\ length before = Z.to_nat 0
     /\ cart (snd (removeItem 0 two_items)) = before ++ after)
  /\ ((2 < 0 \/ Z.of_nat (length (cart two_items)) <= 2) /\
      removeItem 2 two_items = (Ok tt, two_items)).
Proof.
  assert (Hlen : length (cart two_items) = 2%nat) by (vm_compute; reflexivity).
  split.
  - split; [rewrite Hlen; lia|].
    apply (proj1 (removeItem_by_index two_items 0)).
    rewrite Hlen; lia.
  - split; [right; rewrite Hlen; lia|].
    apply (proj2 (removeItem_by_index two_items 2)).
    right; rewrite Hlen; lia.
Defined.

(** C1. After any sequence of [addItem], [removeItem] and [clearCart]
    calls from any cart, [getItemCount()] returns the length of the item
    list, which is the starting length plus the adds performed, minus the
    entries taken out by in-range removes and by clears; a remove that is
    out of range changes no count. *)
Theorem getItemCount_after_ops (ops : list op) (st : state) :
  let final := run_ops ops st in
  let t := tally_of ops (length (cart st)) in
  fst (getItemCount final) = Ok (length (cart final))
  /\ Z.of_nat (length (cart final))
     = Z.of_nat (length (cart st)) + Z.of_nat (adds t)
       - Z.of_nat (removed t) - Z.of_nat (cleared t)
  /\ forall index,
       (index < 0 \/ Z.of_nat (length (cart final)) <= index) ->
       fst (getItemCount (step final (Remove index)))
       = Ok (length (cart final)).
Proof.
  intros final t. split; [done|].
  destruct (run_ops_tally ops st
              {| adds := 0; removed := 0; cleared := 0;
                 count := length (cart st) |} eq_refl) as [H1 H2].
  fold (tally_of ops (length (cart st))) in H1, H2. fold t in H1, H2.
  fold final in H1. simpl in H2.
  split; [lia|].
  intros index Hi. simpl.
  rewrite removeItem_out_of_range; [done|]. unfold in_range. lia.
Qed.

Lemma getItemCount_after_ops_witness :
  (5 < 0 \/ Z.of_nat (length (cart two_items)) <= 5)
  /\ fst (getItemCount (step two_items (Remove 5)))
     = Ok (length (cart two_items)).
Proof.
  assert (Hlen : length (cart two_items) = 2%nat) by (vm_compute; reflexivity).
  split; [right; rewrite Hlen; lia|].
  apply (proj2 (proj2 (getItemCount_after_ops
           [Add 1730000000000 skill_recovery; Add 1730000000001 map_pack]
           fresh)) 5).
  right. fold two_items. rewrite Hlen; lia.
Defined.

(** C4, as stated, fails: a negative price is stored as it is.  Adding
    [{name: "Refund", price: -5}] to the empty cart leaves one entry whose
    price is a Number below zero. *)
Lemma addItem_keeps_negative_price :
  exists entry price,
    cart (snd (addItem 1730000000000 refund fresh)) = [entry]
    /\ get entry "price" = Ok (VNum price)
    /\ Num.is_negative price = true.
Proof.
  eexists _, _. split; [vm_compute; reflexivity|].
  split; vm_compute; reflexivity.
Qed.

(** C4, amended.  For an item that is neither [null] nor [undefined] and
    whose price has a string form, [addItem] appends exactly one entry to
    the end of the list and leaves the entries before it as they were;
    the entry's id is the item's id when that is truthy and otherwise the
    text [item-] followed by the clock reading, and its price is the
    Number [parseFloat] reads from the item's price (negative values and
    [NaN] included).  For any other item nothing is appended. *)
Theorem addItem_appends (st : state) (now : Z) (item : value) :
  (accepted item = true ->
   exists id price0 price entry,
     get item "id" = Ok id
     /\ get item "price" = Ok price0
     /\ parseFloat price0 = Ok price
     /\ cart (snd (addItem now item st)) = cart st ++ [entry]
     /\ get entry "id"
        = Ok (if truthy id then id
              else VStr ("item-" ++ NumText.to_string (Num.of_Z now)))
     /\ get entry "price" = Ok (VNum price))
  /\ (accepted item = false -> cart (snd (addItem now item st)) = cart st).
Proof.
  rewrite addItem_cart. split.
  - intros Ha. apply (entry_of_accepted now) in Ha as [entry He].
    rewrite He.
    apply entry_of_inv in He
      as (id & name & price0 & price & d & t & Hid & _ & Hp0 & Hp & _ & _ & ->).
    eexists id, price0, price, _. repeat split; try done.
  - intros Ha. destruct (entry_of now item) as [entry|e] eqn:He; [|done].
    assert (accepted item = true) by (apply (entry_of_accepted now); eauto).
    congruence.
Qed.

Lemma addItem_appends_witness :
  (accepted refund = true /\
   exists id price0 price entry,
     get refund "id" = Ok id
     /\ get refund "price" = Ok price0
     /\ parseFloat price0 = Ok price
     /\ cart (snd (addItem 17 refund two_items)) = cart two_items ++ [entry]
     /\ get entry "id"
        = Ok (if truthy id then id
              else VStr ("item-" ++ NumText.to_string (Num.of_Z 17)))
     /\ get entry "price" = Ok (VNum price))
  /\ (accepted VNull = false /\
      cart (snd (addItem 17 VNull two_items)) = cart two_items).
Proof.
  split.
  - split; [vm_compute; reflexivity|].
    apply (proj1 (addItem_appends two_items 17 refund)).
    vm_compute; reflexivity.
  - split; [reflexivity|].
    apply (proj2 (addItem_appends two_items 17 VNull)). reflexivity.
Defined.

(** C10. Every entry [addItem] appends has the five fields [id], [name],
    [price], [description], [type], in that order: the description is the
    item's when that is truthy and the empty string otherwise, the type is
    the item's when truthy and ["product"] otherwise, and the name is the
    item's name as it is, [undefined] when the item has none. *)
Theorem addItem_entry_fields (st : state) (now : Z) (item : value)
    (entry : value) :
  last (cart (snd (addItem now item st))) = Some entry ->
  accepted item = true ->
  exists name description type props,
    get item "name" = Ok name
    /\ get item "description" = Ok description
    /\ get item "type" = Ok type
    /\ entry = VObj props
    /\ map fst props = ["id"; "name"; "price"; "description"; "type"]
    /\ get entry "name" = Ok name
    /\ get entry "description"
       = Ok (if truthy description then description else VStr EmptyString)
    /\ get entry "type" = Ok (if truthy type then type else VStr "product")
    /\ (forall fields, item = VObj fields ->
        lookup_prop "name" fields = None ->
        get entry "name" = Ok VUndefined).
Proof.
  rewrite addItem_cart. intros Hl Ha.
  apply (entry_of_accepted now) in Ha as [e He]. rewrite He in Hl.
  rewrite last_snoc in Hl. injection Hl as ->.
  apply entry_of_inv in He
    as (id & name & price0 & price & d & t & _ & Hn & _ & _ & Hd & Ht & ->).
  eexists name, d, t, _. repeat split; try done.
  intros fields -> Hf. simpl in Hn. rewrite Hf in Hn. simpl in Hn.
  by injection Hn as <-.
Qed.

Lemma addItem_entry_fields_witness :
  exists entry,
    last (cart (snd (addItem 17 map_pack fresh))) = Some entry
    /\ accepted map_pack = true
    /\ get entry "description" = Ok (VStr EmptyString)
    /\ get entry "type" = Ok (VStr "product").
Proof.
  eexists. split; [vm_compute; reflexivity|].
  split; [vm_compute; reflexivity|].
  destruct (addItem_entry_fields fresh 17 map_pack _
              ltac:(vm_compute; reflexivity) ltac:(vm_compute; reflexivity))
    as (name & description & type & props & Hn & Hd & Ht & _ & _ & _
        & Hed & Het & _).
  injection Hd as <-. injection Ht as <-. split; assumption.
Defined.

Lemma two_items_prices :
  Forall2 has_price (cart two_items)
    [Num.of_decimal false 499 (-2); Num.of_decimal false 325 (-2)].
Proof.
  change (cart two_items) with
    (cart (snd (addItem 1730000000001 map_pack
                  (snd (addItem 1730000000000 skill_recovery fresh))))).
  rewrite !addItem_cart.
  constructor; [|constructor; [|constructor]];
    apply number_has_price; vm_compute; reflexivity.
Defined.

(** C2. [getTotal()] returns the sum of the [price] fields of the items,
    taken from the left from [0], for every cart whose items carry prices
    that read as Numbers (as every entry written by [addItem] does, also
    after it has been stored and loaded); on the empty cart it returns
    [0]. The state is not touched. *)
Theorem getTotal_sums_prices (st : state) :
  (cart st = [] -> getTotal st = (Ok (VNum Num.zero), st))
  /\ (forall prices,
        Forall2 has_price (cart st) prices ->
        getTotal st = (Ok (VNum (sum_of prices)), st)).
Proof.
  unfold getTotal. split.
  - by intros ->.
  - intros prices Hp. by rewrite (total_of_priced _ _ Hp).
Qed.

Lemma getTotal_sums_prices_witness :
  (cart fresh = [] /\ getTotal fresh = (Ok (VNum Num.zero), fresh))
  /\ (Forall2 has_price (cart two_items)
        [Num.of_decimal false 499 (-2); Num.of_decimal false 325 (-2)]
      /\ getTotal two_items
         = (Ok (VNum (sum_of [Num.of_decimal false 499 (-2);
                              Num.of_decimal false 325 (-2)])),
            two_items)).
Proof.
  pose proof two_items_prices as Hp.
  split.
  - split; [reflexivity|].
    apply (proj1 (getTotal_sums_prices fresh)). reflexivity.
  - split; [exact Hp|].
    apply (proj2 (getTotal_sums_prices two_items)). exact Hp.
Defined.

(** Scenario 2 of the specification: items priced 2.50 and 3.25 total
    5.75, shown as 5.75. *)
Example total_of_two_prices :
  let items :=
    [VObj [("price", VNum (Num.of_decimal false 250 (-2)))];
     VObj [("price", VNum (Num.of_decimal false 325 (-2)))]] in
  total_of items = Ok (VNum (Num.of_decimal false 575 (-2)))
  /\ bind (total_of items) toFixed2 = Ok "5.75".
Proof. split; vm_compute; reflexivity. Qed.

(** C6. On an empty cart [checkout()] shows the empty-cart message and
    does nothing else: list, store and the rest of the page stay as they
    were.  On a cart with items (carrying prices that read as Numbers) it
    shows the order message with the total of before, the call returns, and the
    list is empty afterwards. *)
Theorem checkout_empty_or_clear (st : state) :
  (cart st = [] ->
   checkout st
   = (Ok tt, set_view (add_alert "Your cart is empty!" (view st)) st))
  /\ (forall prices,
        cart st <> [] ->
        Forall2 has_price (cart st) prices ->
        fst (checkout st) = Ok tt
        /\ cart (snd (checkout st)) = []
        /\ alerts (view (snd (checkout st)))
           = alerts (view st)
             ++ [order_message (NumText.to_fixed2 (sum_of prices))]).
Proof.
  split.
  - intros He. unfold checkout, mbind, getItemCount, gets. simpl.
    by rewrite He.
  - intros prices Hne Hp. rewrite (checkout_nonempty st prices Hne Hp).
    set (st1 := set_view _ st).
    split; [reflexivity|].
    rewrite keeps_cart_closeCart, clearCart_cart. split; [done|].
    change (shown (snd (closeCart (snd (clearCart st1)))) = shown st1).
    by rewrite keeps_shown_closeCart, keeps_shown_clearCart.
Qed.

Lemma checkout_empty_or_clear_witness :
  (cart fresh = [] /\
   checkout fresh
   = (Ok tt, set_view (add_alert "Your cart is empty!" (view fresh)) fresh))
  /\ (cart two_items <> [] /\
      cart (snd (checkout two_items)) = []).
Proof.
  split.
  - split; [reflexivity|].
    apply (proj1 (checkout_empty_or_clear fresh)). reflexivity.
  - assert (Hne : cart two_items <> []) by (vm_compute; discriminate).
    split; [exact Hne|].
    apply (proj2 (checkout_empty_or_clear two_items)
             [Num.of_decimal false 499 (-2); Num.of_decimal false 325 (-2)]
             Hne).
    exact two_items_prices.
Defined.

End CartClaims.

(** ** Loading the cart *)
Section CartLoad.
Import JS Eff Browser Cart.
Local Open Scope eff_scope.

Lemma loadCart_unfold st :
  loadCart st
  = match getItem storageKey (store st) with
    | Some text =>
        if truthy (VStr text) then
          match JSON.parse text with
          | Ok v => (Ok v, st)
          | Throw _ =>
              (Ok (VArr []),
               set_view (log_error "Error loading cart:" (view st)) st)
          end
        else (Ok (VArr []), st)
    | None => (Ok (VArr []), st)
    end.
Proof.
  unfold loadCart, catch, mbind, gets, lift, ret, console_error, modify.
  cbn [fst snd].
  destruct (getItem storageKey (store st)) as [text|]; [|done].
  destruct (truthy (VStr text)); [|done].
  by destruct (JSON.parse text).
Qed.

(** C7. Whatever the store holds under the cart key, [loadCart()]
    returns; when the key is absent, or its text is empty or not JSON, it
    returns the empty list.  The list in memory and the store are not
    touched. *)
Theorem loadCart_never_throws (st : state) :
  (exists v, fst (loadCart st) = Ok v)
  /\ (getItem storageKey (store st) = None ->
      fst (loadCart st) = Ok (VArr []))
  /\ (forall text e,
        getItem storageKey (store st) = Some text ->
        JSON.parse text = Throw e ->
        fst (loadCart st) = Ok (VArr []))
  /\ cart (snd (loadCart st)) = cart st
  /\ store (snd (loadCart st)) = store st.
Proof.
  rewrite loadCart_unfold.
  destruct (getItem storageKey (store st)) as [text|]; cbn [fst snd].
  - destruct (truthy (VStr text)).
    + destruct (JSON.parse text) as [v|e] eqn:Hp; cbn [fst snd].
      * split; [by eexists|]. split; [done|]. split; [|done].
        intros text' e' [= <-] He. congruence.
      * split; [by eexists|]. by repeat split.
    + split; [by eexists|]. by repeat split.
  - split; [by eexists|]. by repeat split.
Qed.

Lemma loadCart_never_throws_witness :
  (getItem storageKey (store fresh) = None /\
   fst (loadCart fresh) = Ok (VArr []))
  /\ (getItem storageKey (store_with "[{oops") = Some "[{oops"
      /\ JSON.parse "[{oops" = Throw SyntaxError
      /\ fst (loadCart {| cart := []; store := store_with "[{oops";
                          view := blank_page |})
         = Ok (VArr [])).
Proof.
  split.
  - split; [reflexivity|].
    exact (proj1 (proj2 (loadCart_never_throws fresh)) eq_refl).
  - assert (H1 : getItem storageKey (store_with "[{oops") = Some "[{oops")
      by (vm_compute; reflexivity).
    assert (H2 : JSON.parse "[{oops" = Throw SyntaxError)
      by (vm_compute; reflexivity).
    split; [exact H1|]. split; [exact H2|].
    exact (proj1 (proj2 (proj2 (loadCart_never_throws
             {| cart := []; store := store_with "[{oops";
                view := blank_page |})))
             "[{oops" SyntaxError H1 H2).
Defined.

(** Text that is valid JSON but no array is handed back as it is. *)
Example loadCart_returns_any_json :
  fst (loadCart {| cart := []; store := store_with "5"; view := blank_page |})
  = Ok (VNum (Num.of_Z 5)).
Proof. vm_compute. reflexivity. Qed.

End CartLoad.

(** ** JSON text read back: strings *)
Section QuoteFacts.
Import JS JSON.

Lemma unquote_quote_char (c : ascii) (l : list ascii) :
  unquote (quote_char c ++ l)
  = match unquote l with
    | Some (s, rest) => Some (c :: s, rest)
    | None => None
    end.
Proof.
  destruct c as [[] [] [] [] [] [] [] []]; reflexivity.
Qed.

Lemma unquote_quoted (cs rest : list ascii) :
  unquote (flat_map quote_char cs ++ dquote :: rest) = Some (cs, rest).
Proof.
  induction cs as [|c cs IH]; [reflexivity|].
  simpl. rewrite <- app_assoc, unquote_quote_char. by rewrite IH.
Qed.

Lemma quote_unfold (s : string) :
  quote s = dquote :: flat_map quote_char (list_ascii_of_string s) ++ [dquote].
Proof. reflexivity. Qed.

End QuoteFacts.

(** ** JSON text read back: numbers *)
Section LiteralFacts.
Import Literal.

Lemma span_app (p : ascii -> bool) (t rest : list ascii) :
  match rest with [] => True | c :: _ => p c = false end ->
  span p (t ++ rest) = (fst (span p t), snd (span p t) ++ rest).
Proof.
  intros Hr. induction t as [|c t IH]; simpl.
  - destruct rest as [|c rest]; [done|]. simpl. by rewrite Hr.
  - destruct (p c); [|done]. rewrite IH. by destruct (span p t).
Qed.

Lemma closed_digit rest :
  closed rest ->
  match rest with [] => True | c :: _ => Digits.is_digit c = false end.
Proof.
  destruct rest as [|c rest]; [done|]. unfold closed, continues.
  by destruct (Digits.is_digit c).
Qed.

Lemma span_digits_closed (l rest ds : list ascii) :
  span Digits.is_digit l = (ds, []) ->
  closed rest ->
  span Digits.is_digit (l ++ rest) = (ds, rest).
Proof.
  intros Hs Hc. rewrite (span_app _ _ _ (closed_digit _ Hc)).
  by rewrite Hs.
Qed.

Lemma lex_exponent_app (l rest : list ascii) neg ds :
  lex_exponent l = (neg, ds, []) ->
  closed rest ->
  lex_exponent (l ++ rest) = (neg, ds, rest).
Proof.
  intros Hl Hc. destruct l as [|c l1].
  - injection Hl as <- <-. simpl.
    destruct rest as [|c rest]; [done|]. simpl.
    unfold closed, continues in Hc.
    destruct (is_e c); [|done]. by rewrite orb_true_r in Hc.
  - simpl in *. destruct (is_e c); [|done].
    destruct l1 as [|s l2]; [done|]. simpl.
    destruct (decide (s = "-"%char)).
    { destruct (span Digits.is_digit l2) as [[|d ds'] r] eqn:Hs; [done|].
      injection Hl as <- <- ->.
      by rewrite (span_digits_closed _ _ _ Hs Hc). }
    destruct (decide (s = "+"%char)).
    { destruct (span Digits.is_digit l2) as [[|d ds'] r] eqn:Hs; [done|].
      injection Hl as <- <- ->.
      by rewrite (span_digits_closed _ _ _ Hs Hc). }
    destruct (span Digits.is_digit (s :: l2)) as [[|d ds'] r] eqn:Hs;
      [done|].
    injection Hl as <- <- ->.
    change (s :: l2 ++ rest) with ((s :: l2) ++ rest).
    by rewrite (span_digits_closed _ _ _ Hs Hc).
Qed.

Lemma lex_app (t rest : list ascii) (d : decimal) :
  lex t = Some (d, []) ->
  closed rest ->
  lex (t ++ rest) = Some (d, rest).
Proof.
  unfold lex. intros Hl Hc.
  rewrite (span_app _ _ _ (closed_digit _ Hc)).
  destruct (span Digits.is_digit t) as [ip l1]. cbn [fst snd].
  destruct l1 as [|c l1']; cbn [app].
  - destruct ip as [|i ip']; [done|].
    injection Hl as <-.
    destruct rest as [|c rest]; [done|].
    unfold closed, continues in Hc.
    apply orb_false_elim in Hc as [Hc He].
    apply orb_false_elim in Hc as [Hd Hp].
    apply bool_decide_eq_false in Hp.
    destruct (decide (c = "."%char)); [done|].
    simpl. by rewrite He.
  - destruct (decide (c = "."%char)).
    + rewrite (span_app _ _ _ (closed_digit _ Hc)).
      destruct (span Digits.is_digit l1') as [fp l2]. cbn [fst snd].
      destruct ip as [|i ip'], fp as [|f fp']; try done.
      all: destruct (lex_exponent l2) as [[en ep] l3] eqn:He;
        injection Hl as <- ->;
        by rewrite (lex_exponent_app _ _ _ _ He Hc).
    + destruct ip as [|i ip']; [done|].
      destruct (lex_exponent (c :: l1')) as [[en ep] l3] eqn:He.
      injection Hl as <- ->.
      change (c :: l1' ++ rest) with ((c :: l1') ++ rest).
      by rewrite (lex_exponent_app _ _ _ _ He Hc).
Qed.

Lemma parse_number_app (t rest : list ascii) (v : JS.value) :
  JSON.parse_number t = Some (v, []) ->
  closed rest ->
  JSON.parse_number (t ++ rest) = Some (v, rest).
Proof.
  unfold JSON.parse_number. intros Hp Hc.
  destruct t as [|s t'].
  - simpl in Hp. done.
  - cbn [app]. destruct (decide (s = "-"%char)).
    + destruct (lex t') as [[d r]|] eqn:Hl; [|done].
      destruct (JSON.json_shape d) eqn:Hs; [|done].
      injection Hp as <- ->.
      by rewrite (lex_app _ _ _ Hl Hc), Hs.
    + destruct (lex (s :: t')) as [[d r]|] eqn:Hl; [|done].
      destruct (JSON.json_shape d) eqn:Hs; [|done].
      injection Hp as <- ->.
      change (s :: t' ++ rest) with ((s :: t') ++ rest).
      by rewrite (lex_app _ _ _ Hl Hc), Hs.
Qed.

End LiteralFacts.

(** ** JSON text read back: values *)
Section ValueFacts.
Import JS JSON.

(** An induction principle that reaches into arrays and objects. *)
Lemma value_ind' (P : value -> Prop)
    (Hu : P VUndefined) (Hn : P VNull) (Hb : forall b, P (VBool b))
    (Hnum : forall n, P (VNum n)) (Hs : forall s, P (VStr s))
    (Ha : forall elems, Forall P elems -> P (VArr elems))
    (Ho : forall props, Forall (fun kv => P kv.2) props -> P (VObj props)) :
  forall v, P v.
Proof.
  fix IH 1. intros [| |b|n|s|elems|props].
  - exact Hu.
  - exact Hn.
  - apply Hb.
  - apply Hnum.
  - apply Hs.
  - apply Ha. induction elems as [|x l IHl]; constructor;
      [apply IH|exact IHl].
  - apply Ho. induction props as [|[k x] l IHl]; constructor;
      [apply IH|exact IHl].
Qed.

Lemma number_reads_back_spec n :
  number_reads_back n = true ->
  Num.is_finite n = true
  /\ parse_number (NumText.to_chars n) = Some (VNum n, []).
Proof.
  unfold number_reads_back. intros [Hf Hp]%andb_true_iff. split; [done|].
  destruct (parse_number (NumText.to_chars n)) as [[[] []]|]; try done.
  by apply bool_decide_eq_true in Hp as ->.
Qed.

Lemma serialize_array elems :
  serialize (VArr elems)
  = Some ("["%char :: sep_by ","%char (map text_of elems) ++ ["]"%char]).
Proof.
  reflexivity.
Qed.

Lemma storable_serialize v :
  storable v = true -> serialize v = Some (text_of v).
Proof.
  unfold text_of. destruct v; simpl; intros H; done.
Qed.

Lemma members_storable props :
  forallb (fun kv => let '(_, x) := kv in storable x) props = true ->
  members serialize props = map member_text props.
Proof.
  induction props as [|[k x] l IH]; [done|]. intros Hs.
  simpl in Hs. apply andb_true_iff in Hs as [Hx Hl].
  cbn [members map]. rewrite (storable_serialize _ Hx), (IH Hl).
  reflexivity.
Qed.

Lemma serialize_object props :
  forallb (fun kv => let '(_, x) := kv in storable x) props = true ->
  serialize (VObj props)
  = Some ("{"%char :: sep_by ","%char (map member_text props) ++ ["}"%char]).
Proof.
  intros Hs. cbn [serialize]. by rewrite (members_storable _ Hs).
Qed.

Lemma opens_value_plain c :
  opens_value c = true ->
  is_ws c = false /\ c <> "]"%char /\ c <> "}"%char.
Proof.
  destruct c as [[] [] [] [] [] [] [] []]; vm_compute; intros H;
    try discriminate H; repeat split; discriminate.
Qed.

Lemma parse_number_head c t r :
  parse_number (c :: t) = Some r ->
  c = "-"%char \/ Digits.is_digit c = true.
Proof.
  unfold parse_number. destruct (decide (c = "-"%char)); [by left|].
  intros H. right.
  destruct (Literal.lex (c :: t)) as [[d rest]|] eqn:Hl; [|done].
  destruct (json_shape d) eqn:Hs; [|done].
  unfold Literal.lex in Hl. simpl in Hl.
  destruct (Digits.is_digit c); [done|].
  destruct (decide (c = "."%char)).
  - destruct (Literal.span Digits.is_digit t) as [[|f fp] l2]; [done|].
    destruct (Literal.lex_exponent l2) as [[en ep] l3].
    injection Hl as <- <-. done.
  - done.
Qed.

Lemma text_of_head v :
  storable v = true ->
  exists c t, text_of v = c :: t /\ opens_value c = true.
Proof.
  destruct v as [| |b|n|s|elems|props]; intros Hs; try done.
  - by eexists _, _.
  - destruct b; by eexists _, _.
  - unfold text_of. simpl in *.
    apply number_reads_back_spec in Hs as [Hf Hp].
    unfold number_text. rewrite Hf. simpl.
    destruct (NumText.to_chars n) as [|c t] eqn:Ht; [done|].
    exists c, t. split; [done|].
    apply parse_number_head in Hp as [->|Hd]; [done|].
    unfold opens_value. by rewrite Hd.
  - by eexists _, _.
  - unfold text_of. rewrite serialize_array. by eexists _, _.
  - unfold text_of. simpl in Hs. apply andb_true_iff in Hs as [Hs _].
    rewrite (serialize_object _ Hs). by eexists _, _.
Qed.

End ValueFacts.

Section ParseFacts.
Import JS JSON.

Lemma delimited_closed rest : delimited rest -> closed rest.
Proof.
  destruct rest as [|c rest]; [done|]. by intros [->|[->| ->]].
Qed.

Lemma delimited_skip_ws rest : delimited rest -> skip_ws rest = rest.
Proof.
  destruct rest as [|c rest]; [done|]. by intros [->|[->| ->]].
Qed.

Lemma parse_value_number fuel c l :
  c = "-"%char \/ Digits.is_digit c = true ->
  parse_value (S fuel) (c :: l) = parse_number (c :: l).
Proof.
  intros [->|Hd]; [reflexivity|].
  destruct c as [[] [] [] [] [] [] [] []]; try discriminate Hd; reflexivity.
Qed.

Lemma sep_by_cons (c : ascii) (a : list ascii) (l : list (list ascii))
    (rest : list ascii) :
  sep_by c (a :: l) ++ rest
  = a ++ match l with
         | [] => rest
         | _ :: _ => c :: sep_by c l ++ rest
         end.
Proof.
  destruct l as [|b l]; [done|]. cbn [sep_by].
  by rewrite <- app_assoc.
Qed.

Lemma plain_keys_fresh (acc ps : list (string * value)) k x :
  plain_keys (map fst (acc ++ (k, x) :: ps)) = true ->
  define_prop k x acc = acc ++ [(k, x)].
Proof.
  intros Hp. unfold define_prop.
  assert (Hown : has_own k acc = false /\ index_of k = None).
  { induction acc as [|[k' x'] acc IH]; simpl in Hp.
    - split; [done|].
      apply andb_true_iff in Hp as [Hp _].
      apply andb_true_iff in Hp as [_ Hi].
      apply negb_true_iff, bool_decide_eq_false in Hi.
      destruct (index_of k); [|done]. by destruct Hi.
    - apply andb_true_iff in Hp as [Hp Hrest].
      apply andb_true_iff in Hp as [Hex _].
      apply negb_true_iff in Hex.
      rewrite map_app, existsb_app in Hex.
      apply orb_false_elim in Hex as [_ Hex]. simpl in Hex.
      apply orb_false_elim in Hex as [Hk _].
      destruct (IH Hrest) as [Ho Hi]. split; [|done].
      unfold has_own in *. simpl. by rewrite Hk. }
  destruct Hown as [-> ->]. done.
Qed.

Lemma parse_elements_text (xs : list value) : forall x acc fuel rest,
  Forall reads_back (x :: xs) ->
  forallb storable (x :: xs) = true ->
  (list_sum (map (fun y => S (cost y)) (x :: xs)) <= fuel)%nat ->
  parse_elements fuel
    (sep_by ","%char (map text_of (x :: xs)) ++ "]"%char :: rest) acc
  = Some (VArr (acc ++ x :: xs), rest).
Proof.
  induction xs as [|y ys IH]; intros x acc fuel rest Hall Hs Hf.
  - destruct fuel as [|fuel]; [simpl in Hf; lia|].
    apply Forall_cons in Hall as [Hx _].
    simpl in Hs. rewrite andb_true_r in Hs.
    cbn [map sep_by parse_elements].
    rewrite (Hx Hs fuel ("]"%char :: rest)); [|simpl in Hf; lia|by right; left].
    done.
  - destruct fuel as [|fuel]; [simpl in Hf; lia|].
    apply Forall_cons in Hall as [Hx Hrest].
    cbn [forallb] in Hs. apply andb_true_iff in Hs as [Hsx Hsrest].
    change (map text_of (x :: y :: ys))
      with (text_of x :: map text_of (y :: ys)).
    rewrite sep_by_cons. cbn [map parse_elements].
    change (text_of y :: map text_of ys) with (map text_of (y :: ys)).
    simpl in Hf.
    rewrite (Hx Hsx fuel); [|lia|by left].
    change (skip_ws (","%char :: ?l)) with (","%char :: l). cbv beta iota.
    rewrite decide_True by reflexivity.
    rewrite (IH y (acc ++ [x]) fuel rest Hrest Hsrest); [|simpl; lia].
    by rewrite <- app_assoc.
Qed.

End ParseFacts.

Section ParseValues.
Import JS JSON.

Lemma parse_members_step fuel k x tail acc :
  parse_members (S fuel) (member_text (k, x) ++ tail) acc
  = match parse_value fuel (text_of x ++ tail) with
    | Some (v, l4) =>
        match skip_ws l4 with
        | c4 :: l5 =>
            if decide (c4 = ","%char)
            then parse_members fuel l5 (define_prop k v acc)
            else if decide (c4 = "}"%char)
            then Some (VObj (define_prop k v acc), l5)
            else None
        | [] => None
        end
    | None => None
    end.
Proof.
  unfold member_text. cbn [fst snd]. rewrite quote_unfold.
  cbn [app parse_members]. rewrite <- !app_assoc. cbn [app].
  change (skip_ws (dquote :: ?l)) with (dquote :: l). cbv beta iota.
  rewrite decide_True by reflexivity.
  rewrite unquote_quoted.
  change (skip_ws (":"%char :: ?l)) with (":"%char :: l). cbv beta iota.
  rewrite decide_True by reflexivity.
  by rewrite string_of_list_ascii_of_string.
Qed.

Lemma parse_members_text (ps : list (string * value)) :
  forall k x acc fuel rest,
  Forall (fun kv => reads_back kv.2) ((k, x) :: ps) ->
  forallb (fun kv => let '(_, y) := kv in storable y) ((k, x) :: ps) = true ->
  plain_keys (map fst (acc ++ (k, x) :: ps)) = true ->
  (list_sum (map (fun kv => let '(_, y) := kv in S (cost y)) ((k, x) :: ps))
   <= fuel)%nat ->
  parse_members fuel
    (sep_by ","%char (map member_text ((k, x) :: ps)) ++ "}"%char :: rest) acc
  = Some (VObj (acc ++ (k, x) :: ps), rest).
Proof.
  induction ps as [|[k' y] ps IH]; intros k x acc fuel rest Hall Hs Hk Hf.
  - destruct fuel as [|fuel]; [simpl in Hf; lia|].
    apply Forall_cons in Hall as [Hx _]. cbn [snd] in Hx.
    simpl in Hs. rewrite andb_true_r in Hs.
    cbn [map sep_by]. rewrite parse_members_step.
    rewrite (Hx Hs fuel ("}"%char :: rest));
      [|simpl in Hf; lia|by right; right].
    change (skip_ws ("}"%char :: ?l)) with ("}"%char :: l). cbv beta iota.
    rewrite decide_False by discriminate.
    rewrite decide_True by reflexivity.
    by rewrite (plain_keys_fresh _ _ _ _ Hk).
  - destruct fuel as [|fuel]; [simpl in Hf; lia|].
    apply Forall_cons in Hall as [Hx Hrest]. cbn [snd] in Hx.
    cbn [forallb] in Hs. apply andb_true_iff in Hs as [Hsx Hsrest].
    change (map member_text ((k, x) :: (k', y) :: ps))
      with (member_text (k, x) :: map member_text ((k', y) :: ps)).
    rewrite sep_by_cons. cbn [map]. rewrite parse_members_step.
    change (member_text (k', y) :: map member_text ps)
      with (map member_text ((k', y) :: ps)).
    simpl in Hf.
    rewrite (Hx Hsx fuel); [|lia|by left].
    change (skip_ws (","%char :: ?l)) with (","%char :: l). cbv beta iota.
    rewrite decide_True by reflexivity.
    rewrite (plain_keys_fresh _ _ _ _ Hk).
    rewrite (IH k' y (acc ++ [(k, x)]) fuel rest Hrest Hsrest);
      [by rewrite <- app_assoc| by rewrite <- app_assoc |simpl; lia].
Qed.

Lemma parse_value_array fuel (c : ascii) (l : list ascii) :
  is_ws c = false -> c <> "]"%char ->
  parse_value (S fuel) ("["%char :: c :: l) = parse_elements fuel (c :: l) [].
Proof.
  intros Hws Hne. cbn [parse_value].
  change (skip_ws ("["%char :: ?t)) with ("["%char :: t). cbv beta iota.
  rewrite decide_True by reflexivity.
  cbn [skip_ws]. rewrite Hws. by rewrite decide_False.
Qed.

Lemma parse_value_object fuel (c : ascii) (l : list ascii) :
  is_ws c = false -> c <> "}"%char ->
  parse_value (S fuel) ("{"%char :: c :: l) = parse_members fuel (c :: l) [].
Proof.
  intros Hws Hne. cbn [parse_value].
  change (skip_ws ("{"%char :: ?t)) with ("{"%char :: t). cbv beta iota.
  rewrite decide_False by discriminate.
  rewrite decide_True by reflexivity.
  cbn [skip_ws]. rewrite Hws. by rewrite decide_False.
Qed.

Lemma text_of_array elems :
  text_of (VArr elems)
  = "["%char :: sep_by ","%char (map text_of elems) ++ ["]"%char].
Proof. reflexivity. Qed.

Lemma text_of_object props :
  forallb (fun kv => let '(_, x) := kv in storable x) props = true ->
  text_of (VObj props)
  = "{"%char :: sep_by ","%char (map member_text props) ++ ["}"%char].
Proof. intros Hs. unfold text_of. by rewrite (serialize_object _ Hs). Qed.

Lemma parse_text : forall v, reads_back v.
Proof.
  induction v as [| |b|n|s|elems IH|props IH] using value_ind';
    intros Hs fuel rest Hf Hd;
    (destruct fuel as [|fuel]; [simpl in Hf; lia|]).
  - done.
  - reflexivity.
  - destruct b; reflexivity.
  - simpl in Hs. apply number_reads_back_spec in Hs as [Hfin Hp].
    unfold text_of. cbn [serialize default]. unfold number_text.
    rewrite Hfin. unfold id.
    destruct (NumText.to_chars n) as [|c t] eqn:Ht; [done|].
    cbn [app]. rewrite parse_value_number.
    + change (c :: t ++ rest) with ((c :: t) ++ rest).
      by apply parse_number_app, delimited_closed.
    + by apply parse_number_head in Hp.
  - change (text_of (VStr s)) with (quote s). rewrite quote_unfold.
    cbn [app]. rewrite <- app_assoc. cbn [app parse_value].
    change (skip_ws (dquote :: ?l)) with (dquote :: l). cbv beta iota.
    rewrite !decide_False by discriminate.
    rewrite decide_True by reflexivity.
    by rewrite unquote_quoted, string_of_list_ascii_of_string.
  - rewrite text_of_array. cbn [app]. rewrite <- app_assoc. cbn [app].
    destruct elems as [|x xs]; [reflexivity|].
    assert (Hsx : storable x = true).
    { simpl in Hs. by apply andb_true_iff in Hs as [? _]. }
    destruct (text_of_head x Hsx) as (c & t & Hc & Ho).
    apply opens_value_plain in Ho as (Hws & Hb & _).
    assert (HL : exists l,
      sep_by ","%char (map text_of (x :: xs)) ++ "]"%char :: rest = c :: l).
    { change (map text_of (x :: xs)) with (text_of x :: map text_of xs).
      rewrite sep_by_cons, Hc. by eexists. }
    destruct HL as [l HL]. rewrite HL.
    rewrite (parse_value_array _ _ _ Hws Hb). rewrite <- HL.
    rewrite (parse_elements_text xs x [] fuel rest IH Hs); [done|].
    simpl in Hf. simpl. lia.
  - assert (Hsv : forallb (fun kv => let '(_, x) := kv in storable x) props
                  = true).
    { simpl in Hs. by apply andb_true_iff in Hs as [? _]. }
    assert (Hk : plain_keys (map fst props) = true).
    { simpl in Hs. by apply andb_true_iff in Hs as [_ ?]. }
    rewrite (text_of_object _ Hsv). cbn [app]. rewrite <- app_assoc.
    cbn [app].
    destruct props as [|[k x] ps]; [reflexivity|].
    assert (HL : exists l,
      sep_by ","%char (map member_text ((k, x) :: ps)) ++ "}"%char :: rest
      = dquote :: l).
    { change (map member_text ((k, x) :: ps))
        with (member_text (k, x) :: map member_text ps).
      rewrite sep_by_cons. unfold member_text at 1. rewrite quote_unfold.
      cbn [app fst]. by eexists. }
    destruct HL as [l HL]. rewrite HL.
    rewrite (parse_value_object fuel dquote l); [|done|done].
    rewrite <- HL.
    rewrite (parse_members_text ps k x [] fuel rest IH Hsv Hk); [done|].
    simpl in Hf. simpl. lia.
Qed.

End ParseValues.

(** ** The fuel of [JSON.parse] never runs out *)
Section FuelEnough.
Import JS JSON.

Lemma skip_ws_length l : (length (skip_ws l) <= length l)%nat.
Proof.
  induction l as [|c l IH]; [done|]. simpl.
  destruct (is_ws c); simpl; lia.
Qed.

Lemma skip_ws_cons_length l c l' :
  skip_ws l = c :: l' -> (length l' < length l)%nat.
Proof.
  intros H. pose proof (skip_ws_length l) as Hl. rewrite H in Hl.
  simpl in Hl. lia.
Qed.

Lemma span_length p l :
  length l = (length (Literal.span p l).1 + length (Literal.span p l).2)%nat.
Proof.
  induction l as [|c l IH]; [done|]. simpl.
  destruct (p c); [|done].
  destruct (Literal.span p l) as [a b]. simpl in *. lia.
Qed.

Lemma lex_exponent_length l neg ds r :
  Literal.lex_exponent l = (neg, ds, r) -> (length r <= length l)%nat.
Proof.
  unfold Literal.lex_exponent. destruct l as [|c l1]; [by intros [= <- <- <-]|].
  destruct (Literal.is_e c); [|by intros [= <- <- <-]].
  assert (Hsp : forall l2 n0, (length l2 <= length l1)%nat ->
    match Literal.span Digits.is_digit l2 with
    | ([], _) => (false, [], c :: l1)
    | (ds0, rest) => (n0, ds0, rest)
    end = (neg, ds, r) -> (length r <= length (c :: l1))%nat).
  { intros l2 n0 Hl H. pose proof (span_length Digits.is_digit l2) as Hs.
    destruct (Literal.span Digits.is_digit l2) as [[|d ds'] rest];
      injection H as <- <- <-; simpl in *; lia. }
  destruct l1 as [|s l2]; [by intros [= <- <- <-]|].
  destruct (decide (s = "-"%char)); [apply Hsp; simpl; lia|].
  destruct (decide (s = "+"%char)); [apply Hsp; simpl; lia|].
  apply Hsp; simpl; lia.
Qed.

Lemma lex_length l d r :
  Literal.lex l = Some (d, r) -> (length r < length l)%nat.
Proof.
  unfold Literal.lex. intros H.
  pose proof (span_length Digits.is_digit l) as Hs.
  destruct (Literal.span Digits.is_digit l) as [ip l1]. cbn [fst snd] in Hs.
  destruct l1 as [|c l1'].
  - destruct ip as [|i ip']; [done|].
    injection H as <- <-. simpl in *. lia.
  - destruct (decide (c = "."%char)).
    + pose proof (span_length Digits.is_digit l1') as Hs'.
      destruct (Literal.span Digits.is_digit l1') as [fp l2].
      cbn [fst snd] in Hs'.
      destruct ip as [|i ip'], fp as [|f fp']; try done.
      all: destruct (Literal.lex_exponent l2) as [[en ep] l3] eqn:He;
        apply lex_exponent_length in He; injection H as <- <-;
        simpl in *; lia.
    + destruct ip as [|i ip']; [done|].
      destruct (Literal.lex_exponent (c :: l1')) as [[en ep] l3] eqn:He.
      apply lex_exponent_length in He. injection H as <- <-.
      simpl in *. lia.
Qed.

Lemma parse_number_length l v r :
  parse_number l = Some (v, r) -> (length r < length l)%nat.
Proof.
  unfold parse_number. destruct l as [|s l']; [done|].
  destruct (decide (s = "-"%char)).
  - destruct (Literal.lex l') as [[d rest]|] eqn:Hl; [|done].
    apply lex_length in Hl. destruct (json_shape d); [|done].
    intros [= <- <-]. simpl. lia.
  - destruct (Literal.lex (s :: l')) as [[d rest]|] eqn:Hl; [|done].
    apply lex_length in Hl. destruct (json_shape d); [|done].
    by intros [= <- <-].
Qed.

Lemma unquote_length : forall l s r,
  unquote l = Some (s, r) -> (length r < length l)%nat.
Proof.
  fix IH 1. intros [|c l1] s r H; [done|]. simpl in H.
  destruct (decide (c = dquote)); [injection H as <- <-; simpl; lia|].
  destruct (decide (c = backslash)).
  - destruct l1 as [|esc l2]; [done|].
    destruct (decide (esc = "u"%char)).
    + destruct l2 as [|h1 [|h2 [|h3 [|h4 l3]]]]; try done.
      destruct (hex_val h1), (hex_val h2), (hex_val h3), (hex_val h4);
        try done.
      destruct (unquote l3) as [[s' r']|] eqn:Hu; [|done].
      apply IH in Hu. injection H as <- <-. simpl. lia.
    + destruct (unescape esc); [|done].
      destruct (unquote l2) as [[s' r']|] eqn:Hu; [|done].
      apply IH in Hu. injection H as <- <-. simpl. lia.
  - destruct (N_of_ascii c <? 32)%N; [done|].
    destruct (unquote l1) as [[s' r']|] eqn:Hu; [|done].
    apply IH in Hu. injection H as <- <-. simpl. lia.
Qed.

Lemma parse_value_steady_step f :
  (forall acc, steady (fun g l => parse_elements g l acc) f) ->
  (forall acc, steady (fun g l => parse_members g l acc) f) ->
  steady parse_value (S f).
Proof.
  intros IHe IHm l v r.
  assert (Hgoal : forall g',
    parse_value (S f) l = Some (v, r) ->
    (length r < length l)%nat
    /\ ((2 * (length l - length r) <= S g')%nat ->
        parse_value (S g') l = Some (v, r))).
  { intros g'. cbn [parse_value].
    destruct (skip_ws l) as [|c l1] eqn:Hsk; [done|].
    apply skip_ws_cons_length in Hsk.
    destruct (decide (c = "["%char)).
    { destruct (skip_ws l1) as [|c' rest] eqn:Hsk1; [done|].
      apply skip_ws_cons_length in Hsk1.
      destruct (decide (c' = "]"%char)).
      - intros [= <- <-]. split; [lia|done].
      - intros H. apply IHe in H as [Hlen Hg]. split; [lia|].
        intros Hge. apply Hg. lia. }
    destruct (decide (c = "{"%char)).
    { destruct (skip_ws l1) as [|c' rest] eqn:Hsk1; [done|].
      apply skip_ws_cons_length in Hsk1.
      destruct (decide (c' = "}"%char)).
      - intros [= <- <-]. split; [lia|done].
      - intros H. apply IHm in H as [Hlen Hg]. split; [lia|].
        intros Hge. apply Hg. lia. }
    destruct (decide (c = dquote)).
    { destruct (unquote l1) as [[s rest]|] eqn:Hu; [|done].
      apply unquote_length in Hu. intros [= <- <-]. split; [lia|done]. }
    destruct (is_prefix _ _).
    { intros [= <- <-]. rewrite length_drop. simpl. split; [lia|done]. }
    destruct (is_prefix _ _).
    { intros [= <- <-]. rewrite length_drop. simpl. split; [lia|done]. }
    destruct (is_prefix _ _).
    { intros [= <- <-]. rewrite length_drop. simpl. split; [lia|done]. }
    intros H. pose proof (parse_number_length _ _ _ H) as Hn.
    simpl in Hn. split; [lia|done]. }
  intros H. destruct (Hgoal 0%nat H) as [Hlen _]. split; [done|].
  intros [|g'] Hge; [lia|]. by apply Hgoal.
Qed.

Lemma parse_elements_steady_step f :
  steady parse_value f ->
  (forall acc, steady (fun g l => parse_elements g l acc) f) ->
  forall acc, steady (fun g l => parse_elements g l acc) (S f).
Proof.
  intros IHv IHe acc l v r.
  assert (Hgoal : forall g',
    parse_elements (S f) l acc = Some (v, r) ->
    (length r < length l)%nat
    /\ ((2 * (length l - length r) <= S g')%nat ->
        parse_elements (S g') l acc = Some (v, r))).
  { intros g'. cbn [parse_elements].
    destruct (parse_value f l) as [[v1 l1]|] eqn:Hv; [|done].
    apply IHv in Hv as [Hl1 Hg1].
    destruct (skip_ws l1) as [|c l2] eqn:Hsk; [done|].
    pose proof (skip_ws_cons_length _ _ _ Hsk) as Hl2.
    destruct (decide (c = ","%char)).
    { intros H. apply IHe in H as [Hl3 Hg3]. split; [lia|].
      intros Hge. rewrite Hg1 by lia. rewrite Hsk.
      rewrite decide_True by done. apply Hg3. lia. }
    destruct (decide (c = "]"%char)); [|done].
    intros [= <- <-]. split; [lia|].
    intros Hge. rewrite Hg1 by lia. rewrite Hsk.
    rewrite decide_False by done. by rewrite decide_True. }
  intros H. destruct (Hgoal 0%nat H) as [Hlen _]. split; [done|].
  intros [|g'] Hge; [lia|]. by apply Hgoal.
Qed.

Lemma parse_members_steady_step f :
  steady parse_value f ->
  (forall acc, steady (fun g l => parse_members g l acc) f) ->
  forall acc, steady (fun g l => parse_members g l acc) (S f).
Proof.
  intros IHv IHm acc l v r.
  assert (Hgoal : forall g',
    parse_members (S f) l acc = Some (v, r) ->
    (length r < length l)%nat
    /\ ((2 * (length l - length r) <= S g')%nat ->
        parse_members (S g') l acc = Some (v, r))).
  { intros g'. cbn [parse_members].
    destruct (skip_ws l) as [|c l1] eqn:Hsk0; [done|].
    apply skip_ws_cons_length in Hsk0.
    destruct (decide (c = dquote)); [|done].
    destruct (unquote l1) as [[k l2]|] eqn:Hu; [|done].
    apply unquote_length in Hu.
    destruct (skip_ws l2) as [|c2 l3] eqn:Hsk2; [done|].
    apply skip_ws_cons_length in Hsk2.
    destruct (decide (c2 = ":"%char)); [|done].
    destruct (parse_value f l3) as [[v1 l4]|] eqn:Hv; [|done].
    apply IHv in Hv as [Hl4 Hg4].
    destruct (skip_ws l4) as [|c4 l5] eqn:Hsk4; [done|].
    pose proof (skip_ws_cons_length _ _ _ Hsk4) as Hl5.
    destruct (decide (c4 = ","%char)).
    { intros H. apply IHm in H as [Hl6 Hg6]. split; [lia|].
      intros Hge. rewrite Hg4 by lia. rewrite Hsk4.
      rewrite decide_True by done. apply Hg6. lia. }
    destruct (decide (c4 = "}"%char)); [|done].
    intros [= <- <-]. split; [lia|].
    intros Hge. rewrite Hg4 by lia. rewrite Hsk4.
    rewrite decide_False by done. by rewrite decide_True. }
  intros H. destruct (Hgoal 0%nat H) as [Hlen _]. split; [done|].
  intros [|g'] Hge; [lia|]. by apply Hgoal.
Qed.

Lemma parse_steady f :
  steady parse_value f
  /\ (forall acc, steady (fun g l => parse_elements g l acc) f)
  /\ (forall acc, steady (fun g l => parse_members g l acc) f).
Proof.
  induction f as [|f (IHv & IHe & IHm)].
  - repeat split; intros; done.
  - split; [by apply parse_value_steady_step|].
    split; [by apply parse_elements_steady_step
           |by apply parse_members_steady_step].
Qed.

(** Whatever fuel some parse of [l] succeeds with, [JSON.parse] has
    enough: it rejects a text only if no fuel reads it to its end. *)
Lemma parse_chars_complete (fuel : nat) (l : list ascii) (v : value)
    (r : list ascii) :
  parse_value fuel l = Some (v, r) ->
  skip_ws r = [] ->
  parse_chars l = Ok v.
Proof.
  intros Hp Hr. unfold parse_chars.
  destruct (parse_steady fuel) as [Hv _].
  destruct (Hv l v r Hp) as [_ Hg]. rewrite Hg by lia. by rewrite Hr.
Qed.

End FuelEnough.

(** ** [JSON.parse] after [JSON.stringify] *)
Section StringifyParse.
Import JS JSON.

(** [JSON.parse(JSON.stringify(v))] is [v] for every storable value. *)
Lemma parse_stringify (v : value) :
  storable v = true ->
  exists s, JSON.stringify v = Some s /\ JSON.parse s = Ok v.
Proof.
  intros Hs. exists (string_of_list_ascii (text_of v)). split.
  - unfold stringify. by rewrite (storable_serialize _ Hs).
  - unfold parse. rewrite list_ascii_of_string_of_list_ascii.
    pose proof (parse_text v Hs (cost v) [] (le_n _) I) as Hp.
    rewrite app_nil_r in Hp.
    exact (parse_chars_complete _ _ _ _ Hp eq_refl).
Qed.

End StringifyParse.

(** ** Saving the cart and loading it again *)
Section CartRoundTrip.
Import JS Eff Browser Cart.
Local Open Scope eff_scope.

Lemma saveCart_fits st :
  fits (cart_text (cart st)) (store st) ->
  saveCart st
  = (Ok tt,
     set_store
       {| entries := <[storageKey := cart_text (cart st)]> (entries (store st));
          quota := quota (store st) |}
       st).
Proof.
  unfold fits. intros Hfit.
  unfold saveCart, catch, mbind, gets, modify, setItem. cbn [fst snd].
  fold (cart_text (cart st)).
  destruct (quota (store st)) as [q|]; [|done].
  apply Nat.leb_le in Hfit. by rewrite Hfit.
Qed.

Lemma cart_text_parse items :
  forallb storable items = true ->
  truthy (VStr (cart_text items)) = true
  /\ JSON.parse (cart_text items) = Ok (VArr items).
Proof.
  intros Hs.
  destruct (parse_stringify (VArr items) Hs) as (s & Hst & Hp).
  unfold cart_text. rewrite Hst. split; [|done].
  unfold JSON.stringify in Hst. rewrite serialize_array in Hst.
  by injection Hst as <-.
Qed.

(** C3, as stated, fails: a price that is no number is kept as [NaN],
    JSON text has no [NaN], and the item comes back with the price
    [null].  Adding [{name: "Mystery", price: "free"}] to the empty cart,
    saving and loading does not give the list back. *)
Lemma nan_price_is_not_restored :
  let st := snd (addItem 1730000000000 mystery fresh) in
  exists entry loaded,
    cart st = [entry]
    /\ fst (loadCart (snd (saveCart st))) = Ok (VArr [loaded])
    /\ get entry "price" = Ok (VNum Num.nan)
    /\ get loaded "price" = Ok VNull
    /\ fst (loadCart (snd (saveCart st))) <> Ok (VArr (cart st)).
Proof.
  eexists _, _. split; [vm_compute; reflexivity|].
  split; [vm_compute; reflexivity|].
  split; [vm_compute; reflexivity|].
  split; [vm_compute; reflexivity|].
  vm_compute. discriminate.
Qed.

(** A [CartItem] as the specification types it, with a price that reads
    back, is storable. *)
Lemma cart_item_storable (id name description type : string)
    (price : number) :
  number_reads_back price = true ->
  storable
    (VObj [("id", VStr id); ("name", VStr name); ("price", VNum price);
           ("description", VStr description); ("type", VStr type)])
  = true.
Proof.
  intros Hp. cbn [storable forallb]. rewrite Hp. vm_compute. reflexivity.
Qed.

(** C3, amended.  For every list of items that JSON text holds as they
    are (fields that are strings, booleans, [null], finite Numbers whose
    text reads back as the same Number, or arrays and objects of such
    under distinct names that are no array indices; no [undefined],
    [NaN], infinity or negative zero), [saveCart] followed by [loadCart]
    returns the same list, item for item and field for field, provided
    the store takes the write and is not changed in between. *)
Theorem save_then_load (st : state) :
  forallb storable (cart st) = true ->
  fits (cart_text (cart st)) (store st) ->
  fst (loadCart (snd (saveCart st))) = Ok (VArr (cart st)).
Proof.
  intros Hs Hfit. rewrite (saveCart_fits _ Hfit). cbn [snd].
  rewrite loadCart_unfold. unfold getItem. cbn [store set_store entries].
  rewrite lookup_insert_eq.
  destruct (cart_text_parse _ Hs) as [-> ->]. reflexivity.
Qed.

Lemma save_then_load_witness :
  forallb storable (cart two_items) = true
  /\ fits (cart_text (cart two_items)) (store two_items)
  /\ fst (loadCart (snd (saveCart two_items))) = Ok (VArr (cart two_items)).
Proof.
  assert (H1 : forallb storable (cart two_items) = true)
    by (vm_compute; reflexivity).
  assert (H2 : fits (cart_text (cart two_items)) (store two_items))
    by (vm_compute; exact I).
  split; [exact H1|]. split; [exact H2|].
  exact (save_then_load two_items H1 H2).
Defined.

(** Scenarios 1 and 3 of the specification, and [clearCart] twice. *)
Example add_one_item :
  let st := snd (addToCart 1730000000000 (VStr "Skill Recovery")
                   (VNum (Num.of_decimal false 499 (-2))) (VStr "x") fresh) in
  fst (getItemCount st) = Ok 1%nat
  /\ fst (getTotal st) = Ok (VNum (Num.of_decimal false 499 (-2)))
  /\ notification (view st) = Some "Skill Recovery added to cart!".
Proof. repeat split; vm_compute; reflexivity. Qed.

Example remove_first_of_two :
  let st := snd (removeItem 0 two_items) in
  fst (getItemCount st) = Ok 1%nat
  /\ cart two_items !! 1%nat = cart st !! 0%nat
  /\ bind (get (default VNull (cart st !! 0%nat)) "name") to_string
     = Ok "Map Pack".
Proof. repeat split; vm_compute; reflexivity. Qed.

Example clearCart_twice :
  cart (snd (clearCart (snd (clearCart two_items)))) = []
  /\ fst (clearCart (snd (clearCart two_items))) = Ok tt.
Proof. split; [apply clearCart_cart|apply clearCart_returns]. Qed.

(** A price stored as [NaN] comes back as [null] and then counts as [0]
    in the total. *)
Example total_after_reload_of_nan :
  let st := snd (addItem 1730000000000 mystery fresh) in
  fst (getTotal st) = Ok (VNum Num.nan)
  /\ bind (fst (loadCart st))
       (fun v => match v with VArr items => total_of items | _ => Ok v end)
     = Ok (VNum Num.zero).
Proof. split; vm_compute; reflexivity. Qed.

End CartRoundTrip.

(** ** The content loader *)
Section LoaderFacts.
Import JS Eff Loader.
Local Open Scope eff_scope.

(** [loadJSON] in one equation: one request, then the document or the
    fallback with a line on the console. *)
Lemma loadJSON_unfold filename st :
  loadJSON filename st
  = let st1 := note_request (url_for (now st) filename) st in
    match network st (url_for (now st) filename) with
    | Some r =>
        if ok r then
          match JSON.parse (body r) with
          | Ok data => (Ok data, st1)
          | Throw _ =>
              (Ok (fallback filename),
               note_error ("Error loading " ++ filename ++ ":") st1)
          end
        else
          (Ok (fallback filename),
           note_error ("Error loading " ++ filename ++ ":") st1)
    | None =>
        (Ok (fallback filename),
         note_error ("Error loading " ++ filename ++ ":") st1)
    end.
Proof.
  unfold loadJSON, url_for, fallback, useCache, catch, mbind, gets, fetch,
    lift, ret, console_error, modify, note_request, note_error.
  simpl.
  destruct (network st _) as [r|]; simpl; [|done].
  destruct (ok r); simpl; [|done].
  by destruct (JSON.parse (body r)).
Qed.

Lemma loadJSON_requests filename st :
  requests (snd (loadJSON filename st))
  = requests st ++ [url_for (now st) filename].
Proof.
  rewrite loadJSON_unfold. simpl.
  destruct (network st _) as [r|]; [|done].
  destruct (ok r); [|done]. by destruct (JSON.parse (body r)).
Qed.

Lemma loadJSON_content filename st :
  content (snd (loadJSON filename st)) = content st.
Proof.
  rewrite loadJSON_unfold. simpl.
  destruct (network st _) as [r|]; [|done].
  destruct (ok r); [|done]. by destruct (JSON.parse (body r)).
Qed.

Lemma loadJSON_returns filename st :
  exists v, fst (loadJSON filename st) = Ok v.
Proof.
  rewrite loadJSON_unfold. simpl.
  destruct (network st _) as [r|]; [|by eexists].
  destruct (ok r); [|by eexists].
  destruct (JSON.parse (body r)); by eexists.
Qed.

(** [loadContent] once the content is there: no request. *)
Lemma loadContent_cached st :
  truthy (content st) = true ->
  loadContent st
  = (Ok (content st),
     match window st with
     | Some _ => set_window (Some (content st)) st
     | None => st
     end).
Proof.
  intros Ht. unfold loadContent, mbind, gets, modify, ret. simpl.
  rewrite Ht. simpl. by destruct (window st).
Qed.

(** [loadContent] while there is no content yet: one [loadJSON]. *)
Lemma loadContent_first st :
  truthy (content st) = false ->
  loadContent st
  = let r := loadJSON "content.json" st in
    let v := default VUndefined
               (match fst r with Ok v => Some v | Throw _ => None end) in
    let st1 := set_content v (snd r) in
    (Ok v,
     match window st1 with
     | Some _ => set_window (Some v) st1
     | None => st1
     end).
Proof.
  intros Ht. unfold loadContent. unfold mbind at 1, gets at 1. simpl.
  rewrite Ht. simpl.
  destruct (loadJSON_returns "content.json" st) as [v Hv].
  unfold mbind, gets, modify.
  destruct (loadJSON "content.json" st) as [[v'|e] st1]; simpl in *; [|done].
  by destruct (window st1).
Qed.

End LoaderFacts.

(** ** Claims about the content loader *)
Section LoaderClaims.
Import JS Eff Loader.

(** C8. [loadJSON(name)] always returns; when the fetch fails or the body
    is not JSON it returns an empty mapping for [content.json] and an
    empty sequence for every other name. *)
Theorem loadJSON_never_raises (filename : string) (st : state) :
  (exists v, fst (loadJSON filename st) = Ok v)
  /\ (fails st filename ->
      (filename = "content.json" ->
       fst (loadJSON filename st) = Ok (VObj []))
      /\ (filename <> "content.json" ->
          fst (loadJSON filename st) = Ok (VArr []))).
Proof.
  split; [apply loadJSON_returns|].
  intros Hf.
  assert (Hfb : fst (loadJSON filename st) = Ok (fallback filename)).
  { rewrite loadJSON_unfold. unfold fails in Hf. simpl.
    destruct (network st _) as [r|]; [|done].
    destruct Hf as [-> | [e ->]]; [done|]. by destruct (ok r). }
  rewrite Hfb. unfold fallback. split.
  - by intros ->.
  - intros Hn. by apply String.eqb_neq in Hn as ->.
Qed.

Lemma loadJSON_never_raises_witness :
  (fails started "mods.json" /\ fails started "tips.json"
   /\ fails (construct (fun _ => None) 17 None) "content.json")
  /\ fst (loadJSON "mods.json" started) = Ok (VArr [])
  /\ fst (loadJSON "tips.json" started) = Ok (VArr [])
  /\ fst (loadJSON "content.json" (construct (fun _ => None) 17 None))
     = Ok (VObj []).
Proof.
  assert (H1 : fails started "mods.json").
  { vm_compute. right. by exists SyntaxError. }
  assert (H2 : fails started "tips.json") by (vm_compute; exact I).
  assert (H3 : fails (construct (fun _ => None) 17 None) "content.json")
    by (vm_compute; exact I).
  split; [exact (conj H1 (conj H2 H3))|].
  split; [|split].
  - refine (proj2 (proj2 (loadJSON_never_raises "mods.json" started) H1) _).
    discriminate.
  - refine (proj2 (proj2 (loadJSON_never_raises "tips.json" started) H2) _).
    discriminate.
  - exact (proj1 (proj2 (loadJSON_never_raises "content.json" _) H3)
             eq_refl).
Defined.

Lemma perform_content c st :
  truthy (content st) = true ->
  content (snd (perform c st)) = content st
  /\ length (requests (snd (perform c st)))
     = (length (requests st) + fetches c)%nat.
Proof.
  intros Ht. destruct c; simpl.
  - rewrite (loadContent_cached _ Ht). simpl.
    destruct (window st); simpl; split; by try lia.
  - unfold loadMods. rewrite loadJSON_content, loadJSON_requests.
    rewrite length_app. done.
  - unfold loadTools. rewrite loadJSON_content, loadJSON_requests.
    rewrite length_app. done.
  - unfold loadTips. rewrite loadJSON_content, loadJSON_requests.
    rewrite length_app. done.
Qed.

Lemma after_calls_content cs : forall st,
  truthy (content st) = true ->
  content (after_calls cs st) = content st
  /\ length (requests (after_calls cs st))
     = (length (requests st) + sum_list (map fetches cs))%nat.
Proof.
  induction cs as [|c cs IH]; intros st Ht; simpl; [split; [done|lia]|].
  destruct (perform_content c st Ht) as [Hc Hr].
  destruct (IH (snd (perform c st))) as [Hc' Hr']; [by rewrite Hc|].
  rewrite Hc', Hr', Hc, Hr. split; [done|lia].
Qed.

(** C9. Once a [loadContent()] call has returned its value (a mapping, or
    anything else truthy), every later [loadContent()] call returns that
    same value and makes no request, whatever loader calls came in
    between; each [loadMods()], [loadTools()] and [loadTips()] call makes
    one request, every time. *)
Theorem loadContent_memoizes (st0 st1 : state) (v : value)
    (cs : list call) :
  truthy (content st0) = false ->
  loadContent st0 = (Ok v, st1) ->
  truthy v = true ->
  let st := after_calls cs st1 in
  fst (loadContent st) = Ok v
  /\ requests (snd (loadContent st)) = requests st
  /\ length (requests st)
     = (length (requests st1) + sum_list (map fetches cs))%nat
  /\ (forall c, c <> Content ->
      length (requests (snd (perform c st)))
      = S (length (requests st))).
Proof.
  intros H0 H1 Hv st.
  assert (Hc1 : content st1 = v).
  { rewrite (loadContent_first _ H0) in H1. simpl in H1.
    injection H1 as Hval Hst. rewrite <- Hst, Hval.
    by destruct (window _). }
  assert (Ht1 : truthy (content st1) = true) by (by rewrite Hc1).
  destruct (after_calls_content cs st1 Ht1) as [Hc Hr]. fold st in Hc, Hr.
  assert (Ht : truthy (content st) = true) by (by rewrite Hc).
  rewrite (loadContent_cached _ Ht). simpl.
  split; [by rewrite Hc, Hc1|].
  split; [by destruct (window st)|].
  split; [done|].
  intros c Hne. destruct (perform_content c st Ht) as [_ Hl].
  rewrite Hl. destruct c; simpl; try lia. done.
Qed.

Lemma loadContent_memoizes_witness :
  truthy (content started) = false
  /\ loadContent started = (Ok (VObj []), snd (loadContent started))
  /\ truthy (VObj []) = true
  /\ fst (loadContent
            (after_calls [Mods; Content; Tips] (snd (loadContent started))))
     = Ok (VObj []).
Proof.
  assert (H1 : loadContent started
               = (Ok (VObj []), snd (loadContent started)))
    by (vm_compute; reflexivity).
  split; [reflexivity|]. split; [exact H1|]. split; [reflexivity|].
  exact (proj1 (loadContent_memoizes started _ (VObj [])
                  [Mods; Content; Tips] eq_refl H1 eq_refl)).
Defined.

(** A [content.json] that holds a falsy document is asked for again on
    every call: [if (!this.content)] cannot tell it from nothing. *)
Example falsy_content_is_fetched_again :
  let net url :=
    if String.eqb url (url_for 17 "content.json")
    then Some {| ok := true; body := "null" |} else None in
  let st1 := snd (loadContent (construct net 17 None)) in
  fst (loadContent st1) = Ok VNull
  /\ length (requests (snd (loadContent st1))) = 2%nat.
Proof. split; vm_compute; reflexivity. Qed.

End LoaderClaims.

(** * Further properties of the two scripts *)

(** ** Each mutation in one equation *)
Section CartSteps.
Import JS Eff Browser Cart.
Local Open Scope eff_scope.

Lemma addItem_accepted now item entry st :
  entry_of now item = Ok entry ->
  addItem now item st
  = added_notice item (committed (cart st ++ [entry]) st).
Proof.
  intros He. unfold addItem.
  apply entry_of_inv in He
    as (id & name & price0 & price & d & t & Hid & Hn & Hp0 & Hp & Hd & Ht
        & ->).
  unfold mbind at 1, lift at 1. rewrite Hid.
  unfold mbind at 1, lift at 1. rewrite Hn.
  unfold mbind at 1, lift at 1. rewrite Hp0.
  unfold mbind at 1, lift at 1. rewrite Hp.
  unfold mbind at 1, lift at 1. rewrite Hd.
  unfold mbind at 1, lift at 1. rewrite Ht.
  unfold mbind at 1, modify at 1. cbn [fst snd].
  rewrite after_change. unfold added_notice. rewrite Hn. reflexivity.
Qed.

Lemma addItem_rejected now item st :
  accepted item = false -> snd (addItem now item st) = st.
Proof.
  intros Ha. unfold addItem.
  destruct item as [| |b|n|s|elems|props]; try done.
  simpl in Ha. unfold mbind, lift. simpl.
  by destruct (parseFloat _).
Qed.

Lemma removeItem_in_range_run index st :
  in_range index (cart st) = true ->
  removeItem index st
  = removed_notice (default VUndefined (cart st !! Z.to_nat index))
      (committed (delete (Z.to_nat index) (cart st)) st).
Proof.
  intros H. unfold removeItem. unfold mbind at 1, gets at 1. cbn [fst snd].
  unfold in_range in H. rewrite H.
  unfold mbind at 1, gets at 1. cbn [fst snd].
  unfold mbind at 1, modify at 1. cbn [fst snd].
  rewrite after_change. reflexivity.
Qed.

Lemma clearCart_run st :
  clearCart st = showNotification "Cart cleared" (committed [] st).
Proof.
  unfold clearCart. unfold mbind at 1, modify at 1. cbn [fst snd].
  rewrite after_change. reflexivity.
Qed.

Lemma added_notice_keeps item st :
  cart (snd (added_notice item st)) = cart st
  /\ store (snd (added_notice item st)) = store st
  /\ cart_badge (view (snd (added_notice item st))) = cart_badge (view st).
Proof.
  unfold added_notice, mbind, lift.
  by destruct (bind (get item "name") to_string).
Qed.

Lemma removed_notice_keeps item st :
  cart (snd (removed_notice item st)) = cart st
  /\ store (snd (removed_notice item st)) = store st
  /\ cart_badge (view (snd (removed_notice item st))) = cart_badge (view st).
Proof.
  unfold removed_notice, mbind, lift.
  by destruct (bind (get item "name") to_string).
Qed.

Lemma committed_cart items st : cart (committed items st) = items.
Proof.
  unfold committed.
  by rewrite keeps_cart_updateCartDisplay, keeps_cart_saveCart.
Qed.

Lemma keeps_store_updateCartDisplay : keeps store updateCartDisplay.
Proof.
  unfold updateCartDisplay, getItemCount.
  repeat (frame_step; intros). by destruct (cart_badge (view st)).
Qed.

Lemma keeps_store_closeCart : keeps store closeCart.
Proof. apply keeps_modify. intros st. by destruct (cart_modal (view st)). Qed.

Lemma committed_store items st :
  store (committed items st) = store (snd (saveCart (set_cart items st))).
Proof. unfold committed. by rewrite keeps_store_updateCartDisplay. Qed.

End CartSteps.

(** ** The store follows the list *)
Section CartStore.
Import JS Eff Browser Cart.
Local Open Scope eff_scope.

Lemma saveCart_unlimited st :
  quota (store st) = None ->
  saveCart st
  = (Ok tt,
     set_store
       {| entries := <[storageKey := cart_text (cart st)]> (entries (store st));
          quota := None |}
       st).
Proof.
  intros Hq. rewrite saveCart_fits; [by rewrite Hq|].
  unfold fits. by rewrite Hq.
Qed.


Lemma committed_unlimited items st :
  quota (store st) = None ->
  store_synced (committed items st)
  /\ quota (store (committed items st)) = None.
Proof.
  intros Hq. unfold store_synced.
  rewrite committed_cart, committed_store.
  rewrite saveCart_unlimited by done. cbn [snd store set_store set_cart cart].
  unfold getItem. cbn [entries quota]. by rewrite lookup_insert_eq.
Qed.

Lemma step_store_synced st o :
  quota (store st) = None ->
  quota (store (step st o)) = None
  /\ (store_synced st \/ cart (step st o) <> cart st ->
      store_synced (step st o)).
Proof.
  intros Hq. destruct o as [now item|index|]; cbn [step].
  - destruct (accepted item) eqn:Ha.
    + apply (entry_of_accepted now) in Ha as [entry He].
      rewrite (addItem_accepted _ _ _ _ He).
      destruct (added_notice_keeps item (committed (cart st ++ [entry]) st))
        as (Hc & Hs & _).
      destruct (committed_unlimited (cart st ++ [entry]) st Hq) as [Hy Hq'].
      unfold store_synced. rewrite Hc, Hs. by split.
    + rewrite addItem_rejected by done. split; [done|]. by intros [?|?].
  - destruct (in_range index (cart st)) eqn:Hr.
    + rewrite (removeItem_in_range_run _ _ Hr).
      destruct (removed_notice_keeps
                  (default VUndefined (cart st !! Z.to_nat index))
                  (committed (delete (Z.to_nat index) (cart st)) st))
        as (Hc & Hs & _).
      destruct (committed_unlimited (delete (Z.to_nat index) (cart st)) st Hq)
        as [Hy Hq'].
      unfold store_synced. rewrite Hc, Hs. by split.
    + rewrite removeItem_out_of_range by done. split; [done|].
      by intros [?|?].
  - rewrite clearCart_run.
    destruct (committed_unlimited [] st Hq) as [Hy Hq']. by split.
Qed.

Lemma run_ops_store_synced ops : forall st,
  quota (store st) = None ->
  store_synced st ->
  quota (store (run_ops ops st)) = None /\ store_synced (run_ops ops st).
Proof.
  induction ops as [|o ops IH]; intros st Hq Hs; [done|].
  cbn [run_ops fold_left]. destruct (step_store_synced st o Hq) as [Hq' Hs'].
  apply IH; [done|]. apply Hs'. by left.
Qed.

Lemma construct_synced s p items :
  getItem storageKey s = Some (cart_text items) ->
  forallb storable items = true ->
  exists st, construct s p = Some st /\ cart st = items /\ store st = s.
Proof.
  intros Hg Hs. unfold construct. rewrite loadCart_unfold.
  cbn [store]. rewrite Hg.
  destruct (cart_text_parse _ Hs) as [-> ->].
  eexists. split; [reflexivity|].
  rewrite keeps_cart_updateCartDisplay, keeps_store_updateCartDisplay.
  done.
Qed.

End CartStore.

Section CartStoreProperties.
Import JS Eff Browser Cart.
Local Open Scope eff_scope.

(** X1. With no storage limit, every call that changes the list leaves
    the store holding the text of the new list, and a store that holds
    the text of the list keeps doing so over any sequence of [addItem],
    [removeItem] and [clearCart] calls. *)
Theorem store_follows_cart (ops : list op) (st : state) :
  quota (store st) = None ->
  (forall o, cart (step st o) <> cart st -> store_synced (step st o))
  /\ (store_synced st -> store_synced (run_ops ops st)).
Proof.
  intros Hq. split.
  - intros o Hne. apply (step_store_synced st o Hq). by right.
  - intros Hs. by apply run_ops_store_synced.
Qed.

Lemma two_items_synced : store_synced two_items.
Proof. vm_compute. reflexivity. Defined.

Lemma store_follows_cart_witness :
  quota (store two_items) = None
  /\ store_synced two_items
  /\ store_synced (run_ops [Remove 0; Add 5 refund; Clear] two_items).
Proof.
  split; [reflexivity|]. split; [exact two_items_synced|].
  exact (proj2 (store_follows_cart [Remove 0; Add 5 refund; Clear] two_items
                  eq_refl) two_items_synced).
Defined.

(** X2. Persistence across page loads: with no storage limit, after any
    sequence of cart calls on a cart whose store was in step, a new
    [ShoppingCart] built on the same store starts with the same list,
    provided JSON text holds the items as they are. *)
Theorem reload_restores_cart (ops : list op) (st : state) (p : page) :
  quota (store st) = None ->
  store_synced st ->
  forallb storable (cart (run_ops ops st)) = true ->
  exists st',
    construct (store (run_ops ops st)) p = Some st'
    /\ cart st' = cart (run_ops ops st).
Proof.
  intros Hq Hs Hst.
  destruct (run_ops_store_synced ops st Hq Hs) as [_ Hsync].
  destruct (construct_synced _ p _ Hsync Hst) as (st' & Hc & Hcart & _).
  by exists st'.
Qed.

Lemma reload_restores_cart_witness :
  quota (store two_items) = None
  /\ store_synced two_items
  /\ forallb storable (cart (run_ops [Remove 0; Add 5 refund] two_items))
     = true
  /\ exists st',
       construct (store (run_ops [Remove 0; Add 5 refund] two_items))
         blank_page = Some st'
       /\ cart st' = cart (run_ops [Remove 0; Add 5 refund] two_items).
Proof.
  assert (H : forallb storable
                (cart (run_ops [Remove 0; Add 5 refund] two_items)) = true)
    by (vm_compute; reflexivity).
  split; [reflexivity|]. split; [exact two_items_synced|]. split; [exact H|].
  exact (reload_restores_cart [Remove 0; Add 5 refund] two_items blank_page
           eq_refl two_items_synced H).
Defined.




End CartStoreProperties.

(** ** The badge, the entries and the total over runs *)
Section CartInvariants.
Import JS Eff Browser Cart.
Local Open Scope eff_scope.

Lemma updateCartDisplay_shows st : badge_shows (snd (updateCartDisplay st)).
Proof.
  unfold badge_shows, updateCartDisplay, mbind, getItemCount, gets, modify.
  cbn [fst snd].
  destruct (cart_badge (view st)) as [b|] eqn:Hb; cbn; [|by rewrite Hb].
  destruct (length (cart st)) as [|n] eqn:Hl; cbn; [split; [done|lia]|].
  done.
Qed.

Lemma committed_shows items st : badge_shows (committed items st).
Proof. apply updateCartDisplay_shows. Qed.

Lemma badge_shows_transfer st st' :
  cart st' = cart st ->
  cart_badge (view st') = cart_badge (view st) ->
  badge_shows st -> badge_shows st'.
Proof. unfold badge_shows. by intros -> ->. Qed.

Lemma step_badge_shows st o : badge_shows st -> badge_shows (step st o).
Proof.
  intros Hb. destruct o as [now item|index|]; cbn [step].
  - destruct (accepted item) eqn:Ha.
    + apply (entry_of_accepted now) in Ha as [entry He].
      rewrite (addItem_accepted _ _ _ _ He).
      destruct (added_notice_keeps item (committed (cart st ++ [entry]) st))
        as (Hc & _ & Hg).
      apply (badge_shows_transfer _ _ Hc Hg), committed_shows.
    + by rewrite addItem_rejected.
  - destruct (in_range index (cart st)) eqn:Hr.
    + rewrite (removeItem_in_range_run _ _ Hr).
      destruct (removed_notice_keeps
                  (default VUndefined (cart st !! Z.to_nat index))
                  (committed (delete (Z.to_nat index) (cart st)) st))
        as (Hc & _ & Hg).
      apply (badge_shows_transfer _ _ Hc Hg), committed_shows.
    + by rewrite removeItem_out_of_range.
  - rewrite clearCart_run.
    apply (badge_shows_transfer (committed [] st)); [done|done|].
    apply committed_shows.
Qed.

Lemma run_ops_badge_shows ops : forall st,
  badge_shows st -> badge_shows (run_ops ops st).
Proof.
  induction ops as [|o ops IH]; intros st Hb; [done|].
  cbn [run_ops fold_left]. by apply IH, step_badge_shows.
Qed.

(** X4. The badge is in step with the cart from the moment the cart is
    built: after [new ShoppingCart()] and any sequence of [addItem],
    [removeItem] and [clearCart] calls, the badge (if the page has one)
    is hidden exactly when the cart is empty and otherwise shows the
    number of items. *)
Theorem badge_follows_cart (s : storage) (p : page) (st : state)
    (ops : list op) :
  construct s p = Some st ->
  badge_shows (run_ops ops st).
Proof.
  intros Hc. apply run_ops_badge_shows.
  unfold construct in Hc.
  destruct (loadCart _) as [[[| | | | |items|]|e] st1]; try done.
  injection Hc as <-. exact (updateCartDisplay_shows (set_cart items st1)).
Qed.

Lemma badge_follows_cart_witness :
  construct (store two_items) blank_page
  = Some (snd (updateCartDisplay
                 (set_cart (cart two_items)
                    {| cart := []; store := store two_items;
                       view := blank_page |})))
  /\ badge_shows
       (run_ops [Remove 0; Remove 0]
          (snd (updateCartDisplay
                  (set_cart (cart two_items)
                     {| cart := []; store := store two_items;
                        view := blank_page |})))).
Proof.
  assert (H : construct (store two_items) blank_page
              = Some (snd (updateCartDisplay
                             (set_cart (cart two_items)
                                {| cart := []; store := store two_items;
                                   view := blank_page |}))))
    by (vm_compute; reflexivity).
  split; [exact H|].
  exact (badge_follows_cart _ _ _ [Remove 0; Remove 0] H).
Defined.

Lemma entry_of_written now item entry :
  entry_of now item = Ok entry -> written_entry entry.
Proof.
  intros He. apply entry_of_inv in He
    as (id & name & price0 & price & d & t & _ & _ & _ & _ & _ & _ & ->).
  eexists _, _, _, _, _. split; [reflexivity|].
  unfold or_else. repeat split.
  - destruct (truthy id) eqn:H; [done|].
    cbn. apply negb_true_iff. reflexivity.
  - by destruct (truthy t) eqn:H.
  - destruct (truthy d) eqn:H; [by left|by right].
Qed.

Lemma step_written st o :
  Forall written_entry (cart st) -> Forall written_entry (cart (step st o)).
Proof.
  intros Hw. destruct o as [now item|index|]; cbn [step].
  - rewrite addItem_cart.
    destruct (entry_of now item) as [entry|e] eqn:He; [|done].
    apply Forall_app. split; [done|].
    apply Forall_singleton. by eapply entry_of_written.
  - destruct (in_range index (cart st)) eqn:Hr.
    + rewrite removeItem_in_range by done. by apply Forall_delete.
    + by rewrite removeItem_out_of_range.
  - by rewrite clearCart_cart.
Qed.

(** X5. A cart that starts empty only ever holds entries as [addItem]
    writes them: after any sequence of calls every item has the five
    fields [id], [name], [price], [description], [type] in that order, a
    Number price, a truthy id and type, and a description that is truthy
    or the empty string. *)
Theorem cart_holds_written_entries (ops : list op) (st : state) :
  cart st = [] ->
  Forall written_entry (cart (run_ops ops st)).
Proof.
  intros He.
  assert (Hw : Forall written_entry (cart st)) by (by rewrite He).
  clear He. revert st Hw.
  induction ops as [|o ops IH]; intros st Hw; [done|].
  cbn [run_ops fold_left]. by apply IH, step_written.
Qed.

Lemma cart_holds_written_entries_witness :
  cart fresh = [] /\ Forall written_entry (cart two_items).
Proof.
  split; [reflexivity|].
  exact (cart_holds_written_entries
           [Add 1730000000000 skill_recovery; Add 1730000000001 map_pack]
           fresh eq_refl).
Defined.

End CartInvariants.

(** ** Totals, clearing twice, and what checkout leaves behind *)
Section CartComposition.
Import JS Eff Browser Cart.
Local Open Scope eff_scope.

(** X6. The total follows the list: on a cart whose prices read as
    Numbers, after [addItem] the total is the old total plus the parsed
    price of the new item (one binary64 addition), after an in-range
    [removeItem] it is the sum of the prices that remain, and after
    [clearCart] it is [0]. *)
Theorem total_follows_cart (st : state) (prices : list number) :
  Forall2 has_price (cart st) prices ->
  (forall now item price0 p,
     get item "price" = Ok price0 ->
     parseFloat price0 = Ok p ->
     fst (getTotal (snd (addItem now item st)))
     = Ok (VNum (Num.add (sum_of prices) p)))
  /\ (forall index,
        0 <= index < Z.of_nat (length (cart st)) ->
        fst (getTotal (snd (removeItem index st)))
        = Ok (VNum (sum_of (delete (Z.to_nat index) prices))))
  /\ fst (getTotal (snd (clearCart st))) = Ok (VNum Num.zero).
Proof.
  intros Hp. split; [|split].
  - intros now item price0 p Hg Hf. unfold getTotal. cbn [fst].
    rewrite addItem_cart.
    assert (Ha : accepted item = true).
    { unfold accepted. destruct item; try done; rewrite Hg; simpl;
        by rewrite Hf. }
    apply (entry_of_accepted now) in Ha as [entry He]. rewrite He.
    apply entry_of_inv in He
      as (id & name & price0' & p' & d & t & _ & _ & Hg' & Hf' & _ & _ & ->).
    rewrite Hg in Hg'. injection Hg' as <-.
    rewrite Hf in Hf'. injection Hf' as <-.
    rewrite (total_of_priced _ (prices ++ [p])).
    + unfold sum_of. by rewrite fold_left_app.
    + apply Forall2_app; [done|].
      constructor; [by apply number_has_price|constructor].
  - intros index Hi. unfold getTotal. cbn [fst].
    rewrite removeItem_in_range by (unfold in_range; lia).
    apply total_of_priced. by apply Forall2_delete.
  - unfold getTotal. cbn [fst]. by rewrite clearCart_cart.
Qed.

Lemma total_follows_cart_witness :
  Forall2 has_price (cart two_items)
    [Num.of_decimal false 499 (-2); Num.of_decimal false 325 (-2)]
  /\ (get refund "price" = Ok (VNum (Num.of_Z (-5)))
      /\ parseFloat (VNum (Num.of_Z (-5))) = Ok (Num.of_Z (-5))
      /\ fst (getTotal (snd (addItem 5 refund two_items)))
         = Ok (VNum (Num.add
                       (sum_of [Num.of_decimal false 499 (-2);
                                Num.of_decimal false 325 (-2)])
                       (Num.of_Z (-5)))))
  /\ (0 <= 1 < Z.of_nat (length (cart two_items))
      /\ fst (getTotal (snd (removeItem 1 two_items)))
         = Ok (VNum (sum_of [Num.of_decimal false 499 (-2)]))).
Proof.
  assert (Hlen : length (cart two_items) = 2%nat) by (vm_compute; reflexivity).
  assert (Hpf : parseFloat (VNum (Num.of_Z (-5))) = Ok (Num.of_Z (-5)))
    by (vm_compute; reflexivity).
  split; [exact two_items_prices|]. split.
  - split; [reflexivity|]. split; [exact Hpf|].
    exact (proj1 (total_follows_cart two_items _ two_items_prices)
             5 refund _ _ eq_refl Hpf).
  - split; [rewrite Hlen; lia|].
    apply (proj1 (proj2 (total_follows_cart two_items _ two_items_prices)) 1).
    rewrite Hlen; lia.
Defined.

(** X7. [clearCart] twice is [clearCart] once: when the store takes the
    text of the empty list, the second call returns the same and leaves
    the whole state (list, store, page) as the first one left it. *)
Theorem clearCart_is_idempotent (st : state) :
  fits (cart_text []) (store st) ->
  clearCart (snd (clearCart st)) = clearCart st.
Proof.
  intros Hfit.
  assert (Hrun : forall st0,
    fits (cart_text []) (store st0) ->
    clearCart st0
    = (Ok tt,
       {| cart := [];
          store := {| entries := <[storageKey := cart_text []]>
                                   (entries (store st0));
                      quota := quota (store st0) |};
          view := set_notification "Cart cleared"
                    (match cart_badge (view st0) with
                     | Some b =>
                         set_badge (Some {| text := text b; hidden := true |})
                           (view st0)
                     | None => view st0
                     end) |})).
  { intros st0 Hf. rewrite clearCart_run. unfold committed.
    rewrite (saveCart_fits (set_cart [] st0)) by done. cbn [snd].
    unfold updateCartDisplay, mbind, getItemCount, gets, modify,
      showNotification.
    cbn [fst snd cart set_cart set_store store view].
    by destruct (cart_badge (view st0)). }
  rewrite (Hrun st Hfit). cbn [snd]. rewrite Hrun.
  - cbn [cart store view entries quota]. rewrite insert_insert_eq.
    destruct st as [c [m q] [bd md ov nt al cs]].
    cbn. by destruct bd.
  - unfold fits in *. cbn [store quota entries].
    by rewrite insert_insert_eq.
Qed.

Lemma clearCart_is_idempotent_witness :
  fits (cart_text []) (store two_items)
  /\ clearCart (snd (clearCart two_items)) = clearCart two_items.
Proof.
  assert (H : fits (cart_text []) (store two_items)) by (vm_compute; exact I).
  split; [exact H|]. exact (clearCart_is_idempotent two_items H).
Defined.

(** X8. What checkout leaves behind: on a cart with items whose prices
    read as Numbers and a store without limit, after [checkout()] the
    store holds the text of the empty list, so that a new [ShoppingCart]
    on it starts empty; the badge is hidden and the cart view, if the
    page has one, is closed. *)
Theorem checkout_leaves_empty (st : state) (prices : list number)
    (p : page) :
  cart st <> [] ->
  Forall2 has_price (cart st) prices ->
  quota (store st) = None ->
  let st' := snd (checkout st) in
  (exists st2, construct (store st') p = Some st2 /\ cart st2 = [])
  /\ badge_shows st'
  /\ cart_modal (view st') = option_map (fun _ => true) (cart_modal (view st))
  /\ (is_Some (cart_modal (view st)) -> body_overflow (view st') = EmptyString).
Proof.
  intros Hne Hp Hq st'. unfold st'.
  rewrite (checkout_nonempty st prices Hne Hp).
  set (st1 := set_view _ st).
  assert (Hq1 : quota (store st1) = None) by done.
  rewrite clearCart_run.
  change (snd (showNotification "Cart cleared" (committed [] st1)))
    with (set_view
            (set_notification "Cart cleared" (view (committed [] st1)))
            (committed [] st1)).
  set (st3 := set_view _ (committed [] st1)).
  destruct (committed_unlimited [] st1 Hq1) as [Hsync _].
  assert (Hc3 : cart st3 = []) by apply committed_cart.
  assert (Hs3 : store_synced st3).
  { unfold store_synced in *. by rewrite Hc3, <- (committed_cart [] st1). }
  assert (Hb3 : badge_shows st3).
  { apply (badge_shows_transfer (committed [] st1)); [done|done|].
    apply committed_shows. }
  assert (Hm3 : cart_modal (view st3) = cart_modal (view st)).
  { unfold st3, committed. cbn [view set_view set_notification cart_modal].
    rewrite saveCart_unlimited by done. cbn [snd].
    unfold updateCartDisplay, mbind, getItemCount, gets, modify.
    cbn [fst snd]. by destruct (cart_badge _). }
  split; [|split; [|split]].
  - rewrite keeps_store_closeCart.
    destruct (construct_synced (store st3) p [] ) as (st2 & H1 & H2 & _);
      [by rewrite <- Hc3|done|].
    by exists st2.
  - apply (badge_shows_transfer st3); [apply keeps_cart_closeCart| |done].
    unfold closeCart, modify. cbn [snd].
    by destruct (cart_modal (view st3)).
  - unfold closeCart, modify. cbn [snd]. rewrite <- Hm3.
    destruct (cart_modal (view st3)) eqn:E; [done|exact E].
  - intros [m Hm]. unfold closeCart, modify. cbn [snd].
    rewrite Hm3, Hm. done.
Qed.

Lemma checkout_leaves_empty_witness :
  cart two_items <> []
  /\ Forall2 has_price (cart two_items)
       [Num.of_decimal false 499 (-2); Num.of_decimal false 325 (-2)]
  /\ quota (store two_items) = None
  /\ exists st2,
       construct (store (snd (checkout two_items))) blank_page = Some st2
       /\ cart st2 = [].
Proof.
  assert (Hne : cart two_items <> []) by (vm_compute; discriminate).
  split; [exact Hne|]. split; [exact two_items_prices|].
  split; [reflexivity|].
  exact (proj1 (checkout_leaves_empty two_items _ blank_page Hne
                  two_items_prices eq_refl)).
Defined.

End CartComposition.

(** ** The cart modal: rows and what stops them *)
Section ViewRows.
Import JS Eff Browser Cart CartView.

Lemma cart_row_showable item index :
  showable item <-> exists row, cart_row item index = Ok row.
Proof.
  unfold showable, cart_row. split.
  - intros (name & description & price & -> & -> & Hp).
    unfold bind at 3. rewrite Hp. cbn. eauto.
  - intros [row H].
    destruct (bind (get item "name") to_string) as [name|] eqn:Hn;
      [|done].
    destruct (bind (get item "description") to_string)
      as [description|] eqn:Hd; [|done].
    cbn in H.
    destruct (get item "price") as [[| | | price | | |]|] eqn:Hp;
      try done.
    by exists name, description, price.
Qed.

Lemma drawable_showable items :
  forallb drawable items = true -> Forall showable items.
Proof.
  intros H. apply List.Forall_forall. intros item Hin.
  apply (cart_row_showable item 0).
  rewrite forallb_forall in H. specialize (H item).
  unfold drawable in H. destruct (cart_row item 0); [eauto|].
  discriminate H. exact Hin.
Qed.

Lemma not_drawable item : drawable item = false -> ~ showable item.
Proof.
  intros H [row Hr]%(cart_row_showable item 0).
  unfold drawable in H. by rewrite Hr in H.
Qed.

Lemma get_throws v key e : get v key = Throw e -> e = TypeError.
Proof. destruct v; cbn; congruence. Qed.

Lemma to_string_throws v : forall e,
  JS.to_string v = Throw e -> e = TypeError.
Proof.
  induction v as [| |b|n|s|elems IH|props IH] using value_ind';
    intros e; cbn; try congruence.
  - match goal with |- bind (?g elems) _ = _ -> _ => set (go := g) end.
    assert (Hgo : forall e', go elems = Throw e' -> e' = TypeError).
    { induction IH as [|x l Hx Hl IHl]; intros e'; cbn; [congruence|].
      assert (Hx' : forall e0,
        match x with
        | VUndefined | VNull => Ok EmptyString
        | _ => JS.to_string x
        end = Throw e0 -> e0 = TypeError).
      { intros e0. destruct x; try congruence; apply Hx. }
      destruct (match x with
                | VUndefined | VNull => Ok EmptyString
                | _ => JS.to_string x
                end) as [sx|ex].
      - cbn. destruct (go l) as [ss|el]; cbn; [congruence|].
        intros [= <-]. by apply IHl.
      - cbn. intros [= <-]. by apply Hx'. }
    destruct (go elems) as [ss|eg]; cbn; [congruence|].
    intros [= <-]. by apply Hgo.
  - destruct (has_own "toString" props); congruence.
Qed.

Lemma toFixed2_throws v e : toFixed2 v = Throw e -> e = TypeError.
Proof. destruct v; cbn; congruence. Qed.

Lemma cart_row_throws item index e :
  cart_row item index = Throw e -> e = TypeError.
Proof.
  unfold cart_row.
  destruct (get item "name") as [name|e1] eqn:Hn; cbn;
    [|intros [= <-]; by eapply get_throws].
  destruct (JS.to_string name) as [sn|e1] eqn:Hsn; cbn;
    [|intros [= <-]; by eapply to_string_throws].
  destruct (get item "description") as [d|e1] eqn:Hd; cbn;
    [|intros [= <-]; by eapply get_throws].
  destruct (JS.to_string d) as [sd|e1] eqn:Hsd; cbn;
    [|intros [= <-]; by eapply to_string_throws].
  destruct (get item "price") as [p|e1] eqn:Hp; cbn;
    [|intros [= <-]; by eapply get_throws].
  destruct (toFixed2 p) as [sp|e1] eqn:Hsp; cbn; [done|].
  intros [= <-]. by eapply toFixed2_throws.
Qed.

(** The loop appends to what the container holds and touches nothing
    else. *)
Lemma forEach_rows items : forall index s l,
  cart_items (dialog s) = Some l ->
  forEach draw_row items index s
  = (fst (rows_until items index),
     set_dialog
       (with_items (l ++ snd (rows_until items index)) (dialog s)) s).
Proof.
  induction items as [|item items IH]; intros index s l Hl.
  - cbn. rewrite app_nil_r. unfold ret. f_equal.
    destruct s as [t d]. destruct d as [ci ct ec]. cbn in *.
    by subst.
  - cbn [forEach rows_until]. unfold mbind at 1, draw_row.
    unfold mbind at 1, lift.
    destruct (cart_row item index) as [row|e].
    + unfold appendChild, modify. rewrite Hl.
      rewrite (IH (S index) _ (l ++ [row])) by done.
      destruct (rows_until items (S index)) as [r rows]. cbn.
      by rewrite <- app_assoc.
    + cbn. rewrite app_nil_r. f_equal.
      destruct s as [t d]. destruct d as [ci ct ec]. cbn in *.
      by subst.
Qed.

Lemma rows_until_showable items : forall index,
  Forall showable items ->
  fst (rows_until items index) = Ok tt
  /\ length (snd (rows_until items index)) = length items
  /\ forall i item,
       items !! i = Some item ->
       exists row,
         snd (rows_until items index) !! i = Some row
         /\ cart_row item (index + i) = Ok row.
Proof.
  induction items as [|item items IH]; intros index Hs.
  - cbn. repeat split. intros i item H. by rewrite lookup_nil in H.
  - apply Forall_cons in Hs as [Hi Hs].
    apply (cart_row_showable _ index) in Hi as [row Hr].
    cbn [rows_until]. rewrite Hr.
    destruct (IH (S index) Hs) as (Hok & Hlen & Hrows).
    destruct (rows_until items (S index)) as [r rows]. cbn in *.
    repeat split; [done|by rewrite Hlen|].
    intros [|i] item' Hi; cbn in *.
    + injection Hi as <-. exists row. by rewrite Nat.add_0_r.
    + destruct (Hrows i item' Hi) as (row' & ? & ?).
      exists row'. split; [done|].
      by replace (index + S i)%nat with (S (index + i))%nat by lia.
Qed.

Lemma rows_until_throws items : forall index item,
  In item items -> ~ showable item ->
  fst (rows_until items index) = Throw TypeError.
Proof.
  induction items as [|x items IH]; intros index item Hin Hn; [done|].
  cbn [rows_until].
  destruct (cart_row x index) as [row|e] eqn:Hr.
  - destruct Hin as [->|Hin].
    + exfalso. apply Hn. apply (cart_row_showable _ index). eauto.
    + specialize (IH (S index) item Hin Hn).
      destruct (rows_until items (S index)) as [r rows]. done.
  - cbn. f_equal. by eapply cart_row_throws.
Qed.

End ViewRows.

(** ** The cart modal: one call in one equation *)
Section ViewRender.
Import JS Eff Browser Cart CartView.

Lemma renderCartModal_absent s :
  cart_items (dialog s) = None -> renderCartModal s = (Ok tt, s).
Proof.
  intros H. unfold renderCartModal, mbind at 1, gets at 1.
  by rewrite H.
Qed.

Lemma renderCartModal_rendered s old :
  cart_items (dialog s) = Some old ->
  renderCartModal s
  = (fst (rendered (cart (this s)) (dialog s)),
     {| this := this s; dialog := snd (rendered (cart (this s)) (dialog s)) |}).
Proof.
  intros Hc. destruct s as [t d]. destruct d as [ci ct ec].
  cbn in Hc. subst ci.
  unfold renderCartModal, rendered.
  unfold mbind at 1, gets at 1. cbn [dialog cart_items this].
  unfold mbind at 1, modify at 1.
  unfold mbind at 1, gets at 1. cbn [dialog cart_items this set_dialog].
  destruct (length (cart t) =? 0)%nat eqn:Hlen.
  - unfold mbind, hide_empty, hide_total, modify, flag_total, flag_empty.
    destruct ec, ct; reflexivity.
  - unfold mbind at 1, hide_empty at 1, modify at 1.
    unfold mbind at 1, hide_total at 1, modify at 1.
    unfold mbind at 1.
    change (fun item index =>
              mbind (lift (cart_row item index))
                (fun itemElement => appendChild itemElement))
      with draw_row.
    match goal with
    | |- context [forEach draw_row _ 0%nat ?s0] =>
        rewrite (forEach_rows (cart t) 0%nat s0 [])
    end.
    2:{ destruct ec, ct; reflexivity. }
    rewrite app_nil_l.
    destruct (rows_until (cart t) 0) as [r rows]. cbn [fst snd].
    destruct r as [[]|e].
    + unfold mbind at 1, gets at 1.
      destruct ct as [b|], ec as [h|]; cbn;
        try reflexivity;
        unfold mbind, lift, modify;
        destruct (total_of (cart t)) as [total|]; cbn; try reflexivity;
        destruct (toFixed2 total); reflexivity.
    + destruct ct, ec; reflexivity.
Qed.

Lemma rendered_this s : this (snd (renderCartModal s)) = this s.
Proof.
  destruct (cart_items (dialog s)) as [old|] eqn:Hc.
  - by rewrite (renderCartModal_rendered s old).
  - by rewrite renderCartModal_absent.
Qed.

Lemma rendered_items items d :
  exists rows, cart_items (snd (rendered items d)) = Some rows.
Proof.
  unfold rendered. destruct (length items =? 0)%nat.
  - unfold flag_total, flag_empty. destruct d as [ci [b|] [h|]]; cbn; eauto.
  - destruct (fst (rows_until items 0)); [|cbn; eauto].
    destruct (cart_total _); [|cbn; eauto].
    destruct (bind _ _); cbn; eauto.
Qed.

Lemma rendered_again items d :
  rendered items (snd (rendered items d)) = rendered items d.
Proof.
  unfold rendered. destruct (length items =? 0)%nat.
  - destruct d as [ci [b|] [h|]]; reflexivity.
  - destruct (fst (rows_until items 0)) as [[]|e].
    + destruct d as [ci [b|] [h|]]; cbn;
        try destruct (bind (total_of items) toFixed2); reflexivity.
    + destruct d as [ci [b|] [h|]]; reflexivity.
Qed.

End ViewRender.

(** ** The cart modal: what it shows *)
Section ViewProperties.
Import JS Eff Browser Cart CartView.

(** The rows of a cart that can be drawn. *)
Lemma rendered_rows (s : shop) (old : list element) :
  cart_items (dialog s) = Some old ->
  Forall showable (cart (this s)) ->
  fst (renderCartModal s) = Ok tt
  /\ exists rows,
       cart_items (dialog (snd (renderCartModal s))) = Some rows
       /\ length rows = length (cart (this s))
       /\ forall i item,
            cart (this s) !! i = Some item ->
            exists row, rows !! i = Some row /\ cart_row item i = Ok row.
Proof.
  intros Hc Hs. rewrite (renderCartModal_rendered s old Hc).
  cbn [fst snd dialog]. unfold rendered.
  destruct (rows_until_showable (cart (this s)) 0 Hs)
    as (Hok & Hlen & Hrows).
  destruct (length (cart (this s)) =? 0)%nat eqn:He.
  - apply Nat.eqb_eq in He.
    destruct (cart (this s)) as [|x l] eqn:Hl; [|done].
    split; [done|]. exists [].
    split; [by destruct (dialog s) as [ci [b|] [h|]]|].
    split; [done|]. intros i item H. by rewrite lookup_nil in H.
  - rewrite Hok.
    assert (Hp : exists prices, Forall2 has_price (cart (this s)) prices).
    { clear -Hs. induction Hs as [|x l (n & d & p & _ & _ & Hp) _ [ps IH]].
      - by exists [].
      - exists (p :: ps). constructor; [by apply number_has_price|done]. }
    destruct Hp as [prices Hp].
    rewrite (total_of_priced _ _ Hp). cbn [bind toFixed2].
    destruct (dialog s) as [ci [b|] [h|]]; cbn;
      (split; [done|]); eexists; (split; [reflexivity|]); by split.
Qed.

(** X9. When the page has the container and every item of the cart can be
    drawn (name and description with string forms, a Number price),
    [renderCartModal] returns normally and the container holds exactly
    one row per item, in the order of the cart, the row at position [i]
    being the one built for the item at index [i]; whatever the container
    held before is gone. *)
Theorem renderCartModal_draws_rows (s : shop) (old : list element) :
  cart_items (dialog s) = Some old ->
  Forall showable (cart (this s)) ->
  fst (renderCartModal s) = Ok tt
  /\ exists rows,
       cart_items (dialog (snd (renderCartModal s))) = Some rows
       /\ length rows = length (cart (this s))
       /\ forall i item,
            cart (this s) !! i = Some item ->
            exists row, rows !! i = Some row /\ cart_row item i = Ok row.
Proof. exact (rendered_rows s old). Qed.

Lemma renderCartModal_draws_rows_witness :
  fst (renderCartModal (at_modal two_items)) = Ok tt
  /\ exists rows,
       cart_items (dialog (snd (renderCartModal (at_modal two_items))))
       = Some rows
       /\ length rows = length (cart (this (at_modal two_items)))
       /\ forall i item,
            cart (this (at_modal two_items)) !! i = Some item ->
            exists row, rows !! i = Some row /\ cart_row item i = Ok row.
Proof.
  apply (renderCartModal_draws_rows (at_modal two_items) []).
  - reflexivity.
  - apply drawable_showable. vm_compute. reflexivity.
Defined.

(** X10. When every item of a non-empty cart can be drawn and the page
    has the total box, [renderCartModal] leaves the box visible with the
    total line reading the sum of the prices, taken from the left from 0,
    with two decimals. *)
Theorem renderCartModal_total (s : shop) (old : list element)
    (box : total_box) (prices : list number) :
  cart_items (dialog s) = Some old ->
  cart_total (dialog s) = Some box ->
  cart (this s) <> [] ->
  Forall showable (cart (this s)) ->
  Forall2 has_price (cart (this s)) prices ->
  cart_total (dialog (snd (renderCartModal s)))
  = Some {| total_hidden := false;
            total_markup :=
              total_line (NumText.to_fixed2 (sum_of prices)) |}.
Proof.
  intros Hc Hb Hne Hs Hp. rewrite (renderCartModal_rendered s old Hc).
  cbn [fst snd dialog]. unfold rendered.
  destruct (rows_until_showable (cart (this s)) 0 Hs) as (Hok & _ & _).
  destruct (length (cart (this s)) =? 0)%nat eqn:He.
  { apply Nat.eqb_eq in He. by destruct (cart (this s)). }
  rewrite Hok, (total_of_priced _ _ Hp). cbn [bind toFixed2].
  destruct (dialog s) as [ci ct [h|]]; cbn in Hb; subst ct; reflexivity.
Qed.

Lemma renderCartModal_total_witness :
  cart_total (dialog (snd (renderCartModal (at_modal two_items))))
  = Some {| total_hidden := false;
            total_markup :=
              total_line
                (NumText.to_fixed2
                   (sum_of [Num.of_decimal false 499 (-2);
                            Num.of_decimal false 325 (-2)])) |}
  /\ NumText.to_fixed2
       (sum_of [Num.of_decimal false 499 (-2);
                Num.of_decimal false 325 (-2)]) = "8.24"%string.
Proof.
  split; [|vm_compute; reflexivity].
  apply (renderCartModal_total (at_modal two_items) []
           {| total_hidden := true; total_markup := EmptyString |}).
  - reflexivity.
  - reflexivity.
  - vm_compute. discriminate.
  - apply drawable_showable. vm_compute. reflexivity.
  - exact two_items_prices.
Defined.

(** X11. When the page has the container, [renderCartModal] leaves, however
    it ends, the empty-cart message hidden exactly when the cart has
    items and the total box hidden exactly when it has none (each where
    the page has the element): the two are never visible together. *)
Theorem renderCartModal_visibility (s : shop) (old : list element) :
  cart_items (dialog s) = Some old ->
  empty_cart (dialog (snd (renderCartModal s)))
  = (fun _ => negb (length (cart (this s)) =? 0)%nat)
      <$> empty_cart (dialog s)
  /\ total_hidden <$> cart_total (dialog (snd (renderCartModal s)))
     = (fun _ => (length (cart (this s)) =? 0)%nat)
         <$> cart_total (dialog s).
Proof.
  intros Hc. rewrite (renderCartModal_rendered s old Hc).
  cbn [fst snd dialog]. unfold rendered.
  destruct (length (cart (this s)) =? 0)%nat.
  - by destruct (dialog s) as [ci [b|] [h|]].
  - destruct (fst (rows_until (cart (this s)) 0)) as [[]|e].
    + destruct (dialog s) as [ci [b|] [h|]]; cbn;
        try destruct (bind (total_of (cart (this s))) toFixed2); done.
    + by destruct (dialog s) as [ci [b|] [h|]].
Qed.

Lemma renderCartModal_visibility_witness :
  empty_cart (dialog (snd (renderCartModal (at_modal revisited))))
  = Some true
  /\ total_hidden
       <$> cart_total (dialog (snd (renderCartModal (at_modal revisited))))
     = Some false.
Proof.
  assert (Hl : length (cart revisited) = 1%nat) by (vm_compute; reflexivity).
  pose proof (renderCartModal_visibility (at_modal revisited) [] eq_refl)
    as H.
  cbn [at_modal this dialog closed_dialog empty_cart cart_total fmap
       option_fmap option_map] in H.
  rewrite Hl in H. exact H.
Defined.

(** X12. When the page has the container and some item of the cart cannot
    be drawn -- its price is not a Number, or its name or description has
    no string form -- [openCart] throws a [TypeError]: the page is left
    as it was, so the modal is not shown, and the total line keeps the
    text it had. *)
Theorem openCart_stops_at_undrawable (s : shop) (old : list element)
    (item : value) :
  cart_items (dialog s) = Some old ->
  In item (cart (this s)) ->
  ~ showable item ->
  fst (openCart s) = Throw TypeError
  /\ this (snd (openCart s)) = this s
  /\ total_markup <$> cart_total (dialog (snd (openCart s)))
     = total_markup <$> cart_total (dialog s).
Proof.
  intros Hc Hin Hn. unfold openCart, mbind.
  rewrite (renderCartModal_rendered s old Hc). unfold rendered.
  destruct (length (cart (this s)) =? 0)%nat eqn:He.
  { apply Nat.eqb_eq in He. by destruct (cart (this s)). }
  rewrite (rows_until_throws _ 0 item Hin Hn). cbn.
  repeat split. by destruct (dialog s) as [ci [b|] [h|]].
Qed.

Lemma openCart_stops_at_undrawable_witness :
  cart revisited
  = [VObj [("id", VStr "item-1730000000000"); ("name", VStr "Mystery Box");
           ("price", VNull); ("description", VStr EmptyString);
           ("type", VStr "product")]]
  /\ fst (openCart (at_modal revisited)) = Throw TypeError
  /\ this (snd (openCart (at_modal revisited))) = revisited
  /\ total_markup <$> cart_total (dialog (snd (openCart (at_modal revisited))))
     = Some EmptyString.
Proof.
  assert (Hc : cart revisited
    = [VObj [("id", VStr "item-1730000000000");
             ("name", VStr "Mystery Box");
             ("price", VNull); ("description", VStr EmptyString);
             ("type", VStr "product")]]) by (vm_compute; reflexivity).
  split; [exact Hc|].
  apply (openCart_stops_at_undrawable (at_modal revisited) []
           (VObj [("id", VStr "item-1730000000000");
                  ("name", VStr "Mystery Box");
                  ("price", VNull); ("description", VStr EmptyString);
                  ("type", VStr "product")])).
  - reflexivity.
  - cbn [at_modal this]. rewrite Hc. left. reflexivity.
  - apply not_drawable. vm_compute. reflexivity.
Defined.

(** X13. Drawing the modal again changes nothing: a second
    [renderCartModal] ends as the first did and leaves the modal as the
    first left it, so rows are never duplicated. *)
Theorem renderCartModal_twice (s : shop) :
  renderCartModal (snd (renderCartModal s)) = renderCartModal s.
Proof.
  destruct (cart_items (dialog s)) as [old|] eqn:Hc.
  - rewrite (renderCartModal_rendered s old Hc). cbn [snd].
    destruct (rendered_items (cart (this s)) (dialog s)) as [rows Hr].
    rewrite (renderCartModal_rendered
               {| this := this s;
                  dialog := snd (rendered (cart (this s)) (dialog s)) |}
               rows Hr).
    cbn [this dialog].
    by rewrite rendered_again.
  - rewrite (renderCartModal_absent s Hc). cbn [snd].
    by rewrite (renderCartModal_absent s Hc).
Qed.

End ViewProperties.

(** ** The cart modal after a run of calls *)
Section ViewSession.
Import JS Eff Browser Cart CartView.

Lemma falsy_has_text v : truthy v = false -> exists s, JS.to_string v = Ok s.
Proof.
  destruct v as [| |b|n|s|elems|props]; cbn; try done; eauto.
Qed.

Lemma step_showable st o :
  presentable o = true ->
  Forall showable (cart st) -> Forall showable (cart (step st o)).
Proof.
  intros Hp Hs. destruct o as [now item|index|]; cbn [step].
  - rewrite addItem_cart.
    destruct (entry_of now item) as [entry|e] eqn:He; [|done].
    apply Forall_app. split; [done|]. apply Forall_singleton.
    assert (Ha : accepted item = true)
      by (apply (entry_of_accepted now); eauto).
    cbn in Hp. rewrite Ha in Hp. cbn in Hp.
    apply andb_true_iff in Hp as [Hn Hd].
    apply entry_of_inv in He
      as (id & name & price0 & price & d & t
          & _ & Hname & _ & _ & Hdesc & _ & ->).
    unfold has_text in Hn, Hd. rewrite Hname in Hn. rewrite Hdesc in Hd.
    cbn in Hn, Hd.
    destruct (JS.to_string name) as [sn|] eqn:Hsn; [|done].
    destruct (JS.to_string d) as [sd|] eqn:Hsd; [|done].
    unfold showable. cbn. rewrite Hsn. unfold or_else.
    destruct (truthy d).
    + rewrite Hsd. by eexists _, _, _.
    + cbn. by eexists _, _, _.
  - destruct (in_range index (cart st)) eqn:Hr.
    + rewrite removeItem_in_range by done. by apply Forall_delete.
    + by rewrite removeItem_out_of_range.
  - by rewrite clearCart_cart.
Qed.

Lemma run_ops_showable ops : forall st,
  Forall (fun o => presentable o = true) ops ->
  Forall showable (cart st) -> Forall showable (cart (run_ops ops st)).
Proof.
  induction ops as [|o ops IH]; intros st Hp Hs; [done|].
  apply Forall_cons in Hp as [Ho Hp].
  cbn. apply IH; [done|]. by apply step_showable.
Qed.

(** X14. A cart that can be drawn stays so through any sequence of
    [addItem], [removeItem] and [clearCart] calls in which every item
    that gets as far as being added has a name and a description with
    string forms; on a page with the container [openCart] then returns
    normally and leaves the modal, where the page has one, shown, with
    one row per item. *)
Theorem openCart_after_calls (ops : list op) (st : state) (d : modal)
    (old : list element) :
  cart_items d = Some old ->
  Forall showable (cart st) ->
  Forall (fun o => presentable o = true) ops ->
  let s := {| this := run_ops ops st; dialog := d |} in
  fst (openCart s) = Ok tt
  /\ cart_modal (view (this (snd (openCart s))))
     = (fun _ => false) <$> cart_modal (view (run_ops ops st))
  /\ (length <$> cart_items (dialog (snd (openCart s))))
     = Some (length (cart (run_ops ops st))).
Proof.
  intros Hc Hs Hp s.
  pose proof (run_ops_showable ops st Hp Hs) as Hs'.
  destruct (rendered_rows s old Hc Hs')
    as (Hok & rows & Hrows & Hlen & _).
  pose proof (rendered_this s) as Ht.
  unfold openCart, mbind.
  destruct (renderCartModal s) as [r s'] eqn:Hr. cbn in Hok, Hrows, Ht.
  subst r. unfold modify. cbn [fst snd].
  change (this s) with (run_ops ops st) in Hlen.
  rewrite <- Ht in Hlen |- *.
  destruct (cart_modal (view (this s'))) eqn:Hm; cbn.
  - rewrite Hrows. cbn. by rewrite Hlen.
  - rewrite Hm, Hrows. cbn. by rewrite Hlen.
Qed.

Lemma openCart_after_calls_witness :
  let s :=
    {| this :=
         run_ops [Add 1730000000000 skill_recovery;
                  Add 1730000000001 map_pack; Remove 0] fresh;
       dialog := closed_dialog |} in
  fst (openCart s) = Ok tt
  /\ cart_modal (view (this (snd (openCart s))))
     = (fun _ => false)
         <$> cart_modal
               (view (run_ops [Add 1730000000000 skill_recovery;
                               Add 1730000000001 map_pack; Remove 0] fresh))
  /\ (length <$> cart_items (dialog (snd (openCart s))))
     = Some (length
               (cart (run_ops [Add 1730000000000 skill_recovery;
                               Add 1730000000001 map_pack; Remove 0]
                        fresh))).
Proof.
  assert (H1 : Forall showable (cart fresh)) by apply Forall_nil_2.
  assert (H2 : Forall (fun o => presentable o = true)
                 [Add 1730000000000 skill_recovery;
                  Add 1730000000001 map_pack; Remove 0]).
  { repeat (apply Forall_cons_2; [vm_compute; reflexivity|]).
    apply Forall_nil_2. }
  exact (openCart_after_calls _ fresh closed_dialog [] eq_refl H1 H2).
Defined.

End ViewSession.

(** ** Strings cut at a separator *)
Section SplitFacts.

Lemma split_nonempty sep s :
  exists piece pieces, Str.split sep s = piece :: pieces.
Proof.
  induction s as [|c s (piece & pieces & IH)]; cbn; [eauto|].
  destruct (decide (c = sep)); [eauto|]. rewrite IH. eauto.
Qed.

Lemma split_app sep p q :
  Str.split sep (p ++ String sep q)%string
  = Str.split sep p ++ Str.split sep q.
Proof.
  induction p as [|c p IH].
  - change (EmptyString ++ String sep q)%string with (String sep q).
    cbn [Str.split]. by rewrite decide_True.
  - change (String c p ++ String sep q)%string
      with (String c (p ++ String sep q)%string).
    cbn [Str.split]. rewrite IH.
    destruct (decide (c = sep)); [done|].
    by destruct (split_nonempty sep p) as (piece & pieces & ->).
Qed.

End SplitFacts.

(** ** The navigation links *)
Section NavFacts.
Import JS Nav.

Lemma currentPage_nonempty pathname : currentPage pathname <> EmptyString.
Proof.
  unfold currentPage.
  destruct (default EmptyString (last (Str.split "/" pathname)))
    as [|c s]; done.
Qed.

Lemma equals_Some s attribute : equals s attribute = true <-> attribute = Some s.
Proof.
  destruct attribute as [text|]; cbn; [|done].
  rewrite String.eqb_eq. split; [by intros ->|by intros [= ->]].
Qed.

(** X23. After [setActiveNav] the links are the same links in the same
    order, and a link is active exactly when its [href] is the name of the
    current page, whatever was active before; that name is never empty, so
    the second test of the script never decides. *)
Theorem setActiveNav_marks (pathname : string) (navLinks : list link) :
  Forall2 (marked_for (currentPage pathname)) navLinks
    (setActiveNav pathname navLinks)
  /\ currentPage pathname <> EmptyString.
Proof.
  split; [|apply currentPage_nonempty].
  unfold setActiveNav. induction navLinks as [|l links IH]; [constructor|].
  cbn [map]. constructor; [|exact IH].
  unfold marked_for.
  assert (He : String.eqb (currentPage pathname) EmptyString = false).
  { apply String.eqb_neq, currentPage_nonempty. }
  rewrite He, andb_false_l, orb_false_r.
  destruct (equals (currentPage pathname) (href l)) eqn:Hi; cbn.
  - split; [done|]. split; [|done]. intros _. by apply equals_Some.
  - split; [done|]. split; [done|].
    intros H%equals_Some. by rewrite H in Hi.
Qed.

(** X24. The current page is the last segment of the path, and
    [index.html] when the path ends in a slash. *)
Theorem currentPage_last_segment (directory name : string) :
  segment name ->
  currentPage (directory ++ "/" ++ name)
  = if String.eqb name EmptyString then "index.html"%string else name.
Proof.
  unfold segment, currentPage. intros Hs.
  change (directory ++ "/" ++ name)%string
    with (directory ++ String "/"%char name)%string.
  rewrite split_app, Hs, last_snoc. cbn.
  by destruct name.
Qed.

Lemma currentPage_last_segment_witness :
  segment "mods.html"
  /\ currentPage ("/shop" ++ "/" ++ "mods.html") = "mods.html"%string.
Proof.
  assert (H : segment "mods.html") by reflexivity.
  split; [exact H|].
  exact (currentPage_last_segment "/shop" "mods.html" H).
Defined.

End NavFacts.

(** ** Paths into the content *)
Section PathFacts.
Import JS Eff Loader Site.
Variable builtin : value -> string -> bool.

Lemma walk_unknown keys :
  fold_left (fun current key => current ≫= (fun c => member builtin c key))
    keys None = None.
Proof. by induction keys. Qed.

Lemma walk_nothing keys v :
  v = VUndefined \/ v = VNull ->
  fold_left (fun current key => current ≫= (fun c => member builtin c key))
    keys (Some v)
  = Some (match keys with [] => v | _ => VUndefined end).
Proof.
  revert v. induction keys as [|key keys IH]; intros v Hv; [done|].
  cbn. replace (member builtin v key) with (Some VUndefined)
    by (by destruct Hv as [-> | ->]).
  rewrite IH by by left. by destruct keys.
Qed.

Lemma getNestedValue_app obj p q :
  getNestedValue builtin obj (p ++ "." ++ q)
  = getNestedValue builtin obj p
      ≫= (fun v => getNestedValue builtin v q).
Proof.
  unfold getNestedValue.
  change (p ++ "." ++ q)%string with (p ++ String "."%char q)%string.
  rewrite split_app, fold_left_app.
  destruct (fold_left _ (Str.split "." p) (Some obj)) as [v|]; [done|].
  apply walk_unknown.
Qed.

End PathFacts.

Section PathProperties.
Import JS Eff Loader Site.

(** X15. Paths compose: looking up [p.q] is looking up [p] and then [q]
    in what was found, whatever the two paths and the object are. *)
Theorem getNestedValue_composes (builtin : value -> string -> bool)
    (obj : value) (p q : string) :
  getNestedValue builtin obj (p ++ "." ++ q)
  = getNestedValue builtin obj p
      ≫= (fun v => getNestedValue builtin v q).
Proof. apply getNestedValue_app. Qed.

(** X16. A path that runs into [undefined] or [null] gives [undefined]
    however it goes on: no key past the gap is looked up and nothing is
    thrown. *)
Theorem getNestedValue_past_gap (builtin : value -> string -> bool)
    (obj : value) (p q : string) :
  nothing (getNestedValue builtin obj p) ->
  getNestedValue builtin obj (p ++ "." ++ q) = Some VUndefined.
Proof.
  intros Hn. rewrite getNestedValue_app.
  assert (Hv : exists v, getNestedValue builtin obj p = Some v
                         /\ (v = VUndefined \/ v = VNull)).
  { destruct Hn as [H|H]; rewrite H; eauto. }
  destruct Hv as (v & -> & Hv). cbn. unfold getNestedValue.
  rewrite walk_nothing by done.
  by destruct (split_nonempty "."%char q) as (piece & pieces & ->).
Qed.

Lemma getNestedValue_past_gap_witness :
  nothing (getNestedValue object_members sample_content "cart")
  /\ getNestedValue object_members sample_content
       ("cart" ++ "." ++ "pricePrefix.length")
     = Some VUndefined.
Proof.
  assert (H : nothing (getNestedValue object_members sample_content "cart"))
    by (right; vm_compute; reflexivity).
  split; [exact H|].
  exact (getNestedValue_past_gap object_members sample_content "cart"
           "pricePrefix.length" H).
Defined.

End PathProperties.

(** ** Content applied to the marked elements *)
Section ContentFacts.
Import JS Eff Loader Site.
Variable builtin : value -> string -> bool.
Variable valid_name : string -> bool.

Lemma loadContent_result st :
  fst (loadContent st) = Ok (content (snd (loadContent st))).
Proof.
  destruct (truthy (content st)) eqn:Ht.
  - rewrite (loadContent_cached st Ht). cbn. by destruct (window st).
  - rewrite (loadContent_first st Ht). cbn zeta.
    destruct (loadJSON "content.json" st) as [r st1]. cbn.
    by destruct (window st1).
Qed.

Lemma on_loader_unfold {A} (m : M Loader.state A) s :
  on_loader m s = (fst (m (loader s)), set_loader (snd (m (loader s))) s).
Proof. unfold on_loader. by destruct (m (loader s)). Qed.

Lemma applyContent_unfold s :
  applyContent builtin valid_name s
  = let l := snd (loadContent (loader s)) in
    match apply_all builtin valid_name (content l) (marked s) with
    | None => None
    | Some (r, es) => Some (r, set_marked es (set_loader l s))
    end.
Proof.
  unfold applyContent. rewrite on_loader_unfold, loadContent_result.
  reflexivity.
Qed.




Lemma empty_content_path path :
  builtin (VObj []) (first_key path) = false ->
  getNestedValue builtin (VObj []) path = Some VUndefined.
Proof.
  unfold getNestedValue, first_key.
  destruct (split_nonempty "."%char path) as (piece & pieces & ->). cbn.
  unfold inherited. intros ->.
  rewrite (walk_nothing builtin pieces VUndefined) by by left.
  by destruct pieces.
Qed.

Lemma apply_all_nothing content es :
  Forall (fun e => nothing (getNestedValue builtin content (data_content e)))
    es ->
  apply_all builtin valid_name content es = Some (Ok tt, es).
Proof.
  induction 1 as [|e es He _ IH]; [done|].
  cbn. unfold apply_to. rewrite IH.
  by destruct He as [-> | ->].
Qed.

Lemma loadContent_fails st :
  truthy (content st) = false ->
  fails st "content.json" ->
  content (snd (loadContent st)) = VObj []
  /\ console (snd (loadContent st))
     = console st ++ ["Error loading content.json:"]
  /\ requests (snd (loadContent st))
     = requests st ++ [url_for (now st) "content.json"].
Proof.
  intros Ht Hf. rewrite (loadContent_first st Ht).
  rewrite loadJSON_unfold. unfold fails in Hf. cbn zeta.
  destruct (network st _) as [r|].
  - destruct Hf as [-> | [e ->]].
    + cbn. by destruct (window st).
    + destruct (ok r); cbn; by destruct (window st).
  - cbn. by destruct (window st).
Qed.

End ContentFacts.

Section ContentProperties.
Import JS Eff Loader Site.



(** X18. When [content.json] cannot be loaded, [applyContent] returns
    normally and assigns nothing: every marked element keeps what the
    page came with (as long as the first key of its path names no
    built-in member of an empty object), and the failure is logged
    once. *)
Theorem applyContent_keeps_static (builtin : value -> string -> bool)
    (valid_name : string -> bool) (s : site) :
  truthy (content (loader s)) = false ->
  fails (loader s) "content.json" ->
  Forall (fun e => builtin (VObj []) (first_key (data_content e)) = false)
    (marked s) ->
  exists s',
    applyContent builtin valid_name s = Some (Ok tt, s')
    /\ marked s' = marked s
    /\ console (loader s')
       = console (loader s) ++ ["Error loading content.json:"].
Proof.
  intros Ht Hf Hb. rewrite applyContent_unfold. cbn zeta.
  destruct (loadContent_fails (loader s) Ht Hf) as (Hc & Hl & _).
  rewrite Hc, (apply_all_nothing builtin valid_name).
  - eexists. split; [reflexivity|]. by split.
  - eapply Forall_impl; [exact Hb|]. intros e He. left.
    by apply empty_content_path.
Qed.

Lemma applyContent_keeps_static_witness :
  exists s',
    applyContent object_members simple_name offline_page = Some (Ok tt, s')
    /\ marked s' = marked offline_page
    /\ console (loader s')
       = console (loader offline_page) ++ ["Error loading content.json:"].
Proof.
  apply (applyContent_keeps_static object_members simple_name offline_page).
  - reflexivity.
  - exact I.
  - repeat (apply Forall_cons_2; [vm_compute; reflexivity|]).
    apply Forall_nil_2.
Defined.

End ContentProperties.

(** ** The renderers, each in one equation *)
Section RenderFacts.
Import JS Eff Loader Site.

Lemma loadJSON_fails filename st :
  fails st filename ->
  loadJSON filename st
  = (Ok (fallback filename),
     note_error ("Error loading " ++ filename ++ ":")
       (note_request (url_for (now st) filename) st)).
Proof.
  intros Hf. rewrite loadJSON_unfold. unfold fails in Hf. cbn zeta.
  destruct (network st _) as [r|]; [|done].
  destruct Hf as [-> | [e ->]]; [done|]. by destruct (ok r).
Qed.

Lemma renderMods_unfold s old :
  mods_container s = Some old ->
  renderMods s
  = match bind (fst (loadJSON "mods.json" (loader s))) (map_join mod_card)
    with
    | Ok markup =>
        (Ok tt,
         set_mods (Some markup)
           (set_loader (snd (loadJSON "mods.json" (loader s))) s))
    | Throw e =>
        (Throw e, set_loader (snd (loadJSON "mods.json" (loader s))) s)
    end.
Proof.
  intros Hc. unfold renderMods. unfold mbind at 1, gets at 1. rewrite Hc.
  unfold mbind at 1. rewrite on_loader_unfold. unfold loadMods.
  destruct (loadJSON "mods.json" (loader s)) as [[v|e] l]; cbn; [|done].
  unfold mbind, lift. by destruct (map_join mod_card v).
Qed.

Lemma renderTools_unfold s old :
  tools_container s = Some old ->
  renderTools s
  = match bind (fst (loadJSON "tools.json" (loader s))) (map_join tool_card)
    with
    | Ok markup =>
        (Ok tt,
         set_tools (Some markup)
           (set_loader (snd (loadJSON "tools.json" (loader s))) s))
    | Throw e =>
        (Throw e, set_loader (snd (loadJSON "tools.json" (loader s))) s)
    end.
Proof.
  intros Hc. unfold renderTools. unfold mbind at 1, gets at 1. rewrite Hc.
  unfold mbind at 1. rewrite on_loader_unfold. unfold loadTools.
  destruct (loadJSON "tools.json" (loader s)) as [[v|e] l]; cbn; [|done].
  unfold mbind, lift. by destruct (map_join tool_card v).
Qed.

Lemma renderTips_unfold s old :
  tips_container s = Some old ->
  renderTips s
  = let l1 := snd (loadContent (loader s)) in
    let r := loadJSON "tips.json" l1 in
    let s2 := set_loader (snd r) s in
    match
      bind (fst r) (fun tips =>
      bind (tip_words (content l1)) (fun w =>
        map_join (tip_card (fst w) (snd w)) tips))
    with
    | Ok markup => (Ok tt, set_tips (Some markup) s2)
    | Throw e => (Throw e, s2)
    end.
Proof.
  intros Hc. unfold renderTips. unfold mbind at 1, gets at 1. rewrite Hc.
  unfold mbind at 1. rewrite on_loader_unfold, loadContent_result.
  unfold mbind at 1. rewrite on_loader_unfold. unfold loadTips.
  cbn [loader set_loader fst snd]. cbn zeta.
  destruct (loadJSON "tips.json" (snd (loadContent (loader s))))
    as [[tips|e] l2]; cbn [fst snd bind]; [|done].
  unfold tip_words, mbind, lift.
  destruct (get (content _) "cart") as [section|]; cbn [bind]; [|done].
  destruct (get (or_else section (VObj [])) "pricePrefix") as [prefix|];
    cbn [bind]; [|done].
  destruct (get (or_else section (VObj [])) "addButton") as [button|];
    cbn [bind fst snd]; [|done].
  by destruct (map_join _ tips).
Qed.

End RenderFacts.

(** ** The renderers on files that fail or hold no array *)
Section RenderProperties.
Import JS Eff Loader Site.

Lemma fails_cached st filename :
  truthy (content st) = true ->
  fails (snd (loadContent st)) filename <-> fails st filename.
Proof.
  intros Ht. rewrite (loadContent_cached st Ht). cbn.
  by destruct (window st).
Qed.

Lemma get_truthy v key : truthy v = true -> exists x, get v key = Ok x.
Proof. destruct v; cbn; try done; eauto. Qed.

Lemma or_else_truthy a b : truthy b = true -> truthy (or_else a b) = true.
Proof. unfold or_else. by destruct (truthy a) eqn:Ha. Qed.

Lemma tip_words_truthy content :
  truthy content = true -> exists w, tip_words content = Ok w.
Proof.
  intros Ht. unfold tip_words.
  destruct (get_truthy content "cart" Ht) as [section ->]. cbn [bind].
  assert (Hs : truthy (or_else section (VObj [])) = true)
    by by apply or_else_truthy.
  destruct (get_truthy _ "pricePrefix" Hs) as [prefix ->].
  destruct (get_truthy _ "addButton" Hs) as [button ->].
  cbn. eauto.
Qed.

(** X19. A data file that cannot be loaded empties its container: the
    renderer returns normally and leaves the container, which the page
    has, with no markup at all.  For [renderTips] the content is taken to
    be loaded already. *)
Theorem failed_fetch_empties_container (s : site) (old : string) :
  (mods_container s = Some old ->
   fails (loader s) "mods.json" ->
   fst (renderMods s) = Ok tt
   /\ mods_container (snd (renderMods s)) = Some EmptyString)
  /\ (tools_container s = Some old ->
      fails (loader s) "tools.json" ->
      fst (renderTools s) = Ok tt
      /\ tools_container (snd (renderTools s)) = Some EmptyString)
  /\ (tips_container s = Some old ->
      truthy (content (loader s)) = true ->
      fails (loader s) "tips.json" ->
      fst (renderTips s) = Ok tt
      /\ tips_container (snd (renderTips s)) = Some EmptyString).
Proof.
  split; [|split].
  - intros Hc Hf. rewrite (renderMods_unfold s old Hc).
    by rewrite (loadJSON_fails _ _ Hf).
  - intros Hc Hf. rewrite (renderTools_unfold s old Hc).
    by rewrite (loadJSON_fails _ _ Hf).
  - intros Hc Ht Hf. rewrite (renderTips_unfold s old Hc). cbn zeta.
    apply (fails_cached _ _ Ht) in Hf.
    rewrite (loadJSON_fails _ _ Hf). cbn [fst snd bind fallback].
    rewrite (loadContent_cached _ Ht).
    assert (Hcontent :
      content (match window (loader s) with
               | Some _ => set_window (Some (content (loader s))) (loader s)
               | None => loader s
               end) = content (loader s)) by (by destruct (window _)).
    cbn [snd]. rewrite Hcontent.
    by destruct (tip_words_truthy _ Ht) as [w ->].
Qed.

Lemma failed_fetch_empties_container_witness :
  (fst (renderMods (shop_page (fun _ => None))) = Ok tt
   /\ mods_container (snd (renderMods (shop_page (fun _ => None))))
      = Some EmptyString)
  /\ (fst (renderTools (shop_page (fun _ => None))) = Ok tt
      /\ tools_container (snd (renderTools (shop_page (fun _ => None))))
         = Some EmptyString)
  /\ (fst (renderTips (shop_page (fun _ => None))) = Ok tt
      /\ tips_container (snd (renderTips (shop_page (fun _ => None))))
         = Some EmptyString).
Proof.
  destruct (failed_fetch_empties_container (shop_page (fun _ => None))
              "<p>Loading</p>") as (H1 & H2 & H3).
  exact (conj (H1 eq_refl I) (conj (H2 eq_refl I) (H3 eq_refl eq_refl I))).
Defined.

Lemma loadJSON_window filename st :
  fst (loadJSON filename
         (match window st with
          | Some _ => set_window (Some (content st)) st
          | None => st
          end))
  = fst (loadJSON filename st).
Proof.
  rewrite !loadJSON_unfold. cbn zeta. destruct (window st); [|done].
  cbn [network now set_window].
  destruct (network st _) as [r|]; [|done].
  destruct (ok r); [|done]. by destruct (JSON.parse (body r)).
Qed.

(** X20. A data file that holds anything but an array (a mapping, a
    number, a string, [null]) makes its renderer throw a [TypeError] and
    leaves the markup of the container as it was.  For [renderTips] the
    content is taken to be loaded already. *)
Theorem non_array_stops_renderer (s : site) (old : string) (v : value) :
  (forall elems, v <> VArr elems) ->
  (mods_container s = Some old ->
   fst (loadJSON "mods.json" (loader s)) = Ok v ->
   fst (renderMods s) = Throw TypeError
   /\ mods_container (snd (renderMods s)) = Some old)
  /\ (tools_container s = Some old ->
      fst (loadJSON "tools.json" (loader s)) = Ok v ->
      fst (renderTools s) = Throw TypeError
      /\ tools_container (snd (renderTools s)) = Some old)
  /\ (tips_container s = Some old ->
      truthy (content (loader s)) = true ->
      fst (loadJSON "tips.json" (loader s)) = Ok v ->
      fst (renderTips s) = Throw TypeError
      /\ tips_container (snd (renderTips s)) = Some old).
Proof.
  intros Hv.
  assert (Hm : forall f, map_join f v = Throw TypeError).
  { intros f. destruct v; try done. by destruct (Hv elems). }
  split; [|split].
  - intros Hc Hl. rewrite (renderMods_unfold s old Hc), Hl. cbn [bind].
    by rewrite Hm.
  - intros Hc Hl. rewrite (renderTools_unfold s old Hc), Hl. cbn [bind].
    by rewrite Hm.
  - intros Hc Ht Hl. rewrite (renderTips_unfold s old Hc). cbn zeta.
    rewrite (loadContent_cached _ Ht). cbn [snd].
    rewrite loadJSON_window, Hl. cbn [bind].
    assert (Hcontent :
      content (match window (loader s) with
               | Some _ => set_window (Some (content (loader s))) (loader s)
               | None => loader s
               end) = content (loader s)) by (by destruct (window _)).
    rewrite Hcontent.
    destruct (tip_words_truthy (content (loader s)) Ht) as [w ->].
    cbn [bind]. by rewrite Hm.
Qed.

Lemma non_array_stops_renderer_witness :
  (fst (renderMods (shop_page odd_files)) = Throw TypeError
   /\ mods_container (snd (renderMods (shop_page odd_files)))
      = Some "<p>Loading</p>"%string)
  /\ (fst (renderTools (shop_page odd_files)) = Throw TypeError
      /\ tools_container (snd (renderTools (shop_page odd_files)))
         = Some "<p>Loading</p>"%string)
  /\ (fst (renderTips (shop_page odd_files)) = Throw TypeError
      /\ tips_container (snd (renderTips (shop_page odd_files)))
         = Some "<p>Loading</p>"%string).
Proof.
  assert (Hv : forall elems, VObj [] <> VArr elems) by discriminate.
  assert (L1 : fst (loadJSON "mods.json" (loader (shop_page odd_files)))
               = Ok (VObj [])) by (vm_compute; reflexivity).
  assert (L2 : fst (loadJSON "tools.json" (loader (shop_page odd_files)))
               = Ok (VObj [])) by (vm_compute; reflexivity).
  assert (L3 : fst (loadJSON "tips.json" (loader (shop_page odd_files)))
               = Ok (VObj [])) by (vm_compute; reflexivity).
  destruct (non_array_stops_renderer (shop_page odd_files) "<p>Loading</p>"
              (VObj []) Hv) as (H1 & H2 & H3).
  exact (conj (H1 eq_refl L1)
           (conj (H2 eq_refl L2) (H3 eq_refl eq_refl L3))).
Defined.

End RenderProperties.

(** ** The requests of a page load *)
Section HandlerFacts.
Import JS Eff Loader Site.







End HandlerFacts.

Section HandlerProperties.
Import JS Eff Loader Site.



End HandlerProperties.

(** ** The card of a tip *)
Section TipFacts.
Import JS Eff Loader Site.

Lemma append_assoc (a b c : string) :
  ((a ++ b) ++ c)%string = (a ++ (b ++ c))%string.
Proof.
  induction a as [|x a IH]; [done|].
  change ((String x a ++ b) ++ c)%string
    with (String x ((a ++ b) ++ c))%string.
  by rewrite IH.
Qed.

Lemma stringified_string s :
  exists rest, stringified (VStr s) = (q ++ rest)%string.
Proof.
  unfold stringified, JSON.stringify. cbn. unfold JSON.quote. cbn.
  eexists. reflexivity.
Qed.

(** X22. In the card of a tip whose name is a string, the [onclick]
    attribute, which the template opens with a double quote, has a double
    quote again right after [addToCart(]: the JSON text of the name opens
    with one and goes into the markup as it is. *)
Theorem tip_card_quotes_name (pricePrefix addButtonText tip : value)
    (name markup : string) :
  get tip "name" = Ok (VStr name) ->
  tip_card pricePrefix addButtonText tip = Ok markup ->
  exists before after,
    markup
    = (before ++ "onclick=" ++ q ++ "addToCart(" ++ q ++ after)%string.
Proof.
  intros Hn. unfold tip_card. rewrite Hn. cbn [bind].
  destruct (get tip "description") as [d|]; [|done]. cbn [bind].
  destruct (JS.to_string (VStr name)) as [sn|]; [|done].
  destruct (JS.to_string d) as [sd|]; [|done]. cbn [bind].
  destruct (JS.to_string pricePrefix) as [sp|]; [|done]. cbn [bind].
  destruct (get tip "price") as [p|]; [|done]. cbn [bind].
  destruct (JS.to_string p) as [spr|]; [|done]. cbn [bind].
  destruct (JS.to_string addButtonText) as [sb|]; [|done]. cbn [bind].
  intros [= <-].
  destruct (stringified_string name) as [rest ->].
  unfold tip_markup.
  eexists (nl ++ "    <article class=" ++ q ++ "card" ++ q ++ ">" ++ nl
           ++ "      <h3 class=" ++ q ++ "card-title" ++ q ++ ">" ++ sn
           ++ "</h3>" ++ nl ++ "      <p class=" ++ q ++ "card-description"
           ++ q ++ ">" ++ sd ++ "</p>" ++ nl ++ "      <div class=" ++ q
           ++ "card-footer" ++ q ++ ">" ++ nl ++ "        <span class="
           ++ q ++ "price" ++ q ++ ">" ++ sp ++ spr ++ "</span>" ++ nl
           ++ "        <button" ++ nl ++ "          class=" ++ q
           ++ "btn btn-primary" ++ q ++ nl ++ "          ")%string, _.
  rewrite !append_assoc. reflexivity.
Qed.

Lemma tip_card_quotes_name_witness :
  exists before after,
    default EmptyString
      (match tip_card (VStr "$") (VStr "Add to Cart") skill_recovery with
       | Ok markup => Some markup
       | Throw _ => None
       end)
    = (before ++ "onclick=" ++ q ++ "addToCart(" ++ q ++ after)%string.
Proof.
  destruct (tip_card (VStr "$") (VStr "Add to Cart") skill_recovery)
    as [markup|e] eqn:H.
  - exact (tip_card_quotes_name (VStr "$") (VStr "Add to Cart")
             skill_recovery "Skill Recovery" markup eq_refl H).
  - vm_compute in H. discriminate H.
Defined.

End TipFacts.
